(** * renderapi.transform: 2-D coordinate transforms, their estimation,
      composition and interchange encoding

    A shallow embedding of [renderapi/transform.py].  Floating-point numbers
    are idealised as the real numbers [R]; numpy arrays are two-dimensional
    arrays with an explicit shape; Python dictionaries obtained from JSON are
    finite maps from strings to JSON values; exceptions are values of [exn]
    carried by the [result] type. *)

From Stdlib Require Import Reals Lra Lia ZArith List String Ascii.
From stdpp Require Import gmap strings list fin_maps.

Set Warnings "-register-all".

(** ** Exceptions and results *)

Inductive exn : Type :=
| TypeError
| ValueError
| KeyError
| IndexError
| AttributeError
| UnboundLocalError
| LinAlgError
| RecursionError
| RenderError
| EstimationError
| ConversionError.

Inductive result (A : Type) : Type :=
| Ok (a : A)
| Raise (e : exn).

Arguments Ok {A} a.
Arguments Raise {A} e.

#[global] Instance result_ret : MRet result := fun A a => Ok a.

#[global] Instance result_bind : MBind result := fun A B k r =>
  match r with
  | Ok a => k a
  | Raise e => Raise e
  end.

#[global] Instance result_fmap : FMap result := fun A B f r =>
  match r with
  | Ok a => Ok (f a)
  | Raise e => Raise e
  end.

(** A method that may mutate its receiver: it maps the receiver's state to
    a result and the state at the point of return or raise. *)
Definition meth (S A : Type) : Type := S -> result A * S.

#[global] Instance meth_ret (S : Type) : MRet (meth S) := fun A a s => (Ok a, s).

#[global] Instance meth_bind (S : Type) : MBind (meth S) := fun A B k m s =>
  match m s with
  | (Ok a, s') => k a s'
  | (Raise e, s') => (Raise e, s')
  end.

Definition lift {S A : Type} (r : result A) : meth S A := fun s => (r, s).

Definition assign {S : Type} (f : S -> S) : meth S unit := fun s => (Ok tt, f s).

Definition read {S A : Type} (f : S -> A) : meth S A := fun s => (Ok (f s), s).

(** ** Strings and numbers as text *)

(** White space for [str.split()]. *)
Definition is_space (c : ascii) : bool :=
  let n := N_of_ascii c in
  ((n =? 32) || ((9 <=? n) && (n <=? 13)))%N.

(** [s.split()]: the maximal runs of characters that are not white space. *)
Fixpoint split_ws (s : string) : list string :=
  match s with
  | EmptyString => []
  | String a s' =>
      if is_space a then split_ws s'
      else match s' with
           | EmptyString => [String a EmptyString]
           | String b _ =>
               if is_space b then String a EmptyString :: split_ws s'
               else match split_ws s' with
                    | w :: ws => String a w :: ws
                    | [] => [String a EmptyString]
                    end
           end
  end.

(** [s.split(c)] for a one-character separator: every occurrence of the
    separator cuts, so the result is never empty and may hold empty
    strings. *)
Fixpoint split_on (c : ascii) (s : string) : list string :=
  match s with
  | EmptyString => [EmptyString]
  | String a s' =>
      if Ascii.eqb a c then EmptyString :: split_on c s'
      else match split_on c s' with
           | w :: ws => String a w :: ws
           | [] => [String a EmptyString]
           end
  end.

(** [sep.join(l)] *)
Fixpoint join (sep : string) (l : list string) : string :=
  match l with
  | [] => EmptyString
  | [w] => w
  | w :: ws => w +:+ sep +:+ join sep ws
  end.

Definition digit_of (c : ascii) : option N :=
  let n := N_of_ascii c in
  if ((48 <=? n) && (n <=? 57))%N then Some (n - 48)%N else None.

Definition digit_char (d : N) : ascii := ascii_of_N (48 + d).

(** The value of a string of decimal digits, most significant first. *)
Fixpoint digits_val (acc : N) (s : string) : option N :=
  match s with
  | EmptyString => Some acc
  | String c s' =>
      match digit_of c with
      | Some d => digits_val (10 * acc + d) s'
      | None => None
      end
  end.

(** A non-empty string of decimal digits. *)
Definition parse_nat (s : string) : option N :=
  match s with
  | EmptyString => None
  | _ => digits_val 0 s
  end.

(** Cut [s] at the first character satisfying [p]: the part before it and,
    when there is one, the part after it. *)
Fixpoint break_at (p : ascii -> bool) (s : string) : string * option string :=
  match s with
  | EmptyString => (EmptyString, None)
  | String c s' =>
      if p c then (EmptyString, Some s')
      else let '(a, b) := break_at p s' in (String c a, b)
  end.

Definition is_dot (c : ascii) : bool := Ascii.eqb c ".".
Definition is_exp (c : ascii) : bool := Ascii.eqb c "e" || Ascii.eqb c "E".

(** Cut off an optional sign: [true] for a minus sign. *)
Definition take_sign (s : string) : bool * string :=
  match s with
  | String c r =>
      if Ascii.eqb c "-" then (true, r)
      else if Ascii.eqb c "+" then (false, r)
      else (false, s)
  | EmptyString => (false, s)
  end.

(** The value of a mantissa [ip] or [ip.fp]; one of the two parts may be
    empty when there is a point. *)
Definition mantissa_val (ip : string) (fp : option string) : option R :=
  match fp with
  | None => (fun n => IZR (Z.of_N n)) <$> parse_nat ip
  | Some f =>
      match ip, f with
      | EmptyString, EmptyString => None
      | _, _ =>
          match digits_val 0 ip, digits_val 0 f with
          | Some i, Some v =>
              Some (IZR (Z.of_N i) +
                    IZR (Z.of_N v) / 10 ^ String.length f)%R
          | _, _ => None
          end
      end
  end.

Definition exponent_val (e : option string) : option Z :=
  match e with
  | None => Some 0%Z
  | Some e =>
      let '(neg, ds) := take_sign e in
      (fun n => if neg then (- Z.of_N n)%Z else Z.of_N n) <$> parse_nat ds
  end.

(** [float(s)] for a string [s]: decimal literals with an optional sign,
    fraction and exponent.  Everything else is a [ValueError]; the literals
    of infinities and NaN and white space around the number, which Python
    accepts as well, have no counterpart here. *)
Definition float_of_string (s : string) : result R :=
  let '(neg, body) := take_sign s in
  let '(mant, e) := break_at is_exp body in
  let '(ip, fp) := break_at is_dot mant in
  match mantissa_val ip fp, exponent_val e with
  | Some m, Some k =>
      Ok ((if neg then - m else m) * powerRZ 10 k)%R
  | _, _ => Raise ValueError
  end.

(** [int(x)] for a float [x]: truncation towards zero. *)
Definition py_int (x : R) : Z :=
  if Rle_dec 0 x then Int_part x else (- Int_part (- x))%Z.

(** The [k] least significant decimal digits of [n], most significant
    first. *)
Fixpoint digits_fixed (k : nat) (n : N) : string :=
  match k with
  | O => EmptyString
  | S k' => digits_fixed k' (n / 10) +:+ String (digit_char (n mod 10)) EmptyString
  end.

Fixpoint num_digits_aux (fuel : nat) (n : N) : nat :=
  match fuel with
  | O => 1
  | S fuel' => if (n <? 10)%N then 1 else S (num_digits_aux fuel' (n / 10))
  end.

(** The number of decimal digits of [n] (one for zero). *)
Definition num_digits (n : N) : nat := num_digits_aux (N.to_nat (N.size n)) n.

(** The decimal digits of [n] without leading zeros. *)
Definition decimal (n : N) : string := digits_fixed (num_digits n) n.

(** Rounding to the nearest integer, ties to the even one. *)
Definition round_half_even (y : R) : Z :=
  let n := Int_part y in
  let f := frac_part y in
  if Rlt_dec f (1 / 2) then n
  else if Rlt_dec (1 / 2) f then (n + 1)%Z
  else if Z.even n then n else (n + 1)%Z.

(** ["%.10f" % x]: sign, integer digits, a point and exactly ten fractional
    digits of [x] rounded at the tenth place. *)
Definition format_10f (x : R) : string :=
  let m := Z.to_N (Z.abs (round_half_even (x * 10 ^ 10))) in
  (if Rlt_dec x 0 then "-" else "") +:+
  decimal (m / 10 ^ 10) +:+ "." +:+ digits_fixed 10 (m mod 10 ^ 10).

(** [s.replace(old, new)] for a non-empty [old]: the occurrences are
    replaced from the left and do not overlap.  [skip] counts the
    characters of an occurrence that are still to be dropped. *)
Fixpoint replace_aux (old new : string) (skip : nat) (s : string) : string :=
  match s with
  | EmptyString => EmptyString
  | String c s' =>
      match skip with
      | S k => replace_aux old new k s'
      | O =>
          if String.prefix old s
          then new +:+ replace_aux old new (String.length old - 1) s'
          else String c (replace_aux old new 0 s')
      end
  end.

Definition replace (old new s : string) : string := replace_aux old new 0 s.

(** Arguments of the builtins [float] and [map] as the decoders of the
    constrained affine models pass them. *)
Inductive pyval : Type :=
| PStr (s : string)
| PFloat (r : R)
| PList (l : list pyval).

(** [float(v)]: a list is neither a string nor a number. *)
Definition py_float (v : pyval) : result R :=
  match v with
  | PStr s => float_of_string s
  | PFloat r => Ok r
  | PList _ => Raise TypeError
  end.

(** [map(v)]: [map] called with a single argument. *)
Definition py_map1 (v : pyval) : result (list R) := Raise TypeError.

(** ** JSON values and Python dictionaries decoded from JSON *)

Inductive json : Type :=
| JNull
| JBool (b : bool)
| JNum (r : R)
| JStr (s : string)
| JArr (l : list json)
| JObj (m : gmap string json).

(** A Python [list] or [dict] cannot be used as a dictionary key. *)
Definition hashable (v : json) : bool :=
  match v with
  | JArr _ | JObj _ => false
  | _ => true
  end.

(** [d.get(k, default)] *)
Definition dict_get (d : gmap string json) (k : string) (default : json) : json :=
  match d !! k with
  | Some v => v
  | None => default
  end.

(** [d[k]] *)
Definition dict_item (d : gmap string json) (k : string) : result json :=
  match d !! k with
  | Some v => Ok v
  | None => Raise KeyError
  end.

(** ** numpy arrays *)

(** A two-dimensional array: its shape and its entries.  Entries outside the
    shape carry no meaning. *)
Record ndarray : Type := mk_ndarray {
  shape0 : nat;
  shape1 : nat;
  item : nat -> nat -> R
}.

(** Two arrays of the same shape with the same entries. *)
Definition array_eq (a b : ndarray) : Prop :=
  shape0 a = shape0 b /\ shape1 a = shape1 b /\
  forall i j, (i < shape0 a)%nat -> (j < shape1 a)%nat -> item a i j = item b i j.

(** [a[i, j]] *)
Definition getitem (a : ndarray) (i j : nat) : result R :=
  if ((i <? shape0 a) && (j <? shape1 a))%nat then Ok (item a i j)
  else Raise IndexError.

(** [np.zeros((n, m))] *)
Definition zeros (n m : nat) : ndarray := mk_ndarray n m (fun _ _ => 0%R).

(** [a[i, j] = v] *)
Definition set_item (a : ndarray) (i j : nat) (v : R) : ndarray :=
  mk_ndarray (shape0 a) (shape1 a)
    (fun i' j' => if ((i' =? i) && (j' =? j))%nat then v else item a i' j').

(** [a[i, :] = l] *)
Definition set_row (a : ndarray) (i : nat) (l : list R) : ndarray :=
  mk_ndarray (shape0 a) (shape1 a)
    (fun i' j' => if (i' =? i)%nat then nth j' l 0%R else item a i' j').

(** [a[lo:hi, j] = col], [col] indexed from [lo]. *)
Definition set_col (a : ndarray) (lo hi j : nat) (col : nat -> R) : ndarray :=
  mk_ndarray (shape0 a) (shape1 a)
    (fun i' j' =>
       if ((j' =? j) && (lo <=? i') && (i' <? hi))%nat then col (i' - lo)%nat
       else item a i' j').

(** [a[:, j] += col] *)
Definition add_col (a : ndarray) (j : nat) (col : nat -> R) : ndarray :=
  mk_ndarray (shape0 a) (shape1 a)
    (fun i' j' =>
       if (j' =? j)%nat then (item a i' j' + col i')%R else item a i' j').

(** [a.flatten()]: the entries row by row. *)
Definition flatten_array (a : ndarray) : list R :=
  i ← seq 0 (shape0 a); (fun j => item a i j) <$> seq 0 (shape1 a).

(** [a.sum(axis=0)[j]] *)
Definition col_sum (a : ndarray) (j : nat) : R :=
  fold_left (fun acc i => acc + item a i j)%R (seq 0 (shape0 a)) 0%R.

(** [a.mean(axis=0)[j]] for an array with at least one row.  Without rows
    numpy gives [nan], a value the reals do not have; what is proved about
    means is about arrays with a row. *)
Definition col_mean (a : ndarray) (j : nat) : R :=
  (col_sum a j / INR (shape0 a))%R.

(** [l[i]] *)
Definition list_item {A : Type} (l : list A) (i : nat) : result A :=
  match nth_error l i with
  | Some x => Ok x
  | None => Raise IndexError
  end.

(** A loop whose body may raise. *)
Fixpoint for_each {S B : Type} (body : S -> B -> result S) (l : list B) (s : S)
  : result S :=
  match l with
  | [] => Ok s
  | b :: l' => s' ← body s b; for_each body l' s'
  end.

(** [np.allclose(a, b, atol=atol, rtol=rtol)] for arrays of one shape:
    every entry satisfies [|a - b| <= atol + rtol * |b|].  Broadcasting of
    arrays of different shapes is not modelled and is reported as the
    [ValueError] numpy raises for incompatible shapes. *)
Definition isclose (atol rtol x y : R) : bool :=
  if Rle_dec (Rabs (x - y)) (atol + rtol * Rabs y) then true else false.

Definition allclose (a b : ndarray) (atol rtol : R) : result bool :=
  if ((shape0 a =? shape0 b) && (shape1 a =? shape1 b))%nat then
    Ok (forallb (fun i =>
          forallb (fun j => isclose atol rtol (item a i j) (item b i j))
                  (seq 0 (shape1 a)))
        (seq 0 (shape0 a)))
  else Raise ValueError.

(** The 3x3 homogeneous matrix [M] of the affine family. *)
Record mat3 : Type := mk_mat3 {
  m00 : R; m01 : R; m02 : R;
  m10 : R; m11 : R; m12 : R;
  m20 : R; m21 : R; m22 : R
}.

(** [np.identity(3, np.double)] *)
Definition identity3 : mat3 :=
  mk_mat3 1 0 0
          0 1 0
          0 0 1.

(** [M[r, c]] *)
Definition mat3_get (m : mat3) (r c : nat) : R :=
  match r, c with
  | 0%nat, 0%nat => m00 m | 0%nat, 1%nat => m01 m | 0%nat, 2%nat => m02 m
  | 1%nat, 0%nat => m10 m | 1%nat, 1%nat => m11 m | 1%nat, 2%nat => m12 m
  | 2%nat, 0%nat => m20 m | 2%nat, 1%nat => m21 m | 2%nat, 2%nat => m22 m
  | _, _ => 0%R
  end.

(** [np.linalg.det(m)] *)
Definition mat3_det (m : mat3) : R :=
  (m00 m * (m11 m * m22 m - m12 m * m21 m)
   - m01 m * (m10 m * m22 m - m12 m * m20 m)
   + m02 m * (m10 m * m21 m - m11 m * m20 m))%R.

(** [np.linalg.inv(m)] over the reals: the adjugate divided by the
    determinant.  A singular matrix raises [LinAlgError]. *)
Definition mat3_inv (m : mat3) : result mat3 :=
  let d := mat3_det m in
  if Req_dec_T d 0 then Raise LinAlgError
  else
    Ok (mk_mat3
          ((m11 m * m22 m - m12 m * m21 m) / d)
          ((m02 m * m21 m - m01 m * m22 m) / d)
          ((m01 m * m12 m - m02 m * m11 m) / d)
          ((m12 m * m20 m - m10 m * m22 m) / d)
          ((m00 m * m22 m - m02 m * m20 m) / d)
          ((m02 m * m10 m - m00 m * m12 m) / d)
          ((m10 m * m21 m - m11 m * m20 m) / d)
          ((m01 m * m20 m - m00 m * m21 m) / d)
          ((m00 m * m11 m - m01 m * m10 m) / d))%R.

(** [np.arctan2(y, x)]: the angle of the point [(x, y)] in [(-pi, pi]].
    On the negative x axis numpy tells the two zeros of the floating-point
    numbers apart: the angle of [(x, +0.0)] with [x < 0] is [pi], the one of
    [(x, -0.0)] is [-pi].  The reals have one zero, for which [pi] stands
    here: the definition follows numpy off that half axis. *)
Definition arctan2 (y x : R) : R :=
  if Rlt_dec 0 x then atan (y / x)
  else if Rlt_dec x 0 then
    if Rle_dec 0 y then (atan (y / x) + PI)%R else (atan (y / x) - PI)%R
  else if Rlt_dec 0 y then (PI / 2)%R
  else if Rlt_dec y 0 then (- (PI / 2))%R
  else 0%R.

(** The external linear-algebra routines the module calls.

    [lstsq M Y] is the solution vector returned by [np.linalg.lstsq(M, Y)]
    (the first component of its result); [None] stands for the
    [LinAlgError] of a computation that does not converge.

    [svd_vsm k A] stands for the [k]-th call of [svd(A)] followed by the
    selection [V[np.argmin(s), :]] of the right singular vector of the
    smallest singular value; [V] is square of the size of the number of
    columns of [A], so the vector has one entry per column of [A].  The call
    number is an argument so that nothing is assumed about two calls on the
    same matrix giving the same answer.  A call may fail with [LinAlgError] or
    [ValueError]. *)
Inductive svd_failure : Type :=
| SvdLinAlgError
| SvdValueError.

Record linalg : Type := mk_linalg {
  lstsq : ndarray -> ndarray -> option ndarray;
  svd_vsm : nat -> ndarray -> svd_failure + (nat -> R)
}.

(** ** Transform: the generic leaf *)

Module Transform.

Record t : Type := mk {
  className : json;
  dataString : json;
  transformId : json
}.

(** [Transform(className, dataString, transformId)] *)
Definition init (className dataString transformId : json) : t :=
  mk className dataString transformId.

(** The attributes of an instance before [__init__] has assigned any.  No
    modelled path reads an attribute before assigning it. *)
Definition blank : t := mk JNull JNull JNull.

Definition _process_dataString (datastring : json) : meth t unit :=
  assign (fun self => mk (className self) datastring (transformId self)).

Definition from_dict (d : gmap string json) : meth t unit :=
  cn ← lift (dict_item d "className");
  assign (fun self => mk cn (dataString self) (transformId self));;
  assign (fun self =>
            mk (className self) (dataString self)
               (dict_get d "transformId" JNull));;
  ds ← lift (dict_item d "dataString");
  _process_dataString ds.

(** [Transform(json=d)] *)
Definition init_json (d : gmap string json) : result t :=
  match from_dict d blank with
  | (Ok _, self) => Ok self
  | (Raise e, _) => Raise e
  end.

Definition to_dict (self : t) : gmap string json :=
  let d : gmap string json := ∅ in
  let d := <["type" := JStr "leaf"]> d in
  let d := <["className" := className self]> d in
  let d := <["dataString" := dataString self]> d in
  match transformId self with
  | JNull => d
  | tid => <["transformId" := tid]> d
  end.

End Transform.

(** ** AffineModel *)

Module AffineModel.

Definition class_name : string := "mpicbg.trakem2.transform.AffineModel2D".

(** The instance attributes of an [AffineModel] (and of its subclasses).
    [M] is stored next to the six scalars, as in the source. *)
Record t : Type := mk {
  M00 : R; M01 : R; M10 : R; M11 : R; B0 : R; B1 : R;
  M : mat3;
  className : json;
  transformId : json
}.

(** [load_M]: rebuild [M] from the six scalar attributes. *)
Definition load_M (self : t) : t :=
  let M := identity3 in
  let M := mk_mat3 (M00 self) (m01 M) (m02 M) (m10 M) (m11 M) (m12 M)
                   (m20 M) (m21 M) (m22 M) in
  let M := mk_mat3 (m00 M) (M01 self) (m02 M) (m10 M) (m11 M) (m12 M)
                   (m20 M) (m21 M) (m22 M) in
  let M := mk_mat3 (m00 M) (m01 M) (m02 M) (M10 self) (m11 M) (m12 M)
                   (m20 M) (m21 M) (m22 M) in
  let M := mk_mat3 (m00 M) (m01 M) (m02 M) (m10 M) (M11 self) (m12 M)
                   (m20 M) (m21 M) (m22 M) in
  let M := mk_mat3 (m00 M) (m01 M) (B0 self) (m10 M) (m11 M) (m12 M)
                   (m20 M) (m21 M) (m22 M) in
  let M := mk_mat3 (m00 M) (m01 M) (m02 M) (m10 M) (m11 M) (B1 self)
                   (m20 M) (m21 M) (m22 M) in
  mk (M00 self) (M01 self) (M10 self) (M11 self) (B0 self) (B1 self)
     M (className self) (transformId self).

(** [AffineModel(M00, M01, M10, M11, B0, B1, transformId)], the branch of
    [__init__] taken when no [json] is given.  The positional order is the
    one of the signature. *)
Definition init (M00 M01 M10 M11 B0 B1 : R) (transformId : json) : t :=
  let self := mk M00 M01 M10 M11 B0 B1 identity3 (JStr class_name) JNull in
  let self := load_M self in
  mk (AffineModel.M00 self) (AffineModel.M01 self) (AffineModel.M10 self)
     (AffineModel.M11 self) (AffineModel.B0 self) (AffineModel.B1 self)
     (M self) (className self) transformId.

(** [AffineModel()] with all defaults. *)
Definition default : t := init 1 0 0 1 0 0 JNull.

(** [concatenate]: reads [M] of both models and builds a new model. *)
Definition concatenate (self model : t) : t :=
  let a00 := (m00 (M self) * m00 (M model) + m01 (M self) * m10 (M model))%R in
  let a01 := (m00 (M self) * m01 (M model) + m01 (M self) * m11 (M model))%R in
  let a02 := (m00 (M self) * m02 (M model) + m01 (M self) * m12 (M model) +
              m02 (M self))%R in
  let a10 := (m10 (M self) * m00 (M model) + m11 (M self) * m10 (M model))%R in
  let a11 := (m10 (M self) * m01 (M model) + m11 (M self) * m11 (M model))%R in
  let a12 := (m10 (M self) * m02 (M model) + m11 (M self) * m12 (M model) +
              m12 (M self))%R in
  init a00 a01 a10 a11 a02 a12 JNull.

(** [convert_to_point_vector]: append a column of ones. *)
Definition convert_to_point_vector (points : ndarray) : result (ndarray * nat) :=
  let Np := shape0 points in
  if negb (shape1 points =? 2)%nat then Raise ConversionError
  else
    let Nd := 2%nat in
    Ok (mk_ndarray Np (shape1 points + 1)
          (fun i j => if (j <? shape1 points)%nat then item points i j else 1%R),
        Nd).

(** [convert_points_vector_to_array]: divide the first [Nd] columns by the
    third one. *)
Definition convert_points_vector_to_array (points : ndarray) (Nd : nat) : ndarray :=
  mk_ndarray (shape0 points) Nd
    (fun i j => (item points i j / item points i 2)%R).

(** [np.dot(M, points.T).T] for a 3x3 [M] and an Nx3 array. *)
Definition dot_T (m : mat3) (points : ndarray) : ndarray :=
  mk_ndarray (shape0 points) 3
    (fun i r => (mat3_get m r 0 * item points i 0 +
                 mat3_get m r 1 * item points i 1 +
                 mat3_get m r 2 * item points i 2)%R).

Definition tform (self : t) (points : ndarray) : result ndarray :=
  '(points, Nd) ← convert_to_point_vector points;
  let pt := dot_T (M self) points in
  Ok (convert_points_vector_to_array pt Nd).

Definition set_M00 (v : R) (self : t) : t :=
  mk v (M01 self) (M10 self) (M11 self) (B0 self) (B1 self)
     (M self) (className self) (transformId self).
Definition set_M01 (v : R) (self : t) : t :=
  mk (M00 self) v (M10 self) (M11 self) (B0 self) (B1 self)
     (M self) (className self) (transformId self).
Definition set_M10 (v : R) (self : t) : t :=
  mk (M00 self) (M01 self) v (M11 self) (B0 self) (B1 self)
     (M self) (className self) (transformId self).
Definition set_M11 (v : R) (self : t) : t :=
  mk (M00 self) (M01 self) (M10 self) v (B0 self) (B1 self)
     (M self) (className self) (transformId self).
Definition set_B0 (v : R) (self : t) : t :=
  mk (M00 self) (M01 self) (M10 self) (M11 self) v (B1 self)
     (M self) (className self) (transformId self).
Definition set_B1 (v : R) (self : t) : t :=
  mk (M00 self) (M01 self) (M10 self) (M11 self) (B0 self) v
     (M self) (className self) (transformId self).
Definition set_M (v : mat3) (self : t) : t :=
  mk (M00 self) (M01 self) (M10 self) (M11 self) (B0 self) (B1 self)
     v (className self) (transformId self).
Definition set_className (v : json) (self : t) : t :=
  mk (M00 self) (M01 self) (M10 self) (M11 self) (B0 self) (B1 self)
     (M self) v (transformId self).
Definition set_transformId (v : json) (self : t) : t :=
  mk (M00 self) (M01 self) (M10 self) (M11 self) (B0 self) (B1 self)
     (M self) (className self) v.

(** The attributes of an instance before [__init__] has assigned any.  No
    modelled path that returns reads an attribute before assigning it. *)
Definition blank : t := mk 0 0 0 0 0 0 identity3 JNull JNull.

(** The [dataString] property. *)
Definition dataString (self : t) : string :=
  format_10f (m00 (M self)) +:+ " " +:+ format_10f (m10 (M self)) +:+ " " +:+
  format_10f (m01 (M self)) +:+ " " +:+ format_10f (m11 (M self)) +:+ " " +:+
  format_10f (m02 (M self)) +:+ " " +:+ format_10f (m12 (M self)).

(** [_process_dataString]: only a string has [split]. *)
Definition _process_dataString (datastring : json) : meth t unit :=
  match datastring with
  | JStr ds =>
      let dsList := split_ws ds in
      v ← lift (x ← list_item dsList 0; float_of_string x); assign (set_M00 v);;
      v ← lift (x ← list_item dsList 1; float_of_string x); assign (set_M10 v);;
      v ← lift (x ← list_item dsList 2; float_of_string x); assign (set_M01 v);;
      v ← lift (x ← list_item dsList 3; float_of_string x); assign (set_M11 v);;
      v ← lift (x ← list_item dsList 4; float_of_string x); assign (set_B0 v);;
      v ← lift (x ← list_item dsList 5; float_of_string x); assign (set_B1 v);;
      assign load_M
  | _ => lift (Raise AttributeError)
  end.

(** [Transform.from_dict], which the affine family inherits; the call of
    [self._process_dataString] goes to the method [process] of the
    instance's class. *)
Definition from_dict (process : json -> meth t unit) (d : gmap string json)
  : meth t unit :=
  cn ← lift (dict_item d "className");
  assign (set_className cn);;
  assign (set_transformId (dict_get d "transformId" JNull));;
  ds ← lift (dict_item d "dataString");
  process ds.

(** [AffineModel(json=d)] *)
Definition init_json (d : gmap string json) : result t :=
  match from_dict _process_dataString d blank with
  | (Ok _, self) => Ok self
  | (Raise e, _) => Raise e
  end.

(** [Transform.to_dict], inherited. *)
Definition to_dict (self : t) : gmap string json :=
  let d : gmap string json := ∅ in
  let d := <["type" := JStr "leaf"]> d in
  let d := <["className" := className self]> d in
  let d := <["dataString" := JStr (dataString self)]> d in
  match transformId self with
  | JNull => d
  | tid => <["transformId" := tid]> d
  end.

(** The system [fit] hands to [lstsq]: two rows per point pair. *)
Definition fit_system (A B : ndarray) : ndarray * ndarray :=
  let N := shape0 A in
  let M := zeros (2 * N) 6 in
  let Y := zeros (2 * N) 1 in
  fold_left
    (fun '(M, Y) i =>
       let M := set_row M (2 * i) [item A i 0; item A i 1; 0; 0; 1; 0]%R in
       let M := set_row M (2 * i + 1) [0; 0; item A i 0; item A i 1; 0; 1]%R in
       let Y := set_row Y (2 * i) [item B i 0] in
       let Y := set_row Y (2 * i + 1) [item B i 1] in
       (M, Y))
    (seq 0 N) (M, Y).

(** The static method [fit]. *)
Definition fit (np : linalg) (A B : ndarray) : result ndarray :=
  if negb ((shape0 A =? shape0 B) &&
           ((shape1 A =? shape1 B) && (shape1 B =? 2)))%nat
  then Raise EstimationError
  else
    let '(M, Y) := fit_system A B in
    match lstsq np M Y with
    | Some Tvec => Ok Tvec
    | None => Raise LinAlgError
    end.

Definition estimate (np : linalg) (A B : ndarray) (return_params : bool)
  : meth t (option mat3) :=
  Tvec ← lift (fit np A B);
  v ← lift (getitem Tvec 0 0); assign (set_M00 v);;
  v ← lift (getitem Tvec 2 0); assign (set_M10 v);;
  v ← lift (getitem Tvec 1 0); assign (set_M01 v);;
  v ← lift (getitem Tvec 3 0); assign (set_M11 v);;
  v ← lift (getitem Tvec 4 0); assign (set_B0 v);;
  v ← lift (getitem Tvec 5 0); assign (set_B1 v);;
  assign load_M;;
  if return_params then m ← read M; mret (Some m) else mret None.

(** [invert]: a new model from the inverse of [M]. *)
Definition invert (self : t) : result t :=
  inv_M ← mat3_inv (M self);
  Ok (init (m00 inv_M) (m01 inv_M) (m10 inv_M) (m11 inv_M)
           (m02 inv_M) (m12 inv_M) JNull).

Definition inverse_tform (self : t) (points : ndarray) : result ndarray :=
  '(points, Nd) ← convert_to_point_vector points;
  inv_M ← mat3_inv (M self);
  let pt := dot_T inv_M points in
  Ok (convert_points_vector_to_array pt Nd).

(** The [scale] property: the norms of the columns of [M], of which the
    first two are returned. *)
Definition scale (self : t) : R * R :=
  (sqrt (0 + m00 (M self) ^ 2 + m10 (M self) ^ 2 + m20 (M self) ^ 2),
   sqrt (0 + m01 (M self) ^ 2 + m11 (M self) ^ 2 + m21 (M self) ^ 2))%R.

(** The [rotation] property. *)
Definition rotation (self : t) : R := arctan2 (m10 (M self)) (m00 (M self)).

(** The [shear] property. *)
Definition shear (self : t) : R :=
  (arctan2 (- m01 (M self)) (m11 (M self)) - rotation self)%R.

(** The [translation] property. *)
Definition translation (self : t) : R * R := (m02 (M self), m12 (M self)).

(** The data-model invariant: the last row of [M] is [0 0 1]. *)
Definition homogeneous (self : t) : Prop :=
  m20 (M self) = 0%R /\ m21 (M self) = 0%R /\ m22 (M self) = 1%R.

End AffineModel.

(** ** TranslationModel, RigidModel, SimilarityModel

    Subclasses of [AffineModel]: they share its attributes and override the
    decoding of the text form. *)

Module TranslationModel.

Definition class_name : string := "mpicbg.trakem2.transform.TranslationModel2D".

(** The assignments that follow the parse. *)
Definition assign_params (tx ty : R) : meth AffineModel.t unit :=
  assign (AffineModel.set_B0 tx);;
  assign (AffineModel.set_B1 ty);;
  assign AffineModel.load_M.

(** [tx, ty = map(float(dataString.split(' ')))]: [float] is applied to
    the list, its result is passed to [map], and the result of [map] is
    unpacked into two names. *)
Definition _process_dataString (dataString : json) : meth AffineModel.t unit :=
  match dataString with
  | JStr ds =>
      v ← lift (py_float (PList (PStr <$> split_on " " ds)));
      l ← lift (py_map1 (PFloat v));
      match l with
      | [tx; ty] => assign_params tx ty
      | _ => lift (Raise ValueError)
      end
  | _ => lift (Raise AttributeError)
  end.

(** [TranslationModel(json=d)] *)
Definition init_json (d : gmap string json) : result AffineModel.t :=
  match AffineModel.from_dict _process_dataString d AffineModel.blank with
  | (Ok _, self) => Ok self
  | (Raise e, _) => Raise e
  end.

(** The static method [fit].  The two means have one entry per column;
    their difference broadcasts a single entry against the entries of the
    other operand, and so does the assignment to the two entries
    [T[:2, 2]]; shapes that do not broadcast raise [ValueError]. *)
Definition fit (src dst : ndarray) : result mat3 :=
  let cs := shape1 src in
  let cd := shape1 dst in
  if negb ((cd =? cs) || (cd =? 1) || (cs =? 1))%nat then Raise ValueError
  else
    let n := if (cd =? 1)%nat then cs else cd in
    let t := fun j => (col_mean dst (if (cd =? 1)%nat then 0 else j) -
                       col_mean src (if (cs =? 1)%nat then 0 else j))%R in
    if (n =? 2)%nat then
      Ok (mk_mat3 1 0 (t 0%nat)
                  0 1 (t 1%nat)
                  0 0 1)
    else if (n =? 1)%nat then
      Ok (mk_mat3 1 0 (t 0%nat)
                  0 1 (t 0%nat)
                  0 0 1)
    else Raise ValueError.

(** [estimate]: only [M] is assigned. *)
Definition estimate (src dst : ndarray) (return_params : bool)
  : meth AffineModel.t (option mat3) :=
  T ← lift (fit src dst);
  assign (AffineModel.set_M T);;
  if return_params then m ← read AffineModel.M; mret (Some m) else mret None.

End TranslationModel.

Module RigidModel.

Definition class_name : string := "mpicbg.trakem2.transform.RigidModel2D".

(** The assignments that follow the parse. *)
Definition assign_params (theta tx ty : R) : meth AffineModel.t unit :=
  assign (AffineModel.set_M00 (cos theta));;
  assign (AffineModel.set_M01 (- sin theta));;
  assign (AffineModel.set_M10 (sin theta));;
  assign (AffineModel.set_M11 (sin theta));;
  assign (AffineModel.set_B0 tx);;
  assign (AffineModel.set_B1 ty);;
  assign AffineModel.load_M.

(** [theta, tx, ty = map(float(dataString.split(' ')))] *)
Definition _process_dataString (dataString : json) : meth AffineModel.t unit :=
  match dataString with
  | JStr ds =>
      v ← lift (py_float (PList (PStr <$> split_on " " ds)));
      l ← lift (py_map1 (PFloat v));
      match l with
      | [theta; tx; ty] => assign_params theta tx ty
      | _ => lift (Raise ValueError)
      end
  | _ => lift (Raise AttributeError)
  end.

(** [RigidModel(json=d)] *)
Definition init_json (d : gmap string json) : result AffineModel.t :=
  match AffineModel.from_dict _process_dataString d AffineModel.blank with
  | (Ok _, self) => Ok self
  | (Raise e, _) => Raise e
  end.

End RigidModel.

Module SimilarityModel.

Definition class_name : string := "mpicbg.trakem2.transform.SimilarityModel2D".

(** The assignments that follow the parse. *)
Definition assign_params (s theta tx ty : R) : meth AffineModel.t unit :=
  assign (AffineModel.set_M00 (s * cos theta));;
  assign (AffineModel.set_M01 (- s * sin theta));;
  assign (AffineModel.set_M10 (s * sin theta));;
  assign (AffineModel.set_M11 (s * sin theta));;
  assign (AffineModel.set_B0 tx);;
  assign (AffineModel.set_B1 ty);;
  assign AffineModel.load_M.

(** [s, theta, tx, ty = map(float(dataString.split(' ')))] *)
Definition _process_dataString (dataString : json) : meth AffineModel.t unit :=
  match dataString with
  | JStr ds =>
      v ← lift (py_float (PList (PStr <$> split_on " " ds)));
      l ← lift (py_map1 (PFloat v));
      match l with
      | [s; theta; tx; ty] => assign_params s theta tx ty
      | _ => lift (Raise ValueError)
      end
  | _ => lift (Raise AttributeError)
  end.

(** [SimilarityModel(json=d)] *)
Definition init_json (d : gmap string json) : result AffineModel.t :=
  match AffineModel.from_dict _process_dataString d AffineModel.blank with
  | (Ok _, self) => Ok self
  | (Raise e, _) => Raise e
  end.

End SimilarityModel.

(** ** Polynomial2DTransform *)

Module Polynomial2DTransform.

Definition class_name : string := "mpicbg.trakem2.transform.PolynomialTransform2D".

Record t : Type := mk {
  params : ndarray;
  className : json;
  transformId : json
}.

Definition set_params (v : ndarray) (self : t) : t :=
  mk v (className self) (transformId self).
Definition set_className (v : json) (self : t) : t :=
  mk (params self) v (transformId self).
Definition set_transformId (v : json) (self : t) : t :=
  mk (params self) (className self) v.

(** The attributes of an instance before [__init__] has assigned any. *)
Definition blank : t := mk (zeros 0 0) JNull JNull.

(** [len(a.ravel())] *)
Definition ravel_len (a : ndarray) : nat := shape0 a * shape1 a.

(** [int((abs(np.sqrt(4 * no_coeffs + 1)) - 3) / 2)] *)
Definition order_of_len (no_coeffs : nat) : Z :=
  py_int ((Rabs (sqrt (4 * INR no_coeffs + 1)) - 3) / 2).

(** [int((-3 + np.sqrt(9 - 4 * (2 - n))) / 2)], the order as [tform]
    computes it. *)
Definition tform_order (n : nat) : Z :=
  py_int ((-3 + sqrt (9 - 4 * (2 - INR n))) / 2).

(** The [order] property. *)
Definition order (self : t) : Z := order_of_len (ravel_len (params self)).

(** [coefficients(order)] with an explicit order. *)
Definition coefficients (order : Z) : Z := ((order + 1) * (order + 2))%Z.

(** One step of the double loop of [tform]. *)
Definition tform_step (prm points : ndarray) (j : nat)
           (st : ndarray * nat) (i : nat) : result (ndarray * nat) :=
  let '(dst, pidx) := st in
  let term := fun r => (item points r 0 ^ (j - i) * item points r 1 ^ i)%R in
  c0 ← getitem prm 0 pidx;
  let dst := add_col dst 0 (fun r => c0 * term r)%R in
  c1 ← getitem prm 1 pidx;
  let dst := add_col dst 1 (fun r => c1 * term r)%R in
  Ok (dst, S pidx).

(** The double loop of [tform] over the degrees [0 .. n-1]. *)
Definition tform_loop (prm points : ndarray) (n : nat) (st : ndarray * nat)
  : result (ndarray * nat) :=
  for_each
    (fun st j => for_each (tform_step prm points j) (seq 0 (j + 1)) st)
    (seq 0 n) st.

Definition tform (self : t) (points : ndarray) : result ndarray :=
  let dst := zeros (shape0 points) (shape1 points) in
  if (shape1 points <? 2)%nat then Raise IndexError
  else
    let o := tform_order (ravel_len (params self)) in
    let pidx := 0%nat in
    '(dst, _) ← tform_loop (params self) points (Z.to_nat (o + 1)) (dst, pidx);
    Ok dst.

(** [Polynomial2DTransform(params=params)] *)
Definition init_params (params : ndarray) : t :=
  mk params (JStr class_name) JNull.

(** [Polynomial2DTransform(identity=True)] *)
Definition init_identity : t :=
  mk (mk_ndarray 2 3 (fun i j => nth j (nth i [[0; 1; 0]; [0; 0; 1]]%R []) 0%R))
     (JStr class_name) JNull.

(** The matrix [fit] hands to [svd]: one column per monomial in each
    half, and the destination coordinates in the last column. *)
Definition fit_matrix (src dst : ndarray) (order : nat) : ndarray :=
  let rows := shape0 src in
  let no_coeff := ((order + 1) * (order + 2))%nat in
  let A := zeros (rows * 2) (no_coeff + 1) in
  let pidx := 0%nat in
  let '(A, _) :=
    fold_left
      (fun st j =>
         fold_left
           (fun '(A, pidx) i =>
              let term := fun r => (item src r 0 ^ (j - i) * item src r 1 ^ i)%R in
              let A := set_col A 0 rows pidx term in
              let A := set_col A rows (rows * 2) (pidx + no_coeff / 2) term in
              (A, S pidx))
           (seq 0 (j + 1)) st)
      (seq 0 (order + 1)) (A, pidx) in
  let A := set_col A 0 rows no_coeff (fun r => item dst r 0) in
  let A := set_col A rows (rows * 2) no_coeff (fun r => item dst r 1) in
  A.

(** The static method [fit], as the [k]-th call of the solver.  [svd]
    may fail; the last line divides the singular vector by its last entry
    and reshapes the other [no_coeff] entries to two rows.  When that last
    entry is zero numpy's quotients are infinities and NaNs, which [fitgood]
    never accepts; the reals have no such values (the quotient is [0]
    there): the definition follows the code wherever that entry is not
    zero. *)
Definition fit (np : linalg) (k : nat) (src dst : ndarray) (order : nat)
  : result ndarray :=
  if ((shape1 src <? 2) || (shape1 dst <? 2))%nat then Raise IndexError
  else
    let no_coeff := ((order + 1) * (order + 2))%nat in
    if negb (shape0 src =? shape0 dst)%nat then Raise EstimationError
    else if (shape0 src <? no_coeff)%nat then Raise EstimationError
    else
      match svd_vsm np k (fit_matrix src dst order) with
      | inl SvdLinAlgError => Raise LinAlgError
      | inl SvdValueError => Raise ValueError
      | inr Vsm =>
          Ok (mk_ndarray 2 (no_coeff / 2)
                (fun i j => (- Vsm (i * (no_coeff / 2) + j)%nat / Vsm no_coeff)%R))
      end.

(** The local function [fitgood] of [estimate]. *)
Definition fitgood (src dst prm : ndarray) (atol rtol : R) : result bool :=
  res ← tform (init_params prm) src;
  allclose res dst atol rtol.

(** The local variables of [estimate] that the loop updates; [params] is
    unbound until a call of [fit] has returned. *)
Record loop_state : Type := mk_loop {
  tries : Z;
  estimated : bool;
  fitted : option ndarray
}.

(** The condition of the [while] loop. *)
Definition loop_cond (max_tries : Z) (st : loop_state) : bool :=
  (tries st <? max_tries)%Z && negb (estimated st).

(** The body of the [while] loop: [LinAlgError] and [ValueError] raised
    by [fit] are caught and the loop goes on. *)
Definition loop_body (np : linalg) (src dst : ndarray) (order : nat)
           (test_coords : bool) (atol rtol : R) (st : loop_state)
  : result loop_state :=
  let tries := (tries st + 1)%Z in
  match fit np (Z.to_nat tries) src dst order with
  | Raise LinAlgError | Raise ValueError =>
      Ok (mk_loop tries (estimated st) (fitted st))
  | Raise e => Raise e
  | Ok prm =>
      est ← (if test_coords then fitgood src dst prm atol rtol else Ok true);
      Ok (mk_loop tries est (Some prm))
  end.

(** The [while] loop.  [fuel] bounds the number of iterations; with
    [max_tries] iterations of fuel the loop ends because its condition is
    false (lemma [estimate_loop_exit]). *)
Fixpoint estimate_loop (np : linalg) (src dst : ndarray) (order : nat)
         (test_coords : bool) (max_tries : Z) (atol rtol : R)
         (fuel : nat) (st : loop_state) : result loop_state :=
  if loop_cond max_tries st then
    match fuel with
    | O => Ok st
    | S fuel' =>
        st' ← loop_body np src dst order test_coords atol rtol st;
        estimate_loop np src dst order test_coords max_tries atol rtol fuel' st'
    end
  else Ok st.

(** [estimate(src, dst, order, test_coords, max_tries, return_params,
    atol=atol, rtol=rtol)]; the defaults are [order=2], [test_coords=True],
    [max_tries=100], [return_params=True], [atol=1e-3], [rtol=0]. *)
Definition estimate (np : linalg) (src dst : ndarray) (order : nat)
           (test_coords : bool) (max_tries : Z) (return_params : bool)
           (atol rtol : R) : meth t (option ndarray) :=
  let st := mk_loop 0 false None in
  st ← lift (estimate_loop np src dst order test_coords max_tries atol rtol
               (Z.to_nat max_tries) st);
  (if (tries st =? max_tries)%Z && negb (estimated st)
   then lift (Raise EstimationError) else mret tt);;
  prm ← lift (match fitted st with
              | Some prm => Ok prm
              | None => Raise UnboundLocalError
              end);
  assign (set_params prm);;
  if return_params then p ← read params; mret (Some p) else mret None.

Definition default_atol : R := 1 / 1000.
Definition default_rtol : R := 0.
Definition default_max_tries : Z := 100.

(** [Polynomial2DTransform(src=src, dst=dst, order=order)] *)
Definition init_estimate (np : linalg) (src dst : ndarray) (order : nat)
  : result t :=
  let self := set_className (JStr class_name) blank in
  match estimate np src dst order true default_max_tries false
                 default_atol default_rtol self with
  | (Ok _, self) => Ok (set_transformId JNull self)
  | (Raise e, _) => Raise e
  end.

(** [_format_raveled_params]: the two halves of the list as the two rows.
    The numbers are parsed first, so a field [float] rejects ends the call
    before [np.array] is reached.  Halves of different lengths (an odd
    number of fields) do not make a two-dimensional array of numbers:
    numpy from 1.24 on raises [ValueError], as here; older versions build
    a one-dimensional array of the two lists, which [ndarray] cannot hold.
    Nothing is stated of that case. *)
Definition _format_raveled_params (raveled_params : list string) : result ndarray :=
  let h := (length raveled_params / 2)%nat in
  r0 ← for_each (fun acc d => v ← float_of_string d; Ok (acc ++ [v]))
                (firstn h raveled_params) [];
  r1 ← for_each (fun acc d => v ← float_of_string d; Ok (acc ++ [v]))
                (skipn h raveled_params) [];
  if (length r0 =? length r1)%nat then
    Ok (mk_ndarray 2 (length r0) (fun i j => nth j (nth i [r0; r1] []) 0%R))
  else Raise ValueError.

Definition _process_dataString (datastring : json) : meth t unit :=
  match datastring with
  | JStr ds =>
      let dsList := split_on " " ds in
      prm ← lift (_format_raveled_params dsList);
      assign (set_params prm)
  | _ => lift (Raise AttributeError)
  end.

(** [Transform.from_dict], inherited. *)
Definition from_dict (d : gmap string json) : meth t unit :=
  cn ← lift (dict_item d "className");
  assign (set_className cn);;
  assign (set_transformId (dict_get d "transformId" JNull));;
  ds ← lift (dict_item d "dataString");
  _process_dataString ds.

(** [Polynomial2DTransform(json=d)] *)
Definition init_json (d : gmap string json) : result t :=
  match from_dict d blank with
  | (Ok _, self) => Ok self
  | (Raise e, _) => Raise e
  end.

(** [coefficients()] without an order: the order of the polynomial. *)
Definition coefficients_self (self : t) : Z := coefficients (order self).

(** [_dataStringfromParams(params)].  [str_float] is [str] of a numpy
    float, whose digits depend on the versions of Python and numpy. *)
Definition _dataStringfromParams (str_float : R -> string) (params : ndarray)
  : string :=
  replace "e" "E"
    (join " " ((fun i => replace "e+0" "e+" (replace "e-0" "e-" (str_float i)))
                 <$> flatten_array params)).

(** The [dataString] property. *)
Definition dataString (str_float : R -> string) (self : t) : string :=
  _dataStringfromParams str_float (params self).

(** [Transform.to_dict], inherited. *)
Definition to_dict (str_float : R -> string) (self : t) : gmap string json :=
  let d : gmap string json := ∅ in
  let d := <["type" := JStr "leaf"]> d in
  let d := <["className" := className self]> d in
  let d := <["dataString" := JStr (dataString str_float self)]> d in
  match transformId self with
  | JNull => d
  | tid => <["transformId" := tid]> d
  end.

(** [asorder(order)].  The slice assignment copies [params] into the
    top-left corner of the zero array when it fits there (a single column
    also broadcasts into an empty slice) and raises [ValueError]
    otherwise. *)
Definition asorder (self : t) (order : Z) : result t :=
  if (order <? Polynomial2DTransform.order self)%Z then Raise ConversionError
  else
    let K := Z.to_nat (coefficients order / 2) in
    let new_params := zeros 2 K in
    let s0 := shape0 (params self) in
    let s1 := shape1 (params self) in
    if ((s0 <=? 2) && ((s1 <=? K) || (s1 =? 1)))%nat then
      let new_params :=
        mk_ndarray 2 K
          (fun i j => if ((i <? s0) && (j <? s1))%nat
                      then item (params self) i j else item new_params i j) in
      Ok (init_params new_params)
    else Raise ValueError.

End Polynomial2DTransform.

(** ** Transform objects and the decoders *)

(** The instances the module builds, tagged with their class. *)
Inductive pyobj : Type :=
| OTransform (t : Transform.t)
| OAffineModel (a : AffineModel.t)
| OTranslationModel (a : AffineModel.t)
| ORigidModel (a : AffineModel.t)
| OSimilarityModel (a : AffineModel.t)
| OPolynomial2DTransform (p : Polynomial2DTransform.t)
| OTransformList (tforms : list pyobj) (transformId : json)
| OReferenceTransform (refId : json)
| OInterpolatedTransform (a b : pyobj) (lambda_ : json).

(** [Polynomial2DTransform.fromAffine(aff)]: the instances of
    [AffineModel] are those of the class and of its subclasses; the
    parameters are the constant, the [x] and the [y] coefficient of each
    row of [aff.M]. *)
Definition fromAffine (aff : pyobj) : result Polynomial2DTransform.t :=
  match aff with
  | OAffineModel a | OTranslationModel a | ORigidModel a | OSimilarityModel a =>
      let M := AffineModel.M a in
      Ok (Polynomial2DTransform.init_params
            (mk_ndarray 2 3
               (fun i j => nth j (nth i [[m02 M; m00 M; m01 M];
                                         [m12 M; m10 M; m11 M]] []) 0%R)))
  | _ => Raise ConversionError
  end.

Definition json_is_str (v : json) (s : string) : bool :=
  match v with
  | JStr s' => String.eqb s' s
  | _ => false
  end.

(** A raised [KeyError] becomes the given result; everything else passes. *)
Definition except_KeyError {A : Type} (r : result A) (handler : result A) : result A :=
  match r with
  | Raise KeyError => handler
  | _ => r
  end.

(** [load_leaf_json].  The table lookup needs a hashable class name; a
    [KeyError] of the lookup or of the constructor it selects leads to the
    generic [Transform]. *)
Definition load_leaf_json (d : gmap string json) : result pyobj :=
  let tform_type := dict_get d "type" (JStr "leaf") in
  if negb (json_is_str tform_type "leaf") then Raise RenderError
  else
    tform_class ← dict_item d "className";
    if negb (hashable tform_class) then Raise TypeError
    else
      let attempt : result pyobj :=
        if json_is_str tform_class AffineModel.class_name then
          OAffineModel <$> AffineModel.init_json d
        else if json_is_str tform_class Polynomial2DTransform.class_name then
          OPolynomial2DTransform <$> Polynomial2DTransform.init_json d
        else if json_is_str tform_class TranslationModel.class_name then
          OTranslationModel <$> TranslationModel.init_json d
        else if json_is_str tform_class RigidModel.class_name then
          ORigidModel <$> RigidModel.init_json d
        else if json_is_str tform_class SimilarityModel.class_name then
          OSimilarityModel <$> SimilarityModel.init_json d
        else Raise KeyError in
      except_KeyError attempt (OTransform <$> Transform.init_json d).

(** [ReferenceTransform(json=d)] *)
Definition ReferenceTransform_init_json (d : gmap string json) : result pyobj :=
  refId ← dict_item d "refId";
  Ok (OReferenceTransform refId).

(** The value of a member that is decoded next: only a dictionary has
    [get]. *)
Definition as_dict (v : json) : result (gmap string json) :=
  match v with
  | JObj m => Ok m
  | _ => Raise AttributeError
  end.

(** The items a [for] loop over a JSON value visits: the members of a
    list; a string or a dictionary yields strings, which the decoder
    rejects at their first use; other values are not iterable. *)
Definition iter_items (v : json) : result (list json) :=
  match v with
  | JArr l => Ok l
  | JStr s => Ok ((fun c => JStr (String c EmptyString)) <$> list_ascii_of_string s)
  | JObj m => Ok ((fun kv => JStr kv.1) <$> map_to_list m)
  | _ => Raise TypeError
  end.

(** [load_transform_json(d, default_type)].  [depth] is the number of
    nested calls the interpreter still allows; Python raises a
    [RuntimeError] when it is used up, which is [RecursionError] here.  Any
    [KeyError] raised inside the selected handler is turned into
    [RenderError], like the one of the table lookup. *)
Fixpoint load_transform_json (depth : nat) (d : gmap string json)
         (default_type : string) : result pyobj :=
  match depth with
  | O => Raise RecursionError
  | S depth' =>
      let ty := dict_get d "type" (JStr default_type) in
      if negb (hashable ty) then Raise TypeError
      else
        let handled : result pyobj :=
          if json_is_str ty "leaf" then load_leaf_json d
          else if json_is_str ty "list" then
            (* TransformList(json=d): from_dict *)
            let transformId := dict_get d "id" JNull in
            specList ← dict_item d "specList";
            tds ← iter_items specList;
            tforms ← for_each
                       (fun acc td =>
                          td ← as_dict td;
                          o ← load_transform_json depth' td "leaf";
                          Ok (acc ++ [o]))
                       tds [];
            Ok (OTransformList tforms transformId)
          else if json_is_str ty "ref" then ReferenceTransform_init_json d
          else if json_is_str ty "interpolated" then
            (* InterpolatedTransform(json=d): from_dict *)
            da ← dict_item d "a";
            da ← as_dict da;
            a ← load_transform_json depth' da "leaf";
            db ← dict_item d "b";
            db ← as_dict db;
            b ← load_transform_json depth' db "leaf";
            lambda_ ← dict_item d "lambda";
            Ok (OInterpolatedTransform a b lambda_)
          else Raise KeyError in
        except_KeyError handled (Raise RenderError)
  end.

(** [o.to_dict()] on an object of any class.  A [TransformList] encodes
    its members in order; an [InterpolatedTransform] builds the dictionary
    from the pairs its iteration yields. *)
Fixpoint obj_to_dict (str_float : R -> string) (o : pyobj) : gmap string json :=
  match o with
  | OTransform t => Transform.to_dict t
  | OAffineModel a | OTranslationModel a | ORigidModel a | OSimilarityModel a =>
      AffineModel.to_dict a
  | OPolynomial2DTransform p => Polynomial2DTransform.to_dict str_float p
  | OTransformList tforms transformId =>
      let d : gmap string json := ∅ in
      let d := <["type" := JStr "list"]> d in
      let d := <["specList" :=
                   JArr ((fun tform => JObj (obj_to_dict str_float tform))
                           <$> tforms)]> d in
      match transformId with
      | JNull => d
      | tid => <["id" := tid]> d
      end
  | OReferenceTransform refId =>
      let d : gmap string json := ∅ in
      let d := <["type" := JStr "ref"]> d in
      <["refId" := refId]> d
  | OInterpolatedTransform a b lambda_ =>
      let d : gmap string json := ∅ in
      let d := <["type" := JStr "interpolated"]> d in
      let d := <["a" := JObj (obj_to_dict str_float a)]> d in
      let d := <["b" := JObj (obj_to_dict str_float b)]> d in
      <["lambda" := lambda_]> d
  end.

(** ** Evaluation and collapse of transform chains *)

(** A chain: a Python list whose members are transform objects or lists. *)
Inductive tnode : Type :=
| Leaf (o : pyobj)
| Nested (l : list tnode).

(** [tform.tform(points)] on an object of any class; only the affine
    family and the polynomial have the method. *)
Definition obj_tform (o : pyobj) (points : ndarray) : result ndarray :=
  match o with
  | OAffineModel a | OTranslationModel a | ORigidModel a | OSimilarityModel a =>
      AffineModel.tform a points
  | OPolynomial2DTransform p => Polynomial2DTransform.tform p points
  | _ => Raise AttributeError
  end.

(** [tform.className]; a [TransformList], a reference and an interpolated
    transform have no such attribute (the last two are iterable, and what
    their iteration yields has none either). *)
Definition obj_className (o : pyobj) : result json :=
  match o with
  | OTransform t => Ok (Transform.className t)
  | OAffineModel a | OTranslationModel a | ORigidModel a | OSimilarityModel a =>
      Ok (AffineModel.className a)
  | OPolynomial2DTransform p => Ok (Polynomial2DTransform.className p)
  | _ => Raise AttributeError
  end.

(** The loop of [estimate_dstpts] for one member. *)
Fixpoint estimate_dstpts_node (n : tnode) (dstpts : ndarray) : result ndarray :=
  match n with
  | Leaf o => obj_tform o dstpts
  | Nested l =>
      (fix go (l : list tnode) (dstpts : ndarray) : result ndarray :=
         match l with
         | [] => Ok dstpts
         | n :: l' => d ← estimate_dstpts_node n dstpts; go l' d
         end) l dstpts
  end.

Definition estimate_dstpts (transformlist : list tnode) (src : ndarray)
  : result ndarray :=
  estimate_dstpts_node (Nested transformlist) src.

(** The local generator [flatten] of [estimate_transformsum]. *)
Fixpoint flatten_node (n : tnode) : list pyobj :=
  match n with
  | Leaf o => [o]
  | Nested l =>
      (fix go (l : list tnode) : list pyobj :=
         match l with
         | [] => []
         | n :: l' => flatten_node n ++ go l'
         end) l
  end.

Definition flatten (l : list tnode) : list pyobj := flatten_node (Nested l).

(** [estimate_transformsum(transformlist, src, order)] *)
Definition estimate_transformsum (np : linalg) (transformlist : list tnode)
           (src : ndarray) (order : nat) : result pyobj :=
  dstpts ← estimate_dstpts transformlist src;
  let tforms := flatten transformlist in
  names ← for_each (fun acc tform => c ← obj_className tform; Ok (acc ++ [c]))
                   tforms [];
  if forallb (fun c => json_is_str c AffineModel.class_name) names then
    let am := AffineModel.default in
    match AffineModel.estimate np src dstpts false am with
    | (Ok _, am) => Ok (OAffineModel am)
    | (Raise e, _) => Raise e
    end
  else
    OPolynomial2DTransform <$> Polynomial2DTransform.init_estimate np src dstpts order.

(** ** Notions used in the statements *)

(** The objects of the three constrained classes. *)
Definition constrained (o : pyobj) : Prop :=
  match o with
  | OTranslationModel _ | ORigidModel _ | OSimilarityModel _ => True
  | _ => False
  end.

(** The class names in the table of [load_leaf_json]. *)
Definition registered (cn : json) : bool :=
  json_is_str cn AffineModel.class_name ||
  json_is_str cn Polynomial2DTransform.class_name ||
  json_is_str cn TranslationModel.class_name ||
  json_is_str cn RigidModel.class_name ||
  json_is_str cn SimilarityModel.class_name.

(** The type discriminators in the table of [load_transform_json]. *)
Definition known_type (ty : json) : bool :=
  json_is_str ty "leaf" || json_is_str ty "list" ||
  json_is_str ty "ref" || json_is_str ty "interpolated".

(** The nesting depth of an object: the number of calls of
    [load_transform_json] inside one another that decoding it takes, less
    one. *)
Fixpoint height (o : pyobj) : nat :=
  match o with
  | OTransformList tforms _ =>
      S (fold_right (fun tform n => Nat.max (height tform) n) 0%nat tforms)
  | OInterpolatedTransform a b _ => S (Nat.max (height a) (height b))
  | _ => 0%nat
  end.

(** The objects built from generic leaves, references, lists and
    interpolations: a generic leaf carries a class name that can be looked
    up and is none of the five registered ones. *)
Fixpoint generic_tree (o : pyobj) : Prop :=
  match o with
  | OTransform t =>
      hashable (Transform.className t) = true /\
      registered (Transform.className t) = false
  | OReferenceTransform _ => True
  | OTransformList tforms _ =>
      fold_right (fun tform P => generic_tree tform /\ P) True tforms
  | OInterpolatedTransform a b _ => generic_tree a /\ generic_tree b
  | _ => False
  end.

(** The keys of a leaf dictionary of the interchange format. *)
Definition leaf_keys : list string :=
  ["type"; "className"; "dataString"; "transformId"].

(** The linear block of [m] is the rotation by [theta] scaled by [s]. *)
Definition scaled_rotation (s theta : R) (m : mat3) : Prop :=
  m00 m = (s * cos theta)%R /\ m01 m = (- (s * sin theta))%R /\
  m10 m = (s * sin theta)%R /\ m11 m = (s * cos theta)%R.

(** Triangular numbers: a polynomial of order [o] has [tri (o + 1)]
    coefficients per axis. *)
Fixpoint tri (n : nat) : nat :=
  match n with
  | O => O
  | S n' => tri n' + S n'
  end.

(** The data-model invariant of the polynomial: [params] is a
    [2 x (o+1)(o+2)/2] array. *)
Definition well_formed (p : Polynomial2DTransform.t) (o : nat) : Prop :=
  shape0 (Polynomial2DTransform.params p) = 2%nat /\
  shape1 (Polynomial2DTransform.params p) = tri (o + 1).

(** Two arrays of the same shape whose entries are equal. *)
Definition same_items (a b : ndarray) : Prop :=
  shape0 a = shape0 b /\ shape1 a = shape1 b /\
  forall i j, item a i j = item b i j.

(** Two calls behave alike: both return, with equal arrays, or both raise
    the same exception. *)
Definition agree (r1 r2 : result ndarray) : Prop :=
  match r1, r2 with
  | Ok a, Ok b => same_items a b
  | Raise e1, Raise e2 => e1 = e2
  | _, _ => False
  end.

(** The [k]-th call of [fit] gives parameters that [estimate] accepts:
    it returns them and, when the coordinates are tested, they map [src] to
    [dst] within the tolerances. *)
Definition acceptable (np : linalg) (src dst : ndarray) (order : nat)
           (test_coords : bool) (atol rtol : R) (k : nat) (prm : ndarray) : Prop :=
  Polynomial2DTransform.fit np k src dst order = Ok prm /\
  (test_coords = true ->
   Polynomial2DTransform.fitgood src dst prm atol rtol = Ok true).

(** Every character of [s] satisfies [p]. *)
Fixpoint all_chars (p : ascii -> bool) (s : string) : bool :=
  match s with
  | EmptyString => true
  | String c s' => p c && all_chars p s'
  end.

Definition is_digit (c : ascii) : bool :=
  match digit_of c with Some _ => true | None => false end.

Definition not_space (c : ascii) : bool := negb (is_space c).

(** [x] rounded at the tenth fractional digit. *)
Definition round10 (x : R) : R := (IZR (round_half_even (x * 10 ^ 10)) / 10 ^ 10)%R.

(** A decimal number with exactly ten fractional digits. *)
Definition fixed10 (s : string) : Prop :=
  exists sign ip fp,
    s = sign +:+ ip +:+ "." +:+ fp /\
    (sign = "" \/ sign = "-") /\
    ip <> "" /\ all_chars is_digit ip = true /\
    all_chars is_digit fp = true /\ String.length fp = 10%nat.

(** The sum of [f 0], ..., [f (n-1)]. *)
Fixpoint big_sum (n : nat) (f : nat -> R) : R :=
  match n with
  | O => 0%R
  | S n' => (big_sum n' f + f n')%R
  end.

(** The polynomial of order [o] with the coefficients [c] at [(x, y)]:
    the terms are ordered by their degree [j] and, within a degree, by the
    power [i] of [y]. *)
Definition poly_eval (c : nat -> R) (o : nat) (x y : R) : R :=
  big_sum (o + 1)
    (fun j => big_sum (j + 1)
                (fun i => c (tri j + i)%nat * (x ^ (j - i) * y ^ i)))%R.

(** The sum of the squared residuals of the system [M theta = Y]. *)
Definition residual (M Y : ndarray) (theta : nat -> R) : R :=
  big_sum (shape0 M)
    (fun r => (big_sum (shape1 M) (fun c => item M r c * theta c)
               - item Y r 0) ^ 2)%R.

(** [T] is a column vector that minimises the residual of [M theta = Y]:
    what [np.linalg.lstsq] computes. *)
Definition least_squares (M Y T : ndarray) : Prop :=
  shape0 T = shape1 M /\ shape1 T = 1%nat /\
  forall theta, (residual M Y (fun c => item T c 0) <= residual M Y theta)%R.

(** The summed squared distance between the rows of [B] and the images of
    the rows of [A] under the affine map with the parameter vector
    [theta = (m00, m01, m10, m11, b0, b1)]. *)
Definition point_error (A B : ndarray) (theta : nat -> R) : R :=
  big_sum (shape0 A)
    (fun i =>
       (theta 0%nat * item A i 0 + theta 1%nat * item A i 1 + theta 4%nat
        - item B i 0) ^ 2 +
       (theta 2%nat * item A i 0 + theta 3%nat * item A i 1 + theta 5%nat
        - item B i 1) ^ 2)%R.

(** Among the points of [src] there are three that are not on one line. *)
Definition non_degenerate (src : ndarray) : Prop :=
  exists i j k,
    (i < shape0 src)%nat /\ (j < shape0 src)%nat /\ (k < shape0 src)%nat /\
    (item src i 0 * (item src j 1 - item src k 1) +
     item src j 0 * (item src k 1 - item src i 1) +
     item src k 0 * (item src i 1 - item src j 1) <> 0)%R.

(** [dst] holds the images of the rows of [src] under the affine map
    [m]. *)
Definition maps_by (m : mat3) (src dst : ndarray) : Prop :=
  shape0 dst = shape0 src /\ shape1 dst = 2%nat /\
  forall i,
    item dst i 0 = (m00 m * item src i 0 + m01 m * item src i 1 + m02 m)%R /\
    item dst i 1 = (m10 m * item src i 0 + m11 m * item src i 1 + m12 m)%R.

(** A member of the affine family that carries the class name of
    [AffineModel] and keeps the invariant of its matrix. *)
Definition affine_member (o : pyobj) : Prop :=
  match o with
  | OAffineModel a | OTranslationModel a | ORigidModel a | OSimilarityModel a =>
      AffineModel.className a = JStr AffineModel.class_name /\
      AffineModel.homogeneous a
  | _ => False
  end.

(** The attributes of a member of the affine family. *)
Definition member_model (o : pyobj) : AffineModel.t :=
  match o with
  | OAffineModel a | OTranslationModel a | ORigidModel a | OSimilarityModel a => a
  | _ => AffineModel.default
  end.

(** Sequential [concatenate] calls over a flat chain, first member first:
    [t_n.concatenate(... t_2.concatenate(t_1.concatenate(AffineModel())))]. *)
Definition concatenate_chain (l : list pyobj) : AffineModel.t :=
  fold_left (fun acc o => AffineModel.concatenate (member_model o) acc)
            l AffineModel.default.

(** The class names the collapse collects from the flattened chain. *)
Definition chain_classNames (l : list tnode) : result (list json) :=
  for_each (fun acc tform => c ← obj_className tform; Ok (acc ++ [c]))
           (flatten l) [].

(** The first [k] point pairs fill their rows of the system of the affine
    fit: [x y 0 0 1 0] and [0 0 x y 0 1] against the two coordinates of the
    destination point. *)
Definition system_rows (A B M Y : ndarray) (k : nat) : Prop :=
  forall i, (i < k)%nat ->
    (forall c, item M (2 * i) c
               = nth c [item A i 0; item A i 1; 0; 0; 1; 0]%R 0%R) /\
    (forall c, item M (2 * i + 1) c
               = nth c [0; 0; item A i 0; item A i 1; 0; 1]%R 0%R) /\
    item Y (2 * i) 0 = item B i 0 /\
    item Y (2 * i + 1) 0 = item B i 1.

(** The parameter vector of an affine map, in the order of the columns
    of the system. *)
Definition params_of (m : mat3) (c : nat) : R :=
  nth c [m00 m; m01 m; m10 m; m11 m; m02 m; m12 m] 0%R.

(** No character of [s] is a space. *)
Definition no_space (s : string) : bool :=
  all_chars (fun c => negb (Ascii.eqb c " ")) s.

(** A number as it stands in the text form of a polynomial: [str] of the
    number with the exponent marker normalised. *)
Definition printed (str_float : R -> string) (x : R) : string :=
  replace "e" "E" (replace "e+0" "e+" (replace "e-0" "e-" (str_float x))).

(** The columns the loops of [Polynomial2DTransform.fit] have filled when
    the column counter is [p]: the monomial of each pair [(j, i)] counted
    so far stands in its column of the upper rows and, shifted by half the
    number of coefficients, in its column of the lower rows; the lower
    rows of the left half and the upper rows from the middle on hold
    zeros. *)
Definition fit_columns (src : ndarray) (order p : nat) (A : ndarray) : Prop :=
  let rows := shape0 src in
  let h := tri (order + 1) in
  (forall j i r, (i <= j)%nat -> (tri j + i < p)%nat -> (r < rows)%nat ->
     item A r (tri j + i) = (item src r 0 ^ (j - i) * item src r 1 ^ i)%R /\
     item A (rows + r) (h + (tri j + i))
     = (item src r 0 ^ (j - i) * item src r 1 ^ i)%R) /\
  (forall r c, (r < rows)%nat -> (h <= c)%nat -> item A r c = 0%R) /\
  (forall r c, (rows <= r)%nat -> (c < h)%nat -> item A r c = 0%R).

(** ** Concrete inputs used in examples *)

(** A leaf dictionary of a class this module does not know. *)
Definition unknown_leaf_dict : gmap string json :=
  <["dataString" := JStr "5 21 1 0 0"]>
    (<["className" := JStr "lenscorrection.NonLinearTransform"]>
       (<["type" := JStr "leaf"]> ∅)).

(** A leaf dictionary of a translation. *)
Definition translation_leaf_dict : gmap string json :=
  <["dataString" := JStr "10 20"]>
    (<["className" := JStr TranslationModel.class_name]>
       (<["type" := JStr "leaf"]> ∅)).

(** A dictionary with a type discriminator outside the table. *)
Definition bogus_type_dict : gmap string json :=
  <["type" := JStr "affine"]> ∅.

(** The same leaf without its [type]. *)
Definition untyped_leaf_dict : gmap string json :=
  <["dataString" := JStr "5 21 1 0 0"]>
    (<["className" := JStr "lenscorrection.NonLinearTransform"]> ∅).

(** A solver that answers every system with the zero vector and whose
    singular vectors are constant. *)
Definition constant_linalg : linalg :=
  mk_linalg (fun _ _ => Some (zeros 6 1)) (fun _ _ => inr (fun _ => 1%R)).

(** An N x 2 array given by its rows. *)
Definition points_of (l : list (R * R)) : ndarray :=
  mk_ndarray (length l) 2
    (fun i j => match j with
                | O => (nth i l (0, 0)%R).1
                | _ => (nth i l (0, 0)%R).2
                end).

(** Two point pairs. *)
Definition two_points : ndarray := points_of [(0, 0); (1, 0)]%R.

(** A solver that answers every system with the parameters of the
    identity map. *)
Definition identity_linalg : linalg :=
  mk_linalg
    (fun _ _ => Some (mk_ndarray 6 1 (fun i _ => nth i [1; 0; 0; 1; 0; 0]%R 0%R)))
    (fun _ _ => inr (fun _ => 1%R)).

(** Three points that are not on one line. *)
Definition three_points : ndarray := points_of [(0, 0); (1, 0); (0, 1)]%R.

(** Six points that are not on one conic. *)
Definition six_points : ndarray :=
  points_of [(0, 0); (1, 0); (0, 1); (1, 1); (2, 0); (0, 2)]%R.

(** A chain with one member, the identity polynomial. *)
Definition identity_polynomial_chain : list tnode :=
  [Leaf (OPolynomial2DTransform Polynomial2DTransform.init_identity)].

(** A list with a reference and an interpolation between a generic leaf
    and an empty list. *)
Definition sample_tree : pyobj :=
  OTransformList
    [OReferenceTransform (JStr "lens");
     OInterpolatedTransform
       (OTransform (Transform.mk (JStr "lenscorrection.NonLinearTransform")
                                 (JStr "5 21 1 0 0") JNull))
       (OTransformList [] JNull)
       (JNum (1 / 2))]
    (JStr "montage").

(** A solver whose singular vector is the last unit vector of a system
    with three columns. *)
Definition unit_linalg : linalg :=
  mk_linalg (fun _ _ => None)
            (fun _ _ => inr (fun c => if (c =? 2)%nat then 1%R else 0%R)).

(** A printer that tells zero from the other numbers. *)
Definition sample_str_float (x : R) : string :=
  if Req_dec_T x 0 then "0.0" else "1.0".

(** The parameter vector of the identity map. *)
Definition identity_params : ndarray :=
  mk_ndarray 6 1 (fun i _ => nth i [1; 0; 0; 1; 0; 0]%R 0%R).

(** The translation by [(1, 1)]. *)
Definition unit_shift : AffineModel.t := AffineModel.init 1 0 0 1 1 1 JNull.

(** A quarter turn scaled by two, with a translation. *)
Definition quarter_turn : AffineModel.t := AffineModel.init 0 (-2) 2 0 3 4 JNull.

(** A chain of two affine models, the second in a nested list: the scaling
    by two and the translation by [(1, 1)]. *)
Definition scale_shift_chain : list tnode :=
  [Leaf (OAffineModel (AffineModel.init 2 0 0 2 0 0 JNull));
   Nested [Leaf (OAffineModel (AffineModel.init 1 0 0 1 1 1 JNull))]].

(** A chain of an affine model and, in a nested list, the identity
    polynomial. *)
Definition mixed_chain : list tnode :=
  [Leaf (OAffineModel (AffineModel.init 2 0 0 2 1 1 JNull));
   Nested [Leaf (OPolynomial2DTransform Polynomial2DTransform.init_identity)]].

(** A solver that answers with the parameters of the map
    [(x, y) -> (2 x + 1, 2 y + 1)]: as the solution of a least-squares
    system, and as the singular vector of a polynomial fit of order 1. *)
Definition scale_shift_linalg : linalg :=
  mk_linalg
    (fun _ _ => Some (mk_ndarray 6 1 (fun i _ => nth i [2; 0; 0; 2; 1; 1]%R 0%R)))
    (fun _ _ => inr (fun c => nth c [-1; -2; 0; -1; 0; -2; 1]%R 0%R)).

(* ================================================================== *)
(** * Theorems *)

Lemma load_M_homogeneous (self : AffineModel.t) :
  AffineModel.homogeneous (AffineModel.load_M self).
Proof. repeat split. Qed.

Lemma init_homogeneous (a b c d e f : R) (tid : json) :
  AffineModel.homogeneous (AffineModel.init a b c d e f tid).
Proof. repeat split. Qed.

Lemma concatenate_homogeneous (A B : AffineModel.t) :
  AffineModel.homogeneous (AffineModel.concatenate A B).
Proof. apply init_homogeneous. Qed.

(** C1: for affine models [A], [B] whose matrices have last row [0 0 1] and
    every N x 2 point array [P], [A.concatenate(B).tform(P)] and
    [A.tform(B.tform(P))] both return, and return the same array:
    [concatenate] is "apply [B], then [A]".  [concatenate] only reads its two
    arguments and returns a fresh model. *)
Theorem concatenate_tform (A B : AffineModel.t) (P : ndarray) :
  AffineModel.homogeneous A ->
  AffineModel.homogeneous B ->
  shape1 P = 2%nat ->
  exists Q R1 R2 : ndarray,
    AffineModel.tform B P = Ok Q /\
    AffineModel.tform A Q = Ok R1 /\
    AffineModel.tform (AffineModel.concatenate A B) P = Ok R2 /\
    shape0 R2 = shape0 P /\ shape1 R2 = 2%nat /\
    array_eq R2 R1.
Proof.
  intros HA HB HP.
  destruct A as [? ? ? ? ? ? [a00 a01 a02 a10 a11 a12 a20 a21 a22] ? ?].
  destruct B as [? ? ? ? ? ? [b00 b01 b02 b10 b11 b12 b20 b21 b22] ? ?].
  unfold AffineModel.homogeneous in HA, HB. simpl in HA, HB.
  destruct HA as (-> & -> & ->), HB as (-> & -> & ->).
  unfold AffineModel.tform, AffineModel.convert_to_point_vector.
  rewrite HP. simpl.
  eexists _, _, _. do 3 (split; [reflexivity|]). simpl.
  do 2 (split; [reflexivity|]).
  do 2 (split; [reflexivity|]).
  intros i j _ Hj. simpl in *.
  destruct j as [|[|j]]; [| |lia]; simpl; field.
Qed.

Lemma concatenate_tform_witness :
  exists Q R1 R2 : ndarray,
    AffineModel.tform unit_shift three_points = Ok Q /\
    AffineModel.tform quarter_turn Q = Ok R1 /\
    AffineModel.tform (AffineModel.concatenate quarter_turn unit_shift)
      three_points = Ok R2 /\
    shape0 R2 = shape0 three_points /\ shape1 R2 = 2%nat /\
    array_eq R2 R1.
Proof.
  apply (concatenate_tform quarter_turn unit_shift three_points).
  - repeat split.
  - repeat split.
  - reflexivity.
Defined.

(** ** The decoders of the constrained affine models *)

Lemma translation_process_raises (ds : string) (self : AffineModel.t) :
  TranslationModel._process_dataString (JStr ds) self = (Raise TypeError, self).
Proof. reflexivity. Qed.

Lemma rigid_process_raises (ds : string) (self : AffineModel.t) :
  RigidModel._process_dataString (JStr ds) self = (Raise TypeError, self).
Proof. reflexivity. Qed.

Lemma similarity_process_raises (ds : string) (self : AffineModel.t) :
  SimilarityModel._process_dataString (JStr ds) self = (Raise TypeError, self).
Proof. reflexivity. Qed.

(** Whatever the dictionary, [from_dict] with a decoder that always raises
    does not return. *)
Lemma from_dict_raises (process : json -> meth AffineModel.t unit)
      (d : gmap string json) (self : AffineModel.t) :
  (forall ds s, exists e s', process ds s = (Raise e, s')) ->
  exists e s', AffineModel.from_dict process d self = (Raise e, s').
Proof.
  intros Hp. unfold AffineModel.from_dict, mbind, meth_bind, lift, assign.
  unfold dict_item.
  destruct (d !! "className"); [|eauto].
  destruct (d !! "dataString"); [|eauto].
  apply Hp.
Qed.

Lemma translation_process_never_returns (ds : json) (s : AffineModel.t) :
  exists e s', TranslationModel._process_dataString ds s = (Raise e, s').
Proof. destruct ds; simpl; unfold lift; eauto. Qed.

Lemma rigid_process_never_returns (ds : json) (s : AffineModel.t) :
  exists e s', RigidModel._process_dataString ds s = (Raise e, s').
Proof. destruct ds; simpl; unfold lift; eauto. Qed.

Lemma similarity_process_never_returns (ds : json) (s : AffineModel.t) :
  exists e s', SimilarityModel._process_dataString ds s = (Raise e, s').
Proof. destruct ds; simpl; unfold lift; eauto. Qed.

Lemma translation_init_json_raises (d : gmap string json) :
  exists e, TranslationModel.init_json d = Raise e.
Proof.
  unfold TranslationModel.init_json.
  destruct (from_dict_raises TranslationModel._process_dataString d
              AffineModel.blank translation_process_never_returns) as (e & s & ->).
  eauto.
Qed.

Lemma rigid_init_json_raises (d : gmap string json) :
  exists e, RigidModel.init_json d = Raise e.
Proof.
  unfold RigidModel.init_json.
  destruct (from_dict_raises RigidModel._process_dataString d
              AffineModel.blank rigid_process_never_returns) as (e & s & ->).
  eauto.
Qed.

Lemma similarity_init_json_raises (d : gmap string json) :
  exists e, SimilarityModel.init_json d = Raise e.
Proof.
  unfold SimilarityModel.init_json.
  destruct (from_dict_raises SimilarityModel._process_dataString d
              AffineModel.blank similarity_process_never_returns) as (e & s & ->).
  eauto.
Qed.

Lemma load_leaf_json_not_constrained (d : gmap string json) (o : pyobj) :
  load_leaf_json d = Ok o -> ~ constrained o.
Proof.
  unfold load_leaf_json.
  destruct (negb (json_is_str (dict_get d "type" (JStr "leaf")) "leaf")); [discriminate|].
  destruct (dict_item d "className") as [cn|]; simpl; [|discriminate].
  destruct (negb (hashable cn)); [discriminate|].
  destruct (translation_init_json_raises d) as (e1 & ->).
  destruct (rigid_init_json_raises d) as (e2 & ->).
  destruct (similarity_init_json_raises d) as (e3 & ->).
  assert (Hgen : forall r : result Transform.t, OTransform <$> r = Ok o -> ~ constrained o).
  { intros [t|e] H; simpl in H; [|discriminate]. injection H as <-. simpl. tauto. }
  repeat match goal with
         | |- context [if ?b then _ else _] => destruct b
         end; simpl.
  - destruct (AffineModel.init_json d) as [a|[]]; simpl; try discriminate;
      try apply Hgen. intros H; injection H as <-. simpl. tauto.
  - destruct (Polynomial2DTransform.init_json d) as [a|[]]; simpl; try discriminate;
      try apply Hgen. intros H; injection H as <-. simpl. tauto.
  - destruct e1; simpl; try discriminate; apply Hgen.
  - destruct e2; simpl; try discriminate; apply Hgen.
  - destruct e3; simpl; try discriminate; apply Hgen.
  - apply Hgen.
Qed.

Lemma except_KeyError_ok {A : Type} (r : result A) (a : A) :
  except_KeyError r (Raise RenderError) = Ok a -> r = Ok a.
Proof. destruct r as [x|[]]; simpl; congruence. Qed.

Lemma bind_ok {A B : Type} (r : result A) (k : A -> result B) (b : B) :
  (x ← r; k x) = Ok b -> exists a, r = Ok a /\ k a = Ok b.
Proof. destruct r as [a|e]; simpl; [eauto|discriminate]. Qed.

Lemma load_transform_json_not_constrained (depth : nat) (d : gmap string json)
      (default_type : string) (o : pyobj) :
  load_transform_json depth d default_type = Ok o -> ~ constrained o.
Proof.
  destruct depth as [|depth]; [discriminate|].
  cbn [load_transform_json].
  destruct (negb (hashable _)); [discriminate|].
  intros H. apply except_KeyError_ok in H.
  destruct (json_is_str _ "leaf").
  { eapply load_leaf_json_not_constrained, H. }
  destruct (json_is_str _ "list").
  { apply bind_ok in H as (? & _ & H). apply bind_ok in H as (? & _ & H).
    apply bind_ok in H as (? & _ & H). injection H as <-. simpl. tauto. }
  destruct (json_is_str _ "ref").
  { unfold ReferenceTransform_init_json in H.
    apply bind_ok in H as (? & _ & H). injection H as <-. simpl. tauto. }
  destruct (json_is_str _ "interpolated"); [|discriminate].
  repeat (apply bind_ok in H as (? & _ & H)). injection H as <-. simpl. tauto.
Qed.

Lemma load_leaf_json_constrained_raises (d : gmap string json) (cn ds : string) :
  d !! "type" = None \/ d !! "type" = Some (JStr "leaf") ->
  d !! "className" = Some (JStr cn) ->
  cn = TranslationModel.class_name \/ cn = RigidModel.class_name \/
  cn = SimilarityModel.class_name ->
  d !! "dataString" = Some (JStr ds) ->
  load_leaf_json d = Raise TypeError /\
  forall depth, load_transform_json (S depth) d "leaf" = Raise TypeError.
Proof.
  intros Ht Hc Hcn Hd.
  assert (Hty : dict_get d "type" (JStr "leaf") = JStr "leaf").
  { unfold dict_get. destruct Ht as [-> | ->]; reflexivity. }
  assert (Hl : load_leaf_json d = Raise TypeError).
  { unfold load_leaf_json. rewrite Hty.
    unfold TranslationModel.init_json, RigidModel.init_json,
      SimilarityModel.init_json, AffineModel.from_dict, dict_item.
    rewrite Hc, Hd.
    destruct Hcn as [-> | [-> | ->]]; reflexivity. }
  split; [exact Hl|]. intros depth.
  cbn [load_transform_json]. rewrite Hty, Hl. reflexivity.
Qed.

(** C5: for every input string the text decoders of [TranslationModel],
    [RigidModel] and [SimilarityModel] raise [TypeError] and leave every
    attribute as it was; the constructors from a JSON dictionary never
    return; [load_leaf_json] and [load_transform_json] never yield an object
    of one of the three classes, and on a leaf dictionary with one of the
    three class names and a string as [dataString] they raise
    [TypeError]. *)
Theorem constrained_decoders_raise :
  (forall (ds : string) (self : AffineModel.t),
      TranslationModel._process_dataString (JStr ds) self = (Raise TypeError, self) /\
      RigidModel._process_dataString (JStr ds) self = (Raise TypeError, self) /\
      SimilarityModel._process_dataString (JStr ds) self = (Raise TypeError, self)) /\
  (forall d : gmap string json,
      (exists e, TranslationModel.init_json d = Raise e) /\
      (exists e, RigidModel.init_json d = Raise e) /\
      (exists e, SimilarityModel.init_json d = Raise e)) /\
  (forall (d : gmap string json) (o : pyobj),
      load_leaf_json d = Ok o -> ~ constrained o) /\
  (forall (depth : nat) (d : gmap string json) (default_type : string) (o : pyobj),
      load_transform_json depth d default_type = Ok o -> ~ constrained o) /\
  (forall (d : gmap string json) (cn ds : string),
      d !! "type" = None \/ d !! "type" = Some (JStr "leaf") ->
      d !! "className" = Some (JStr cn) ->
      cn = TranslationModel.class_name \/ cn = RigidModel.class_name \/
      cn = SimilarityModel.class_name ->
      d !! "dataString" = Some (JStr ds) ->
      load_leaf_json d = Raise TypeError /\
      forall depth, load_transform_json (S depth) d "leaf" = Raise TypeError).
Proof.
  split; [|split; [|split; [|split]]].
  - intros ds self. repeat split.
  - intros d. split; [|split].
    + apply translation_init_json_raises.
    + apply rigid_init_json_raises.
    + apply similarity_init_json_raises.
  - apply load_leaf_json_not_constrained.
  - apply load_transform_json_not_constrained.
  - apply load_leaf_json_constrained_raises.
Qed.

Lemma constrained_decoders_raise_witness :
  load_leaf_json translation_leaf_dict = Raise TypeError /\
  load_transform_json 1 translation_leaf_dict "leaf" = Raise TypeError.
Proof.
  destruct constrained_decoders_raise as (_ & _ & _ & _ & H).
  destruct (H translation_leaf_dict TranslationModel.class_name "10 20")
    as [H1 H2]; [right; reflexivity|reflexivity|left; reflexivity|reflexivity|].
  split; [exact H1|apply H2].
Defined.

(** C6: the text decoders of [RigidModel] and [SimilarityModel].  The
    assignments that follow the parse set [M10] and [M11], and the entries
    [M[1,0]] and [M[1,1]] of the rebuilt matrix, to [sin theta] (the
    Similarity decoder to [s * sin theta]), so that the linear block is the
    (scaled) rotation by [theta] only when [s * sin theta = s * cos theta].
    No text reaches these assignments: for every string the decoders raise
    [TypeError] first and leave the model as it was. *)
Theorem rigid_similarity_assignments (s theta tx ty : R) (self : AffineModel.t) :
  (let r := RigidModel.assign_params theta tx ty self in
   r.1 = Ok tt /\
   AffineModel.M10 r.2 = sin theta /\ AffineModel.M11 r.2 = sin theta /\
   m10 (AffineModel.M r.2) = sin theta /\ m11 (AffineModel.M r.2) = sin theta /\
   (scaled_rotation 1 theta (AffineModel.M r.2) <-> sin theta = cos theta)) /\
  (let r := SimilarityModel.assign_params s theta tx ty self in
   r.1 = Ok tt /\
   AffineModel.M10 r.2 = (s * sin theta)%R /\
   AffineModel.M11 r.2 = (s * sin theta)%R /\
   m10 (AffineModel.M r.2) = (s * sin theta)%R /\
   m11 (AffineModel.M r.2) = (s * sin theta)%R /\
   (scaled_rotation s theta (AffineModel.M r.2) <->
    (s * sin theta = s * cos theta)%R)) /\
  (forall ds : string,
      RigidModel._process_dataString (JStr ds) self = (Raise TypeError, self) /\
      SimilarityModel._process_dataString (JStr ds) self = (Raise TypeError, self)).
Proof.
  split; [|split].
  - simpl. do 5 (split; [reflexivity|]).
    unfold scaled_rotation; simpl. split.
    + intros (_ & _ & _ & H). lra.
    + intros H. repeat split; lra.
  - simpl. do 5 (split; [reflexivity|]).
    unfold scaled_rotation; simpl. split.
    + intros (_ & _ & _ & H). lra.
    + intros H. repeat split; lra.
  - intros ds. split; reflexivity.
Qed.

(** On the well-formed texts ["0 0 0"] of a rigid model and ["1 0 0 0"] of
    a similarity, decoding raises [TypeError]; [M10] and [M11] keep the
    values [0] and [1] of the fresh model, and [M11] is not [sin 0]. *)
Lemma rigid_decode_assigns_nothing :
  RigidModel._process_dataString (JStr "0 0 0") AffineModel.default
    = (Raise TypeError, AffineModel.default) /\
  SimilarityModel._process_dataString (JStr "1 0 0 0") AffineModel.default
    = (Raise TypeError, AffineModel.default) /\
  AffineModel.M10 AffineModel.default = 0%R /\
  AffineModel.M11 AffineModel.default = 1%R /\
  AffineModel.M11 AffineModel.default <> sin 0.
Proof.
  split; [reflexivity|]. split; [reflexivity|].
  split; [reflexivity|]. split; [reflexivity|].
  simpl. rewrite sin_0. lra.
Qed.

(** ** Decoding of leaf dictionaries *)

Lemma registered_false (cn : json) :
  registered cn = false ->
  json_is_str cn AffineModel.class_name = false /\
  json_is_str cn Polynomial2DTransform.class_name = false /\
  json_is_str cn TranslationModel.class_name = false /\
  json_is_str cn RigidModel.class_name = false /\
  json_is_str cn SimilarityModel.class_name = false.
Proof.
  unfold registered. intros H.
  repeat (apply orb_false_elim in H; destruct H as [H ?]). auto.
Qed.

Lemma known_type_false (ty : json) :
  known_type ty = false ->
  json_is_str ty "leaf" = false /\ json_is_str ty "list" = false /\
  json_is_str ty "ref" = false /\ json_is_str ty "interpolated" = false.
Proof.
  unfold known_type. intros H.
  repeat (apply orb_false_elim in H; destruct H as [H ?]). auto.
Qed.

Lemma transform_init_json_ok (d : gmap string json) (cn ds : json) :
  d !! "className" = Some cn ->
  d !! "dataString" = Some ds ->
  Transform.init_json d
    = Ok (Transform.mk cn ds (dict_get d "transformId" JNull)).
Proof.
  intros Hc Hd. unfold Transform.init_json, Transform.from_dict.
  unfold mbind, meth_bind, lift, assign, dict_item. rewrite Hc, Hd. reflexivity.
Qed.

Lemma load_leaf_json_generic (d : gmap string json) (cn ds : json) :
  d !! "type" = None \/ d !! "type" = Some (JStr "leaf") ->
  d !! "className" = Some cn ->
  d !! "dataString" = Some ds ->
  hashable cn = true ->
  registered cn = false ->
  load_leaf_json d
    = Ok (OTransform (Transform.mk cn ds (dict_get d "transformId" JNull))).
Proof.
  intros Ht Hc Hd Hh Hr.
  apply registered_false in Hr as (H1 & H2 & H3 & H4 & H5).
  unfold load_leaf_json.
  assert (dict_get d "type" (JStr "leaf") = JStr "leaf") as ->.
  { unfold dict_get. destruct Ht as [-> | ->]; reflexivity. }
  simpl. unfold dict_item. rewrite Hc. simpl. rewrite Hh. simpl.
  rewrite H1, H2, H3, H4, H5. simpl.
  rewrite (transform_init_json_ok d cn ds Hc Hd). reflexivity.
Qed.

Lemma to_dict_roundtrip (d : gmap string json) (cn ds : json) :
  d !! "type" = Some (JStr "leaf") ->
  d !! "className" = Some cn ->
  d !! "dataString" = Some ds ->
  d !! "transformId" <> Some JNull ->
  (forall k, k ∉ leaf_keys -> d !! k = None) ->
  Transform.to_dict (Transform.mk cn ds (dict_get d "transformId" JNull)) = d.
Proof.
  intros Ht Hc Hd Hn Hdom. unfold Transform.to_dict, dict_get. simpl.
  apply map_eq. intros k.
  assert (Hbase : k <> "transformId" ->
          (<["dataString":=ds]> (<["className":=cn]>
             (<["type":=JStr "leaf"]> (∅ : gmap string json)))) !! k = d !! k).
  { intros Hk.
    destruct (decide (k = "dataString")) as [->|H1];
      [rewrite lookup_insert_eq; congruence|].
    rewrite lookup_insert_ne by congruence.
    destruct (decide (k = "className")) as [->|H2];
      [rewrite lookup_insert_eq; congruence|].
    rewrite lookup_insert_ne by congruence.
    destruct (decide (k = "type")) as [->|H3];
      [rewrite lookup_insert_eq; congruence|].
    rewrite lookup_insert_ne by congruence.
    rewrite lookup_empty. symmetry. apply Hdom.
    unfold leaf_keys. intros Hin.
    repeat (apply elem_of_cons in Hin as [Hin|Hin]; [congruence|]).
    by apply elem_of_nil in Hin. }
  destruct (d !! "transformId") as [tid|] eqn:Htid.
  - destruct (decide (k = "transformId")) as [->|Hk].
    + destruct tid; try congruence; rewrite lookup_insert_eq; congruence.
    + destruct tid; try congruence;
        (rewrite lookup_insert_ne by congruence); apply Hbase, Hk.
  - destruct (decide (k = "transformId")) as [->|Hk].
    + rewrite Htid. rewrite !lookup_insert_ne by discriminate.
      apply lookup_empty.
    + apply Hbase, Hk.
Qed.

Lemma load_leaf_json_insert_type (d : gmap string json) :
  d !! "type" = None ->
  load_leaf_json (<["type" := JStr "leaf"]> d) = load_leaf_json d.
Proof.
  intros Ht.
  unfold load_leaf_json, AffineModel.init_json, TranslationModel.init_json,
    RigidModel.init_json, SimilarityModel.init_json,
    Polynomial2DTransform.init_json, Transform.init_json,
    AffineModel.from_dict, Polynomial2DTransform.from_dict, Transform.from_dict,
    dict_item, dict_get.
  rewrite lookup_insert_eq, Ht.
  rewrite !lookup_insert_ne by discriminate. reflexivity.
Qed.

(** C3: a leaf dictionary whose class name is none of the five registered
    ones decodes to the generic [Transform] holding its class name and raw
    [dataString], and encoding that transform gives the dictionary back; a
    dictionary whose [type] is none of [leaf], [list], [ref] and
    [interpolated] is rejected with [RenderError]; without a [type] the
    dictionary is decoded as a leaf. *)
Theorem load_unknown_kinds (depth : nat) (d : gmap string json) :
  (forall cn ds : json,
      d !! "type" = Some (JStr "leaf") ->
      d !! "className" = Some cn ->
      d !! "dataString" = Some ds ->
      hashable cn = true ->
      registered cn = false ->
      let t := Transform.mk cn ds (dict_get d "transformId" JNull) in
      load_leaf_json d = Ok (OTransform t) /\
      load_transform_json (S depth) d "leaf" = Ok (OTransform t) /\
      (d !! "transformId" <> Some JNull ->
       (forall k, k ∉ leaf_keys -> d !! k = None) ->
       Transform.to_dict t = d)) /\
  (forall (ty : json) (default_type : string),
      d !! "type" = Some ty ->
      hashable ty = true ->
      known_type ty = false ->
      load_transform_json (S depth) d default_type = Raise RenderError) /\
  (d !! "type" = None ->
   load_transform_json (S depth) d "leaf"
     = except_KeyError (load_leaf_json d) (Raise RenderError) /\
   load_transform_json (S depth) d "leaf"
     = load_transform_json (S depth) (<["type" := JStr "leaf"]> d) "leaf").
Proof.
  split; [|split].
  - intros cn ds Ht Hc Hd Hh Hr t.
    pose proof (load_leaf_json_generic d cn ds (or_intror Ht) Hc Hd Hh Hr) as Hl.
    split; [exact Hl|]. split.
    + simpl. unfold dict_get at 1. rewrite Ht. simpl.
      unfold dict_get at 1. rewrite Ht. simpl. rewrite Hl. reflexivity.
    + intros Hn Hdom. apply to_dict_roundtrip; assumption.
  - intros ty dflt Ht Hh Hk.
    apply known_type_false in Hk as (H1 & H2 & H3 & H4).
    simpl. unfold dict_get. rewrite Ht, Hh. simpl.
    rewrite H1, H2, H3, H4. reflexivity.
  - intros Ht. split.
    + simpl. unfold dict_get. rewrite Ht. reflexivity.
    + simpl. rewrite (load_leaf_json_insert_type d Ht).
      unfold dict_get. rewrite Ht, lookup_insert_eq. reflexivity.
Qed.

Lemma load_unknown_kinds_witness :
  (let t := Transform.mk (JStr "lenscorrection.NonLinearTransform")
                         (JStr "5 21 1 0 0") JNull in
   load_leaf_json unknown_leaf_dict = Ok (OTransform t) /\
   load_transform_json 1 unknown_leaf_dict "leaf" = Ok (OTransform t) /\
   Transform.to_dict t = unknown_leaf_dict) /\
  load_transform_json 1 bogus_type_dict "leaf" = Raise RenderError /\
  load_transform_json 1 untyped_leaf_dict "leaf"
    = load_transform_json 1 (<["type" := JStr "leaf"]> untyped_leaf_dict) "leaf".
Proof.
  split; [|split].
  - destruct (load_unknown_kinds 0 unknown_leaf_dict) as (H & _ & _).
    destruct (H (JStr "lenscorrection.NonLinearTransform") (JStr "5 21 1 0 0"))
      as (H1 & H2 & H3); try reflexivity.
    split; [exact H1|]. split; [exact H2|].
    apply H3; [discriminate|].
    intros k Hk. unfold unknown_leaf_dict.
    rewrite !lookup_insert_ne; [apply lookup_empty| | |];
      intros <-; apply Hk; apply list_elem_of_In; simpl; tauto.
  - destruct (load_unknown_kinds 0 bogus_type_dict) as (_ & H & _).
    apply (H (JStr "affine")); reflexivity.
  - destruct (load_unknown_kinds 0 untyped_leaf_dict) as (_ & _ & H).
    apply H. reflexivity.
Defined.

(** ** Polynomial2DTransform: order and evaluation *)

Lemma tri_double (n : nat) : (2 * tri n = n * (n + 1))%nat.
Proof. induction n; simpl; lia. Qed.

Lemma tri_mono (a b : nat) : (a <= b)%nat -> (tri a <= tri b)%nat.
Proof. induction 1; simpl; lia. Qed.

Lemma py_int_INR (n : nat) : py_int (INR n) = Z.of_nat n.
Proof.
  unfold py_int. destruct (Rle_dec 0 (INR n)) as [_|H].
  - apply Int_part_INR.
  - exfalso. apply H, pos_INR.
Qed.

(** With [2 * (o+1)(o+2)/2] coefficients the square root is exact. *)
Lemma sqrt_coefficients (o : nat) :
  sqrt (4 * INR (2 * tri (o + 1)) + 1) = (2 * INR o + 3)%R.
Proof.
  assert (H : INR (2 * tri (o + 1)) = ((INR o + 1) * (INR o + 2))%R).
  { rewrite tri_double, mult_INR, !plus_INR.
    change (INR 1) with 1%R. change (INR 2) with (1 + 1)%R. ring. }
  rewrite H.
  replace (4 * ((INR o + 1) * (INR o + 2)) + 1)%R
    with ((2 * INR o + 3) * (2 * INR o + 3))%R by ring.
  apply sqrt_square. pose proof (pos_INR o). lra.
Qed.

Lemma order_of_len_tri (o : nat) :
  Polynomial2DTransform.order_of_len (2 * tri (o + 1)) = Z.of_nat o.
Proof.
  unfold Polynomial2DTransform.order_of_len. rewrite sqrt_coefficients.
  pose proof (pos_INR o) as Ho.
  rewrite Rabs_pos_eq by lra.
  replace ((2 * INR o + 3 - 3) / 2)%R with (INR o) by field.
  apply py_int_INR.
Qed.

Lemma tform_order_tri (o : nat) :
  Polynomial2DTransform.tform_order (2 * tri (o + 1)) = Z.of_nat o.
Proof.
  unfold Polynomial2DTransform.tform_order.
  replace (9 - 4 * (2 - INR (2 * tri (o + 1))))%R
    with (4 * INR (2 * tri (o + 1)) + 1)%R by ring.
  rewrite sqrt_coefficients.
  replace ((-3 + (2 * INR o + 3)) / 2)%R with (INR o) by field.
  apply py_int_INR.
Qed.

Lemma coefficients_half (n : nat) :
  Z.to_nat (Polynomial2DTransform.coefficients (Z.of_nat n) / 2) = tri (n + 1).
Proof.
  unfold Polynomial2DTransform.coefficients.
  pose proof (tri_double (n + 1)) as H.
  replace ((Z.of_nat n + 1) * (Z.of_nat n + 2))%Z
    with (Z.of_nat (tri (n + 1)) * 2)%Z by nia.
  rewrite Z.div_mul by lia. apply Nat2Z.id.
Qed.

Lemma for_each_app {S B : Type} (body : S -> B -> result S) (l1 l2 : list B) (s : S) :
  for_each body (l1 ++ l2) s = (s' ← for_each body l1 s; for_each body l2 s').
Proof.
  revert s. induction l1 as [|b l1 IH]; intros s; simpl; [reflexivity|].
  destruct (body s b); simpl; [apply IH|reflexivity].
Qed.

Lemma same_items_refl (a : ndarray) : same_items a a.
Proof. repeat split. Qed.

Lemma same_items_sym (a b : ndarray) : same_items a b -> same_items b a.
Proof. intros (H0 & H1 & H). repeat split; auto. Qed.

Lemma same_items_trans (a b c : ndarray) :
  same_items a b -> same_items b c -> same_items a c.
Proof.
  intros (H0 & H1 & H) (H0' & H1' & H').
  split; [congruence|]. split; [congruence|].
  intros i j. rewrite H. apply H'.
Qed.

Lemma getitem_ok (a : ndarray) (i j : nat) :
  (i < shape0 a)%nat -> (j < shape1 a)%nat -> getitem a i j = Ok (item a i j).
Proof.
  intros Hi Hj. unfold getitem.
  destruct (Nat.ltb_spec i (shape0 a)); [|lia].
  destruct (Nat.ltb_spec j (shape1 a)); [|lia]. reflexivity.
Qed.

Section TformLoops.

Variables (prm prm' points : ndarray).
Hypothesis Hrows : shape0 prm = 2%nat.
Hypothesis Hrows' : shape0 prm' = 2%nat.

(** Two parameter arrays that agree on the columns an inner loop reads
    lead it to equal results. *)
Lemma inner_loop_agree (j k a pidx : nat) (dst dst' : ndarray) :
  (pidx + k <= shape1 prm)%nat ->
  (pidx + k <= shape1 prm')%nat ->
  (forall i c, (i < 2)%nat -> (pidx <= c < pidx + k)%nat ->
               item prm i c = item prm' i c) ->
  same_items dst dst' ->
  exists d d',
    for_each (Polynomial2DTransform.tform_step prm points j) (seq a k) (dst, pidx)
      = Ok (d, (pidx + k)%nat) /\
    for_each (Polynomial2DTransform.tform_step prm' points j) (seq a k) (dst', pidx)
      = Ok (d', (pidx + k)%nat) /\
    same_items d d'.
Proof using Hrows Hrows'.
  revert a pidx dst dst'.
  induction k as [|k IH]; intros a pidx dst dst' Hk Hk' Hag Hs.
  - exists dst, dst'. simpl. rewrite Nat.add_0_r. auto.
  - simpl. rewrite !getitem_ok by lia. simpl.
    edestruct (IH (S a) (S pidx)) as (d & d' & H1 & H2 & H3);
      [| | | | exists d, d'; rewrite H1, H2;
               replace (S pidx + k)%nat with (pidx + S k)%nat by lia; eauto];
      try lia.
    + intros i c Hi Hc. apply Hag; lia.
    + destruct Hs as (H0 & H1 & H). repeat split; simpl; auto.
      intros i c. rewrite !H, !(Hag _ pidx) by lia. reflexivity.
Qed.

(** An inner loop over columns that hold zeros leaves the destination as
    it was. *)
Lemma inner_loop_zero (j k a pidx : nat) (dst : ndarray) :
  (pidx + k <= shape1 prm)%nat ->
  (forall i c, (i < 2)%nat -> (pidx <= c < pidx + k)%nat -> item prm i c = 0%R) ->
  exists d,
    for_each (Polynomial2DTransform.tform_step prm points j) (seq a k) (dst, pidx)
      = Ok (d, (pidx + k)%nat) /\
    same_items d dst.
Proof using Hrows.
  clear prm' Hrows'.
  revert a pidx dst.
  induction k as [|k IH]; intros a pidx dst Hk Hz.
  - exists dst. simpl. rewrite Nat.add_0_r. split; [reflexivity|apply same_items_refl].
  - simpl. rewrite !getitem_ok by lia. simpl.
    edestruct (IH (S a) (S pidx)) as (d & H1 & H2);
      [| | exists d; rewrite H1;
             replace (S pidx + k)%nat with (pidx + S k)%nat by lia;
             split; [reflexivity|]; eapply same_items_trans; [exact H2|]];
      try lia.
    + intros i c Hi Hc. apply Hz; lia.
    + repeat split; simpl; auto.
      intros i c. rewrite !(Hz _ pidx) by lia.
      destruct (c =? 1)%nat, (c =? 0)%nat; ring.
Qed.

Lemma outer_loop_agree (k a : nat) (dst dst' : ndarray) :
  (tri (a + k) <= shape1 prm)%nat ->
  (tri (a + k) <= shape1 prm')%nat ->
  (forall i c, (i < 2)%nat -> (tri a <= c < tri (a + k))%nat ->
               item prm i c = item prm' i c) ->
  same_items dst dst' ->
  exists d d',
    for_each
      (fun st j => for_each (Polynomial2DTransform.tform_step prm points j)
                            (seq 0 (j + 1)) st)
      (seq a k) (dst, tri a) = Ok (d, tri (a + k)) /\
    for_each
      (fun st j => for_each (Polynomial2DTransform.tform_step prm' points j)
                            (seq 0 (j + 1)) st)
      (seq a k) (dst', tri a) = Ok (d', tri (a + k)) /\
    same_items d d'.
Proof using Hrows Hrows'.
  revert a dst dst'.
  induction k as [|k IH]; intros a dst dst' Hk Hk' Hag Hs.
  - exists dst, dst'. simpl. rewrite Nat.add_0_r. auto.
  - assert (Htri : (tri a + (a + 1) = tri (S a))%nat) by (simpl; lia).
    assert (Hle : (tri (S a) <= tri (a + S k))%nat) by (apply tri_mono; lia).
    destruct (inner_loop_agree a (a + 1) 0 (tri a) dst dst')
      as (d1 & d1' & H1 & H1' & Hs1); try lia; auto.
    { intros i c Hi Hc. apply Hag; lia. }
    simpl. rewrite H1, H1'. simpl. rewrite Htri.
    replace (a + S k)%nat with (S a + k)%nat in * by lia.
    apply IH; auto.
    intros i c Hi Hc. apply Hag; lia.
Qed.

Lemma outer_loop_zero (k a : nat) (dst : ndarray) :
  (tri (a + k) <= shape1 prm)%nat ->
  (forall i c, (i < 2)%nat -> (tri a <= c < tri (a + k))%nat -> item prm i c = 0%R) ->
  exists d,
    for_each
      (fun st j => for_each (Polynomial2DTransform.tform_step prm points j)
                            (seq 0 (j + 1)) st)
      (seq a k) (dst, tri a) = Ok (d, tri (a + k)) /\
    same_items d dst.
Proof using Hrows.
  clear prm' Hrows'.
  revert a dst.
  induction k as [|k IH]; intros a dst Hk Hz.
  - exists dst. simpl. rewrite Nat.add_0_r. split; [reflexivity|apply same_items_refl].
  - assert (Htri : (tri a + (a + 1) = tri (S a))%nat) by (simpl; lia).
    assert (Hle : (tri (S a) <= tri (a + S k))%nat) by (apply tri_mono; lia).
    destruct (inner_loop_zero a (a + 1) 0 (tri a) dst) as (d1 & H1 & Hs1); try lia.
    { intros i c Hi Hc. apply Hz; lia. }
    simpl. rewrite H1. simpl. rewrite Htri.
    replace (a + S k)%nat with (S a + k)%nat in * by lia.
    destruct (IH (S a) d1) as (d & H & Hs); auto.
    { intros i c Hi Hc. apply Hz; lia. }
    exists d. split; [exact H|]. eapply same_items_trans; eauto.
Qed.

End TformLoops.

Lemma for_each_invariant {S B : Type} (P : S -> Prop) (body : S -> B -> result S)
      (l : list B) (s s' : S) :
  (forall s b s', P s -> body s b = Ok s' -> P s') ->
  P s -> for_each body l s = Ok s' -> P s'.
Proof.
  intros Hbody. revert s. induction l as [|b l IH]; intros s Hs H; simpl in H.
  - injection H as <-. exact Hs.
  - destruct (body s b) as [s1|e] eqn:Hb; simpl in H; [|discriminate].
    eapply IH; [|exact H]. eapply Hbody; eauto.
Qed.

Lemma tform_loop_shape (prm points : ndarray) (n : nat) (dst d : ndarray) (k k' : nat) :
  Polynomial2DTransform.tform_loop prm points n (dst, k) = Ok (d, k') ->
  shape0 d = shape0 dst /\ shape1 d = shape1 dst.
Proof.
  unfold Polynomial2DTransform.tform_loop. intros H.
  apply (for_each_invariant
           (fun st : ndarray * nat =>
              shape0 st.1 = shape0 dst /\ shape1 st.1 = shape1 dst)) in H;
    [exact H| |split; reflexivity].
  intros s j s' Hs Hj.
  apply (for_each_invariant
           (fun st : ndarray * nat =>
              shape0 st.1 = shape0 dst /\ shape1 st.1 = shape1 dst)) in Hj;
    [exact Hj| |exact Hs].
  clear. intros [a pidx] i s' Hs Hi. unfold Polynomial2DTransform.tform_step in Hi.
  destruct (getitem prm 0 pidx); simpl in Hi; [|discriminate].
  destruct (getitem prm 1 pidx); simpl in Hi; [|discriminate].
  injection Hi as <-. exact Hs.
Qed.

(** A well-formed polynomial maps every array with two columns or more. *)
Lemma poly_tform_ok (p : Polynomial2DTransform.t) (o : nat) (points : ndarray) :
  well_formed p o ->
  (2 <= shape1 points)%nat ->
  exists d, Polynomial2DTransform.tform p points = Ok d /\
            shape0 d = shape0 points /\ shape1 d = shape1 points.
Proof.
  intros [H0 H1] Hp. unfold Polynomial2DTransform.tform.
  destruct (Nat.ltb_spec (shape1 points) 2); [lia|].
  unfold Polynomial2DTransform.ravel_len. rewrite H0, H1, tform_order_tri.
  replace (Z.to_nat (Z.of_nat o + 1)) with (o + 1)%nat by lia.
  unfold Polynomial2DTransform.tform_loop.
  destruct (outer_loop_agree (Polynomial2DTransform.params p)
              (Polynomial2DTransform.params p) points H0 H0 (o + 1) 0
              (zeros (shape0 points) (shape1 points))
              (zeros (shape0 points) (shape1 points)))
    as (d & d' & Hd & _ & _).
  - rewrite H1. simpl. lia.
  - rewrite H1. simpl. lia.
  - reflexivity.
  - apply same_items_refl.
  - change (tri 0) with 0%nat in Hd. simpl (0 + (o + 1))%nat in Hd. rewrite Hd. simpl. exists d.
    split; [reflexivity|].
    apply (tform_loop_shape _ _ _ _ _ _ _ Hd).
Qed.

(** A polynomial padded with zero columns maps every array as the one it
    was padded from. *)
Lemma tform_zero_padded (p q : Polynomial2DTransform.t) (o n : nat) (points : ndarray) :
  well_formed p o -> well_formed q n -> (o <= n)%nat ->
  (forall i c, (i < 2)%nat -> (c < tri (o + 1))%nat ->
     item (Polynomial2DTransform.params q) i c
       = item (Polynomial2DTransform.params p) i c) ->
  (forall i c, (i < 2)%nat -> (tri (o + 1) <= c)%nat ->
     item (Polynomial2DTransform.params q) i c = 0%R) ->
  agree (Polynomial2DTransform.tform q points)
        (Polynomial2DTransform.tform p points).
Proof.
  intros [H0 H1] [Hq0 Hq1] Hon Hsame Hzero.
  unfold Polynomial2DTransform.tform.
  destruct (Nat.ltb_spec (shape1 points) 2); [reflexivity|].
  unfold Polynomial2DTransform.ravel_len.
  rewrite H0, H1, Hq0, Hq1, !tform_order_tri.
  replace (Z.to_nat (Z.of_nat n + 1)) with ((o + 1) + (n - o))%nat by lia.
  replace (Z.to_nat (Z.of_nat o + 1)) with (o + 1)%nat by lia.
  unfold Polynomial2DTransform.tform_loop.
  rewrite seq_app, for_each_app.
  set (dst0 := zeros (shape0 points) (shape1 points)).
  assert (Htri : (tri (o + 1) <= tri (n + 1))%nat) by (apply tri_mono; lia).
  destruct (outer_loop_agree (Polynomial2DTransform.params q)
              (Polynomial2DTransform.params p) points
              Hq0 H0 (o + 1) 0 dst0 dst0)
    as (d & d' & Hd & Hd' & Hs).
  - rewrite Hq1. exact Htri.
  - rewrite H1. apply Nat.le_refl.
  - intros i c Hi Hc. apply Hsame; [exact Hi|]. apply Hc.
  - apply same_items_refl.
  - change (tri 0) with 0%nat in Hd, Hd'.
    change (0 + (o + 1))%nat with (o + 1)%nat in *.
    rewrite Hd, Hd'.
    destruct (outer_loop_zero (Polynomial2DTransform.params q) points
                Hq0 (n - o) (o + 1) d)
      as (d2 & Hd2 & Hs2).
    + rewrite Hq1. replace (o + 1 + (n - o))%nat with (n + 1)%nat by lia.
      apply Nat.le_refl.
    + intros i c Hi Hc. apply Hzero; [exact Hi|]. apply Hc.
    + change (Ok (d, tri (o + 1)) ≫= ?f) with (f (d, tri (o + 1))).
      cbv beta. rewrite Hd2.
      change (agree (Ok d2) (Ok d')).
      eapply same_items_trans; [exact Hs2|exact Hs].
Qed.

(** C10: for a polynomial [p] whose [params] is a [2 x (o+1)(o+2)/2] array,
    [p.order] is [o]; [p.asorder(newOrder)] with [newOrder >= p.order]
    returns a polynomial of order [newOrder] that keeps the coefficients of
    [p], has zeros in the added columns and maps every point array as [p]
    does; with [newOrder < p.order] it raises [ConversionError].  [asorder]
    only reads [p]. *)
Theorem asorder_spec (p : Polynomial2DTransform.t) (o : nat) (newOrder : Z) :
  well_formed p o ->
  Polynomial2DTransform.order p = Z.of_nat o /\
  ((Polynomial2DTransform.order p <= newOrder)%Z ->
   exists q,
     Polynomial2DTransform.asorder p newOrder = Ok q /\
     Polynomial2DTransform.order q = newOrder /\
     shape0 (Polynomial2DTransform.params q) = 2%nat /\
     shape1 (Polynomial2DTransform.params q)
       = Z.to_nat (Polynomial2DTransform.coefficients newOrder / 2) /\
     (forall i j, (i < 2)%nat ->
        (j < shape1 (Polynomial2DTransform.params p))%nat ->
        item (Polynomial2DTransform.params q) i j
          = item (Polynomial2DTransform.params p) i j) /\
     (forall i j, (shape1 (Polynomial2DTransform.params p) <= j)%nat ->
        item (Polynomial2DTransform.params q) i j = 0%R) /\
     (forall points,
        agree (Polynomial2DTransform.tform q points)
              (Polynomial2DTransform.tform p points) /\
        ((2 <= shape1 points)%nat ->
         exists d, Polynomial2DTransform.tform q points = Ok d))) /\
  ((newOrder < Polynomial2DTransform.order p)%Z ->
   Polynomial2DTransform.asorder p newOrder = Raise ConversionError).
Proof.
  intros Hwf. pose proof Hwf as [H0 H1].
  assert (Ho : Polynomial2DTransform.order p = Z.of_nat o).
  { unfold Polynomial2DTransform.order, Polynomial2DTransform.ravel_len.
    rewrite H0, H1. apply order_of_len_tri. }
  split; [exact Ho|]. split.
  - intros Hle. rewrite Ho in Hle.
    assert (Hn : newOrder = Z.of_nat (Z.to_nat newOrder)) by lia.
    set (n := Z.to_nat newOrder) in *.
    assert (Hon : (o <= n)%nat) by lia.
    unfold Polynomial2DTransform.asorder.
    rewrite Ho. destruct (Z.ltb_spec newOrder (Z.of_nat o)); [lia|].
    rewrite Hn, coefficients_half, H0, H1.
    assert (Htri : (tri (o + 1) <= tri (n + 1))%nat) by (apply tri_mono; lia).
    destruct (Nat.leb_spec (tri (o + 1)) (tri (n + 1))); [|lia].
    cbn [Nat.leb andb orb].
    set (q := Polynomial2DTransform.init_params _).
    assert (Hq : well_formed q n) by (split; reflexivity).
    assert (Hsame : forall i c, (i < 2)%nat -> (c < tri (o + 1))%nat ->
              item (Polynomial2DTransform.params q) i c
                = item (Polynomial2DTransform.params p) i c).
    { intros i j Hi Hj. subst q.
      cbn [Polynomial2DTransform.init_params Polynomial2DTransform.params item].
      destruct (Nat.ltb_spec i 2); [|lia].
      destruct (Nat.ltb_spec j (tri (o + 1))); [|lia]. reflexivity. }
    assert (Hzero : forall i c, (tri (o + 1) <= c)%nat ->
              item (Polynomial2DTransform.params q) i c = 0%R).
    { intros i j Hj. subst q.
      cbn [Polynomial2DTransform.init_params Polynomial2DTransform.params item zeros].
      destruct (Nat.ltb_spec j (tri (o + 1))); [lia|].
      rewrite andb_false_r. reflexivity. }
    exists q. split; [reflexivity|]. split.
    { unfold Polynomial2DTransform.order, Polynomial2DTransform.ravel_len.
      destruct Hq as [-> ->].
      transitivity (Z.of_nat n); [apply order_of_len_tri|lia]. }
    split; [reflexivity|]. split; [reflexivity|].
    split; [exact Hsame|]. split; [exact Hzero|].
    intros points. split.
    + apply (tform_zero_padded p q o n); auto.
    + intros Hp. destruct (poly_tform_ok q n points Hq Hp) as (d & Hd & _).
      exists d. exact Hd.
  - intros Hlt. unfold Polynomial2DTransform.asorder.
    destruct (Z.ltb_spec newOrder (Polynomial2DTransform.order p)); [reflexivity|lia].
Qed.

Lemma asorder_spec_witness :
  well_formed Polynomial2DTransform.init_identity 1 /\
  Polynomial2DTransform.order Polynomial2DTransform.init_identity = 1%Z /\
  (exists q,
     Polynomial2DTransform.asorder Polynomial2DTransform.init_identity 2 = Ok q /\
     Polynomial2DTransform.order q = 2%Z /\
     forall points,
       agree (Polynomial2DTransform.tform q points)
             (Polynomial2DTransform.tform Polynomial2DTransform.init_identity points)) /\
  Polynomial2DTransform.asorder Polynomial2DTransform.init_identity 0
    = Raise ConversionError.
Proof.
  assert (Hwf : well_formed Polynomial2DTransform.init_identity 1)
    by (split; reflexivity).
  split; [exact Hwf|].
  destruct (asorder_spec Polynomial2DTransform.init_identity 1 2 Hwf)
    as (Ho & Hup & _).
  destruct (asorder_spec Polynomial2DTransform.init_identity 1 0 Hwf)
    as (_ & _ & Hdown).
  split; [exact Ho|]. split.
  - destruct Hup as (q & Hq & Hoq & _ & _ & _ & _ & Ht); [rewrite Ho; lia|].
    exists q. split; [exact Hq|]. split; [exact Hoq|].
    intros points. apply Ht.
  - apply Hdown. rewrite Ho. lia.
Defined.

(** ** Polynomial2DTransform: the retry loop of [estimate] *)

Lemma half_coefficients_tri (order : nat) :
  ((order + 1) * (order + 2) / 2 = tri (order + 1))%nat.
Proof.
  pose proof (tri_double (order + 1)) as H.
  replace ((order + 1) * (order + 2))%nat with (tri (order + 1) * 2)%nat by lia.
  apply Nat.div_mul. lia.
Qed.

Section EstimateLoop.

Import Polynomial2DTransform.

Variables (np : linalg) (src dst : ndarray) (order : nat).
Variables (test_coords : bool) (max_tries : Z) (atol rtol : R).
Hypothesis Hsrc : shape1 src = 2%nat.
Hypothesis Hdst : shape1 dst = 2%nat.

(** The outcomes of a call of [fit] on arrays with two columns: the
    guards reject the arrays, whatever the call; or the solver fails; or
    well-formed parameters are returned. *)
Lemma fit_cases (k : nat) :
  (forall k', fit np k' src dst order = Raise EstimationError) \/
  fit np k src dst order = Raise LinAlgError \/
  fit np k src dst order = Raise ValueError \/
  exists prm, fit np k src dst order = Ok prm /\
              well_formed (init_params prm) order /\
              shape0 src = shape0 dst.
Proof using Hsrc Hdst.
  unfold fit. rewrite Hsrc, Hdst.
  change ((2 <? 2)%nat || (2 <? 2)%nat) with false. cbv iota.
  destruct (Nat.eqb_spec (shape0 src) (shape0 dst)) as [Heq|Hne];
    cbn [negb]; [|left; reflexivity].
  destruct (shape0 src <? (order + 1) * (order + 2))%nat; [left; reflexivity|].
  right. destruct (svd_vsm np k _) as [[]|Vsm]; [auto|auto|].
  right; right. eexists. split; [reflexivity|]. split; [|exact Heq].
  split; [reflexivity|]. cbn. apply half_coefficients_tri.
Qed.

(** On such parameters [fitgood] gives a verdict. *)
Lemma fitgood_total (prm : ndarray) :
  well_formed (init_params prm) order ->
  shape0 src = shape0 dst ->
  exists b, fitgood src dst prm atol rtol = Ok b.
Proof using Hsrc Hdst.
  intros Hwf Heq. unfold fitgood.
  destruct (poly_tform_ok (init_params prm) order src Hwf) as (d & -> & H0 & H1);
    [lia|].
  cbn. unfold allclose. rewrite H0, H1, Heq, Hsrc, Hdst, !Nat.eqb_refl.
  cbn [andb]. eauto.
Qed.

(** One iteration: [fit] is rejected by its guards; or the attempt is not
    acceptable and the loop goes on; or it is acceptable and the loop
    ends. *)
Lemma loop_body_cases (st : loop_state) :
  (loop_body np src dst order test_coords atol rtol st = Raise EstimationError /\
   forall k', fit np k' src dst order = Raise EstimationError) \/
  (exists f,
      loop_body np src dst order test_coords atol rtol st
        = Ok (mk_loop (tries st + 1) false f) /\
      (estimated st = false -> f = fitted st \/ exists prm, f = Some prm) /\
      forall prm, ~ acceptable np src dst order test_coords atol rtol
                    (Z.to_nat (tries st + 1)) prm) \/
  (exists prm,
      loop_body np src dst order test_coords atol rtol st
        = Ok (mk_loop (tries st + 1) true (Some prm)) /\
      acceptable np src dst order test_coords atol rtol
                 (Z.to_nat (tries st + 1)) prm) \/
  (estimated st = true).
Proof using Hsrc Hdst.
  destruct (estimated st) eqn:Hest; [right; right; right; reflexivity|].
  unfold loop_body.
  destruct (fit_cases (Z.to_nat (tries st + 1)))
    as [Hg | [Hl | [Hv | (prm & Hfit & Hwf & Heq)]]].
  - left. rewrite Hg. auto.
  - right; left. rewrite Hl, Hest. eexists. split; [reflexivity|].
    split; [auto|]. intros prm [Hf _]. congruence.
  - right; left. rewrite Hv, Hest. eexists. split; [reflexivity|].
    split; [auto|]. intros prm [Hf _]. congruence.
  - rewrite Hfit.
    destruct test_coords eqn:Htc.
    + destruct (fitgood_total prm Hwf Heq) as ([|] & Hb); rewrite Hb; cbn.
      * right; right; left. exists prm. split; [reflexivity|].
        split; [exact Hfit|]. intros _. exact Hb.
      * right; left. eexists. split; [reflexivity|]. split; [eauto|].
        intros prm' [Hf Hg]. rewrite Hfit in Hf. injection Hf as <-.
        specialize (Hg eq_refl). congruence.
    + cbn. right; right; left. exists prm. split; [reflexivity|].
      split; [exact Hfit|]. discriminate.
Qed.

(** The loop from a state in which nothing has been accepted yet. *)
Lemma estimate_loop_cases (fuel : nat) (st : loop_state) :
  estimated st = false ->
  (0 <= tries st <= max_tries)%Z ->
  fuel = Z.to_nat (max_tries - tries st) ->
  (estimate_loop np src dst order test_coords max_tries atol rtol fuel st
     = Raise EstimationError /\
   forall k', fit np k' src dst order = Raise EstimationError) \/
  (exists prm k,
      estimate_loop np src dst order test_coords max_tries atol rtol fuel st
        = Ok (mk_loop k true (Some prm)) /\
      (tries st < k <= max_tries)%Z /\
      acceptable np src dst order test_coords atol rtol (Z.to_nat k) prm /\
      forall j p, (tries st < j < k)%Z ->
        ~ acceptable np src dst order test_coords atol rtol (Z.to_nat j) p) \/
  (exists f,
      estimate_loop np src dst order test_coords max_tries atol rtol fuel st
        = Ok (mk_loop max_tries false f) /\
      (f = fitted st \/ exists prm, f = Some prm) /\
      forall j p, (tries st < j <= max_tries)%Z ->
        ~ acceptable np src dst order test_coords atol rtol (Z.to_nat j) p).
Proof using Hsrc Hdst.
  revert st. induction fuel as [|fuel IH]; intros st Hest Ht Hfuel.
  - right; right. exists (fitted st).
    assert (tries st = max_tries) as Heq by lia.
    destruct st as [t e f]. cbn in *. subst t e.
    unfold loop_cond. cbn. rewrite Z.ltb_irrefl. cbn.
    split; [reflexivity|]. split; [auto|]. intros; lia.
  - cbn [estimate_loop]. unfold loop_cond.
    destruct (Z.ltb_spec (tries st) max_tries); [|lia].
    rewrite Hest. cbn [negb andb].
    destruct (loop_body_cases st)
      as [[Hb Hg] | [(f & Hb & Hf & Hna) | [(prm & Hb & Hacc) | Habs]]];
      [| | |congruence]; rewrite Hb; cbn.
    + left. auto.
    + destruct (IH (mk_loop (tries st + 1) false f))
        as [[Hr Hg] | [(prm & k & Hr & Hk & Hacc & Hfirst) | (f' & Hr & Hf' & Hnone)]];
        cbn; try lia; try reflexivity.
      * left. auto.
      * right; left. exists prm, k. cbn in Hk. split; [exact Hr|].
        split; [lia|]. split; [exact Hacc|].
        intros j p Hj. destruct (Z.eq_dec j (tries st + 1)%Z) as [->|Hne].
        -- apply Hna.
        -- apply Hfirst. cbn. lia.
      * right; right. exists f'. split; [exact Hr|]. cbn in Hf', Hnone.
        split.
        -- destruct Hf' as [->|?]; [|auto]. apply Hf, Hest.
        -- intros j p Hj. destruct (Z.eq_dec j (tries st + 1)%Z) as [->|Hne].
           ++ apply Hna.
           ++ apply Hnone. lia.
    + right; left. exists prm, (tries st + 1)%Z.
      split.
      * destruct fuel; cbn; unfold loop_cond; cbn;
          rewrite andb_false_r; reflexivity.
      * split; [lia|]. split; [exact Hacc|]. intros; lia.
Qed.

End EstimateLoop.

Lemma allclose_true (a b : ndarray) (atol rtol : R) :
  allclose a b atol rtol = Ok true ->
  shape0 a = shape0 b /\ shape1 a = shape1 b /\
  forall i j, (i < shape0 a)%nat -> (j < shape1 a)%nat ->
    (Rabs (item a i j - item b i j) <= atol + rtol * Rabs (item b i j))%R.
Proof.
  unfold allclose.
  destruct (Nat.eqb_spec (shape0 a) (shape0 b)); [|discriminate].
  destruct (Nat.eqb_spec (shape1 a) (shape1 b)); [|discriminate].
  cbn [andb]. intros H. injection H as H.
  split; [assumption|]. split; [assumption|].
  intros i j Hi Hj.
  rewrite forallb_forall in H.
  specialize (H i). rewrite forallb_forall in H.
  assert (Hin : forall n k, (k < n)%nat -> In k (seq 0 n)).
  { intros n k Hk. apply in_seq. lia. }
  specialize (H (Hin _ _ Hi) j (Hin _ _ Hj)).
  unfold isclose in H.
  destruct (Rle_dec _ _) as [Hle|]; [exact Hle|discriminate].
Qed.

(** C7: with [max_tries >= 0] and point arrays of two columns,
    [Polynomial2DTransform.estimate] calls [fit] at most [max_tries] times;
    an attempt that raises [LinAlgError] or [ValueError], or whose
    parameters do not map [src] to [dst] within [atol = 1e-3] and [rtol = 0]
    while the coordinates are tested, is followed by the next one; the
    first acceptable attempt ends the loop, its parameters are stored and
    the call returns; when no attempt among the [max_tries] is acceptable
    the call raises [EstimationError]; and whenever it raises, the model is
    as it was before the call. *)
Theorem poly_estimate_retry (np : linalg) (src dst : ndarray) (order : nat)
        (test_coords : bool) (max_tries : Z) (return_params : bool)
        (self : Polynomial2DTransform.t) :
  (0 <= max_tries)%Z ->
  shape1 src = 2%nat ->
  shape1 dst = 2%nat ->
  let atol := Polynomial2DTransform.default_atol in
  let rtol := Polynomial2DTransform.default_rtol in
  let out := Polynomial2DTransform.estimate np src dst order test_coords
               max_tries return_params atol rtol self in
  ((exists st,
      Polynomial2DTransform.estimate_loop np src dst order test_coords max_tries
        atol rtol (Z.to_nat max_tries)
        (Polynomial2DTransform.mk_loop 0 false None) = Ok st /\
      (0 <= Polynomial2DTransform.tries st <= max_tries)%Z /\
      Polynomial2DTransform.loop_cond max_tries st = false) \/
  (out = (Raise EstimationError, self) /\
   forall k, Polynomial2DTransform.fit np k src dst order = Raise EstimationError)) /\
  (forall ret, out.1 = Ok ret ->
     exists k prm,
       (1 <= k <= max_tries)%Z /\
       acceptable np src dst order test_coords atol rtol (Z.to_nat k) prm /\
       (forall j p, (1 <= j < k)%Z ->
          ~ acceptable np src dst order test_coords atol rtol (Z.to_nat j) p) /\
       out.2 = Polynomial2DTransform.set_params prm self /\
       ret = (if return_params then Some prm else None) /\
       (test_coords = true ->
        exists res,
          Polynomial2DTransform.tform (Polynomial2DTransform.init_params prm) src
            = Ok res /\
          forall i j, (i < shape0 src)%nat -> (j < 2)%nat ->
            (Rabs (item res i j - item dst i j) <= 1 / 1000)%R)) /\
  (forall e, out.1 = Raise e -> e = EstimationError /\ out.2 = self) /\
  ((forall k prm, (1 <= k <= max_tries)%Z ->
      ~ acceptable np src dst order test_coords atol rtol (Z.to_nat k) prm) ->
   out = (Raise EstimationError, self)) /\
  ((exists k prm, (1 <= k <= max_tries)%Z /\
      acceptable np src dst order test_coords atol rtol (Z.to_nat k) prm) ->
   exists ret, out.1 = Ok ret).
Proof.
  intros Hmax Hsrc Hdst atol rtol out.
  pose proof (estimate_loop_cases np src dst order test_coords max_tries atol rtol
                Hsrc Hdst (Z.to_nat max_tries)
                (Polynomial2DTransform.mk_loop 0 false None) eq_refl) as Hloop.
  cbn [Polynomial2DTransform.tries Polynomial2DTransform.fitted] in Hloop.
  specialize (Hloop ltac:(lia) ltac:(f_equal; lia)).
  subst out. unfold Polynomial2DTransform.estimate.
  unfold mbind, meth_bind, lift, assign, read, mret, meth_ret.
  destruct Hloop
    as [[Hr Hg] | [(prm & k & Hr & Hk & Hacc & Hfirst) | (f & Hr & Hf & Hnone)]];
    rewrite Hr; cbn [Polynomial2DTransform.tries Polynomial2DTransform.estimated
                     Polynomial2DTransform.fitted negb andb];
    rewrite ?andb_false_r, ?Z.eqb_refl; cbn [andb fst snd].
  - (* the guards of [fit] reject the arrays *)
    split; [right; auto|]. split; [discriminate|].
    split; [intros e He; injection He as <-; auto|].
    split; [reflexivity|].
    intros (k & prm & _ & [Hfit _]). rewrite Hg in Hfit. discriminate.
  - (* an attempt was accepted *)
    split.
    { left. eexists. split; [reflexivity|]. cbn. split; [lia|].
      unfold Polynomial2DTransform.loop_cond. cbn. apply andb_false_r. }
    split.
    { intros ret Hret. exists k, prm. split; [lia|]. split; [exact Hacc|].
      split; [intros j p Hj; apply Hfirst; lia|].
      split; [destruct return_params; reflexivity|].
      split; [destruct return_params; cbn in Hret; congruence|].
      intros Htc. destruct Hacc as [_ Hgood]. specialize (Hgood Htc).
      unfold Polynomial2DTransform.fitgood in Hgood.
      destruct (Polynomial2DTransform.tform _ src) as [res|] eqn:Hres;
        cbn in Hgood; [|discriminate].
      exists res. split; [reflexivity|].
      destruct (allclose_true _ _ _ _ Hgood) as (Hs0 & Hs1 & Hall).
      intros i j Hi Hj.
      assert (Hshape : shape0 res = shape0 src /\ shape1 res = shape1 src).
      { unfold Polynomial2DTransform.tform in Hres.
        destruct (shape1 src <? 2)%nat; [discriminate|].
        destruct (Polynomial2DTransform.tform_loop _ _ _ _) as [[d n]|] eqn:Hl;
          cbn in Hres; [|discriminate].
        injection Hres as <-. apply (tform_loop_shape _ _ _ _ _ _ _ Hl). }
      destruct Hshape as [Hr0 Hr1].
      specialize (Hall i j ltac:(lia) ltac:(lia)).
      unfold atol, rtol, Polynomial2DTransform.default_atol,
        Polynomial2DTransform.default_rtol in Hall. lra. }
    split; [destruct return_params; discriminate|].
    split.
    { intros Hno. exfalso. apply (Hno k prm); [lia|exact Hacc]. }
    intros _. destruct return_params; eauto.
  - (* every attempt was used up *)
    split.
    { left. eexists. split; [reflexivity|]. cbn. split; [lia|].
      unfold Polynomial2DTransform.loop_cond. cbn. rewrite Z.ltb_irrefl.
      reflexivity. }
    split; [discriminate|].
    split; [intros e He; injection He as <-; auto|].
    split; [reflexivity|].
    intros (k & prm & Hk & Hacc). exfalso. apply (Hnone k prm); [lia|exact Hacc].
Qed.

(** ** Numbers as text *)

Lemma append_cons (c : ascii) (a b : string) :
  String c a +:+ b = String c (a +:+ b).
Proof. reflexivity. Qed.

Lemma append_nil_l (b : string) : "" +:+ b = b.
Proof. reflexivity. Qed.

Lemma append_assoc (a b c : string) : (a +:+ b) +:+ c = a +:+ (b +:+ c).
Proof.
  induction a as [|x a IH]; [reflexivity|].
  rewrite !append_cons, IH. reflexivity.
Qed.

Lemma length_append (a b : string) :
  String.length (a +:+ b) = (String.length a + String.length b)%nat.
Proof.
  induction a as [|x a IH]; [reflexivity|].
  rewrite append_cons. cbn [String.length]. rewrite IH. reflexivity.
Qed.

Lemma all_chars_append (p : ascii -> bool) (a b : string) :
  all_chars p (a +:+ b) = all_chars p a && all_chars p b.
Proof.
  induction a as [|x a IH]; [reflexivity|].
  rewrite append_cons. cbn [all_chars]. rewrite IH. apply andb_assoc.
Qed.

Lemma all_chars_impl (p q : ascii -> bool) (s : string) :
  (forall c, p c = true -> q c = true) ->
  all_chars p s = true -> all_chars q s = true.
Proof.
  intros Hpq. induction s as [|c s IH]; simpl; [reflexivity|].
  intros H. apply andb_prop in H as [H1 H2].
  rewrite (Hpq _ H1), (IH H2). reflexivity.
Qed.

Lemma digit_of_char (d : N) : (d < 10)%N -> digit_of (digit_char d) = Some d.
Proof.
  intros Hd. unfold digit_of, digit_char.
  rewrite N_ascii_embedding by lia.
  destruct (N.leb_spec 48 (48 + d)); [|lia].
  destruct (N.leb_spec (48 + d) 57); [|lia].
  cbn [andb]. f_equal. lia.
Qed.

Lemma is_digit_char (d : N) : (d < 10)%N -> is_digit (digit_char d) = true.
Proof. intros Hd. unfold is_digit. now rewrite digit_of_char. Qed.

Lemma digits_fixed_length (k : nat) (n : N) : String.length (digits_fixed k n) = k.
Proof.
  revert n. induction k as [|k IH]; intros n; [reflexivity|].
  cbn [digits_fixed]. rewrite length_append, IH. cbn [String.length]. lia.
Qed.

Lemma digits_fixed_digits (k : nat) (n : N) :
  all_chars is_digit (digits_fixed k n) = true.
Proof.
  revert n. induction k as [|k IH]; intros n; [reflexivity|].
  cbn [digits_fixed]. rewrite all_chars_append, IH. cbn [all_chars andb].
  rewrite is_digit_char; [reflexivity|]. apply N.mod_lt. lia.
Qed.

Lemma digits_val_append (acc : N) (a b : string) :
  digits_val acc (a +:+ b)
  = match digits_val acc a with
    | Some v => digits_val v b
    | None => None
    end.
Proof.
  revert acc. induction a as [|c a IH]; intros acc; [reflexivity|].
  rewrite append_cons. cbn [digits_val].
  destruct (digit_of c); [apply IH|reflexivity].
Qed.

Lemma digits_val_fixed (k : nat) (n acc : N) :
  digits_val acc (digits_fixed k n) = Some (acc * 10 ^ N.of_nat k + n mod 10 ^ N.of_nat k)%N.
Proof.
  revert n acc. induction k as [|k IH]; intros n acc.
  - simpl. f_equal. rewrite N.mod_1_r. lia.
  - cbn [digits_fixed]. rewrite digits_val_append, IH. cbn [digits_val].
    rewrite digit_of_char by (apply N.mod_lt; lia).
    f_equal. rewrite Nat2N.inj_succ, N.pow_succ_r'.
    set (P := (10 ^ N.of_nat k)%N).
    assert (HP : (P <> 0)%N) by (apply N.pow_nonzero; lia).
    rewrite N.Div0.mod_mul_r.
    lia.
Qed.

Lemma num_digits_aux_bound (fuel : nat) (n : N) :
  (n < 2 ^ N.of_nat fuel)%N ->
  (n < 10 ^ N.of_nat (num_digits_aux fuel n))%N /\ (1 <= num_digits_aux fuel n)%nat.
Proof.
  revert n. induction fuel as [|fuel IH]; intros n Hn.
  - simpl in *. lia.
  - cbn [num_digits_aux]. destruct (N.ltb_spec n 10) as [H|H].
    + simpl. lia.
    + assert (Hdiv : (n / 10 < 2 ^ N.of_nat fuel)%N).
      { rewrite Nat2N.inj_succ, N.pow_succ_r' in Hn.
        apply N.Div0.div_lt_upper_bound. lia. }
      destruct (IH _ Hdiv) as [Hb Hk]. split; [|lia].
      rewrite Nat2N.inj_succ, N.pow_succ_r'.
      pose proof (N.div_mod n 10 ltac:(lia)) as Hdm.
      pose proof (N.mod_lt n 10 ltac:(lia)).
      lia.
Qed.

Lemma num_digits_bound (n : N) :
  (n < 10 ^ N.of_nat (num_digits n))%N /\ (1 <= num_digits n)%nat.
Proof.
  apply num_digits_aux_bound.
  rewrite N2Nat.id. apply N.size_gt.
Qed.

Lemma decimal_val (n : N) : digits_val 0 (decimal n) = Some n.
Proof.
  unfold decimal. rewrite digits_val_fixed.
  destruct (num_digits_bound n) as [Hb _].
  rewrite N.mod_small by exact Hb. reflexivity.
Qed.

Lemma decimal_digits (n : N) : all_chars is_digit (decimal n) = true.
Proof. apply digits_fixed_digits. Qed.

Lemma decimal_nonempty (n : N) : decimal n <> "".
Proof.
  intros H. apply (f_equal String.length) in H.
  unfold decimal in H. rewrite digits_fixed_length in H.
  destruct (num_digits_bound n) as [_ Hk]. simpl in H. lia.
Qed.

(** *** Cutting at a character *)

Lemma break_at_none (p : ascii -> bool) (s : string) :
  all_chars (fun c => negb (p c)) s = true -> break_at p s = (s, None).
Proof.
  induction s as [|c s IH]; [reflexivity|].
  cbn [all_chars break_at]. intros H. apply andb_prop in H as [H1 H2].
  apply negb_true_iff in H1. rewrite H1, (IH H2). reflexivity.
Qed.

Lemma break_at_first (p : ascii -> bool) (a b : string) (c : ascii) :
  all_chars (fun c => negb (p c)) a = true -> p c = true ->
  break_at p (a +:+ String c b) = (a, Some b).
Proof.
  intros Ha Hc. induction a as [|x a IH].
  - rewrite append_nil_l. cbn [break_at]. rewrite Hc. reflexivity.
  - cbn [all_chars] in Ha. apply andb_prop in Ha as [H1 H2].
    apply negb_true_iff in H1.
    rewrite append_cons. cbn [break_at]. rewrite H1, (IH H2). reflexivity.
Qed.

Lemma digit_not_special (c : ascii) :
  is_digit c = true ->
  is_dot c = false /\ is_exp c = false /\ is_space c = false /\
  Ascii.eqb c "-" = false /\ Ascii.eqb c "+" = false.
Proof.
  unfold is_digit, digit_of. intros H.
  destruct (N.leb_spec 48 (N_of_ascii c)); [|discriminate].
  destruct (N.leb_spec (N_of_ascii c) 57); [|discriminate].
  assert (Hne : forall d : ascii,
             (N_of_ascii d <? 48)%N || (57 <? N_of_ascii d)%N = true ->
             Ascii.eqb c d = false).
  { intros d Hd. apply Ascii.eqb_neq. intros ->.
    apply orb_prop in Hd as [Hd|Hd]; apply N.ltb_lt in Hd; lia. }
  unfold is_dot, is_exp, is_space.
  rewrite !Hne by reflexivity.
  repeat split.
  destruct (N.eqb_spec (N_of_ascii c) 32); [lia|].
  destruct (N.leb_spec (N_of_ascii c) 13); [lia|].
  rewrite andb_false_r. reflexivity.
Qed.

(** *** Rounding *)

Lemma abs_le_inv (a b : R) : (Rabs a <= b)%R -> (- b <= a <= b)%R.
Proof. unfold Rabs. destruct (Rcase_abs a); lra. Qed.

Lemma round_half_even_error (y : R) :
  (Rabs (IZR (round_half_even y) - y) <= 1 / 2)%R.
Proof.
  unfold round_half_even.
  pose proof (base_fp y) as [Hf0 Hf1].
  unfold frac_part in *.
  set (n := Int_part y) in *.
  destruct (Rlt_dec (y - IZR n) (1 / 2)) as [Hlt|Hge].
  - apply Rabs_le. lra.
  - destruct (Rlt_dec (1 / 2) (y - IZR n)) as [Hgt|Hle].
    + rewrite plus_IZR. apply Rabs_le. lra.
    + destruct (Z.even n); [|rewrite plus_IZR]; apply Rabs_le; lra.
Qed.

Lemma round_half_even_sign (y : R) :
  ((y < 0)%R -> (round_half_even y <= 0)%Z) /\
  ((0 <= y)%R -> (0 <= round_half_even y)%Z).
Proof.
  pose proof (round_half_even_error y) as H.
  apply abs_le_inv in H.
  split; intros Hy.
  - assert (Hlt : (IZR (round_half_even y) < IZR 1)%R) by lra.
    apply lt_IZR in Hlt. lia.
  - assert (Hlt : (IZR (-1) < IZR (round_half_even y))%R) by lra.
    apply lt_IZR in Hlt. lia.
Qed.

Lemma round10_error (x : R) : (Rabs (round10 x - x) <= 5 / 10 ^ 11)%R.
Proof.
  unfold round10.
  pose proof (round_half_even_error (x * 10 ^ 10)) as H.
  apply abs_le_inv in H. apply Rabs_le.
  assert (H10 : (10 ^ 10 = 10000000000)%R) by lra.
  assert (H11 : (10 ^ 11 = 100000000000)%R) by lra.
  rewrite H10 in *. rewrite H11.
  split.
  - apply Rmult_le_reg_r with 10000000000%R; [lra|].
    field_simplify. lra.
  - apply Rmult_le_reg_r with 10000000000%R; [lra|].
    field_simplify. lra.
Qed.

Lemma format_10f_shape (x : R) : fixed10 (format_10f x).
Proof.
  unfold fixed10, format_10f. do 3 eexists. split; [reflexivity|].
  split; [destruct (Rlt_dec x 0); auto|].
  split; [apply decimal_nonempty|].
  split; [apply decimal_digits|].
  split; [apply digits_fixed_digits|apply digits_fixed_length].
Qed.

(** [float] reads back the rounded value that ["%.10f"] printed. *)
Lemma float_of_format_10f (x : R) :
  float_of_string (format_10f x) = Ok (round10 x).
Proof.
  unfold format_10f, round10.
  set (n := round_half_even (x * 10 ^ 10)).
  set (m := Z.to_N (Z.abs n)).
  set (q := (m / 10 ^ 10)%N). set (r := (m mod 10 ^ 10)%N).
  set (body := decimal q +:+ "." +:+ digits_fixed 10 r).
  assert (Hq : exists c rest, decimal q = String c rest /\ is_digit c = true).
  { pose proof (decimal_digits q) as Hd. pose proof (decimal_nonempty q) as Hn.
    destruct (decimal q) as [|c rest]; [congruence|].
    cbn [all_chars] in Hd. apply andb_prop in Hd as [Hc _]. eauto. }
  assert (Hsign : float_of_string body
                  = Ok (IZR (Z.of_N m) / 10 ^ 10)%R /\
                  take_sign body = (false, body)).
  { destruct Hq as (c & rest & Hc & Hdig).
    assert (Hts : take_sign body = (false, body)).
    { unfold body. rewrite Hc, append_cons. unfold take_sign.
      destruct (digit_not_special c Hdig) as (_ & _ & _ & -> & ->). reflexivity. }
    split; [|exact Hts].
    unfold float_of_string. rewrite Hts.
    assert (Hnoexp : all_chars (fun c => negb (is_exp c)) body = true).
    { unfold body. rewrite !all_chars_append. cbn [all_chars].
      rewrite (all_chars_impl is_digit _ _ (fun c H => proj2 (negb_true_iff _)
                 (proj1 (proj2 (digit_not_special c H)))) (decimal_digits q)).
      rewrite (all_chars_impl is_digit _ _ (fun c H => proj2 (negb_true_iff _)
                 (proj1 (proj2 (digit_not_special c H)))) (digits_fixed_digits 10 r)).
      reflexivity. }
    rewrite (break_at_none _ _ Hnoexp).
    assert (Hdot : break_at is_dot body = (decimal q, Some (digits_fixed 10 r))).
    { unfold body. apply break_at_first; [|reflexivity].
      apply (all_chars_impl is_digit); [|apply decimal_digits].
      intros c' H. apply negb_true_iff. apply (digit_not_special c' H). }
    rewrite Hdot. unfold mantissa_val. rewrite Hc, <- Hc.
    rewrite decimal_val, digits_val_fixed, digits_fixed_length.
    cbn [exponent_val powerRZ]. f_equal.
    change (0 * 10 ^ N.of_nat 10 + r mod 10 ^ N.of_nat 10)%N
      with (0 + r mod 10 ^ 10)%N.
    rewrite N.add_0_l. unfold r. rewrite N.Div0.mod_mod. fold r.
    pose proof (N.div_mod m (10 ^ 10) ltac:(discriminate)) as Hdm.
    fold q r in Hdm.
    assert (HR : (IZR (Z.of_N m)
                  = IZR (Z.of_N q) * 10000000000 + IZR (Z.of_N r))%R).
    { rewrite <- mult_IZR, <- plus_IZR. f_equal. lia. }
    rewrite HR. assert (H10 : (10 ^ 10 = 10000000000)%R) by lra.
    rewrite H10. field. }
  destruct Hsign as [Hbody Hts].
  destruct (round_half_even_sign (x * 10 ^ 10)) as [Hneg Hpos]. fold n in Hneg, Hpos.
  assert (H10 : (0 < 10 ^ 10)%R) by lra.
  destruct (Rlt_dec x 0) as [Hx|Hx].
  - change ("-" +:+ body) with (String "-" body).
    unfold float_of_string. cbn [take_sign Ascii.eqb Bool.eqb andb].
    unfold float_of_string in Hbody. rewrite Hts in Hbody.
    destruct (break_at is_exp body) as [mant e].
    destruct (break_at is_dot mant) as [ip fp].
    destruct (mantissa_val ip fp) as [v|]; [|discriminate].
    destruct (exponent_val e) as [k|]; [|discriminate].
    injection Hbody as Hv. f_equal.
    assert (Hn : (n <= 0)%Z) by (apply Hneg; nra).
    replace (IZR n) with (- IZR (Z.of_N m))%R
      by (rewrite <- opp_IZR; f_equal; lia).
    lra.
  - rewrite append_nil_l. rewrite Hbody. f_equal.
    assert (Hn : (0 <= n)%Z) by (apply Hpos; nra).
    do 2 f_equal. lia.
Qed.

(** *** Splitting at white space *)

Lemma split_ws_single (w : string) :
  w <> "" -> all_chars not_space w = true -> split_ws w = [w].
Proof.
  induction w as [|a w IH]; [congruence|]. intros _ H.
  cbn [all_chars] in H. apply andb_prop in H as [Ha Hw].
  unfold not_space in Ha. apply negb_true_iff in Ha.
  cbn [split_ws]. rewrite Ha.
  destruct w as [|b w']; [reflexivity|].
  pose proof Hw as Hw'. cbn [all_chars] in Hw'. apply andb_prop in Hw' as [Hb _].
  unfold not_space in Hb. apply negb_true_iff in Hb. rewrite Hb.
  rewrite IH by (congruence || assumption). reflexivity.
Qed.

Lemma split_ws_token (w rest : string) :
  w <> "" -> all_chars not_space w = true ->
  split_ws (w +:+ String " " rest) = w :: split_ws rest.
Proof.
  induction w as [|a w IH]; [congruence|]. intros _ H.
  cbn [all_chars] in H. apply andb_prop in H as [Ha Hw].
  unfold not_space in Ha. apply negb_true_iff in Ha.
  rewrite append_cons. cbn [split_ws]. rewrite Ha.
  destruct w as [|b w'].
  - rewrite append_nil_l. cbn [split_ws is_space]. reflexivity.
  - pose proof Hw as Hw'. cbn [all_chars] in Hw'. apply andb_prop in Hw' as [Hb _].
    unfold not_space in Hb. apply negb_true_iff in Hb.
    rewrite append_cons, Hb. rewrite <- append_cons.
    rewrite IH by (congruence || assumption). reflexivity.
Qed.

Lemma format_10f_token (x : R) :
  format_10f x <> "" /\ all_chars not_space (format_10f x) = true.
Proof.
  destruct (format_10f_shape x) as (sign & ip & fp & -> & Hs & Hip & Hd & Hf & _).
  assert (Hns : forall s, all_chars is_digit s = true -> all_chars not_space s = true).
  { intros s. apply all_chars_impl. intros c H. unfold not_space.
    apply negb_true_iff. apply (digit_not_special c H). }
  split.
  - intros H. apply (f_equal String.length) in H.
    rewrite !length_append in H. cbn in H.
    destruct ip; [congruence|]. cbn in H. lia.
  - rewrite !all_chars_append, (Hns _ Hd), (Hns _ Hf).
    destruct Hs as [-> | ->]; reflexivity.
Qed.

(** The text form of an affine model is cut into its six numbers. *)
Lemma split_ws_dataString (A : AffineModel.t) :
  split_ws (AffineModel.dataString A)
  = format_10f <$> [m00 (AffineModel.M A); m10 (AffineModel.M A);
                    m01 (AffineModel.M A); m11 (AffineModel.M A);
                    m02 (AffineModel.M A); m12 (AffineModel.M A)].
Proof.
  unfold AffineModel.dataString.
  repeat match goal with
         | |- context [?t +:+ " " +:+ ?rest] =>
             change (t +:+ " " +:+ rest) with (t +:+ String " " rest)
         end.
  rewrite !split_ws_token by apply format_10f_token.
  rewrite split_ws_single by apply format_10f_token.
  reflexivity.
Qed.

(** The decoder applied to the text form of [A] stores the rounded entries
    of [A.M]. *)
Lemma process_dataString_of_dataString (A self : AffineModel.t) :
  AffineModel._process_dataString (JStr (AffineModel.dataString A)) self
  = (Ok tt,
     AffineModel.load_M
       (AffineModel.mk
          (round10 (m00 (AffineModel.M A))) (round10 (m01 (AffineModel.M A)))
          (round10 (m10 (AffineModel.M A))) (round10 (m11 (AffineModel.M A)))
          (round10 (m02 (AffineModel.M A))) (round10 (m12 (AffineModel.M A)))
          (AffineModel.M self) (AffineModel.className self)
          (AffineModel.transformId self))).
Proof.
  unfold AffineModel._process_dataString.
  rewrite split_ws_dataString.
  cbn [fmap list_fmap list_item nth_error].
  unfold mbind, meth_bind, result_bind, lift, assign.
  rewrite !float_of_format_10f.
  reflexivity.
Qed.

(** The dictionary form of an affine model decodes again. *)
Lemma init_json_to_dict (A : AffineModel.t) :
  AffineModel.init_json (AffineModel.to_dict A)
  = Ok (AffineModel.load_M
          (AffineModel.mk
             (round10 (m00 (AffineModel.M A))) (round10 (m01 (AffineModel.M A)))
             (round10 (m10 (AffineModel.M A))) (round10 (m11 (AffineModel.M A)))
             (round10 (m02 (AffineModel.M A))) (round10 (m12 (AffineModel.M A)))
             identity3 (AffineModel.className A) (AffineModel.transformId A))).
Proof.
  unfold AffineModel.init_json, AffineModel.from_dict.
  assert (Hcn : AffineModel.to_dict A !! "className" = Some (AffineModel.className A)).
  { unfold AffineModel.to_dict.
    destruct (AffineModel.transformId A);
      rewrite ?(lookup_insert_ne _ "transformId") by discriminate;
      rewrite lookup_insert_ne by discriminate; apply lookup_insert_eq. }
  assert (Hds : AffineModel.to_dict A !! "dataString"
                = Some (JStr (AffineModel.dataString A))).
  { unfold AffineModel.to_dict.
    destruct (AffineModel.transformId A);
      rewrite ?(lookup_insert_ne _ "transformId") by discriminate;
      apply lookup_insert_eq. }
  assert (Htid : dict_get (AffineModel.to_dict A) "transformId" JNull
                 = AffineModel.transformId A).
  { unfold AffineModel.to_dict, dict_get.
    destruct (AffineModel.transformId A); rewrite ?lookup_insert_eq;
      rewrite ?lookup_insert_ne by discriminate; reflexivity. }
  unfold mbind, meth_bind, lift, assign, dict_item.
  rewrite Hcn, Hds, Htid.
  rewrite process_dataString_of_dataString. reflexivity.
Qed.

(** C8: the text form of an affine model is six numbers separated by
    single spaces, each printed with exactly ten fractional digits, in the
    order [M[0,0] M[1,0] M[0,1] M[1,1] M[0,2] M[1,2]]; the decoder cuts it
    into these six numbers, assigns them to [M00 M10 M01 M11 B0 B1] and
    rebuilds the matrix, so that decoding the encoded model gives the
    entries rounded at the tenth fractional digit, each within [5e-11] of
    the original when the last row of the original is [0 0 1]. *)
Theorem affine_dataString_roundtrip (A self : AffineModel.t) :
  let a := AffineModel.M A in
  let tokens := format_10f <$> [m00 a; m10 a; m01 a; m11 a; m02 a; m12 a] in
  let rounded :=
    mk_mat3 (round10 (m00 a)) (round10 (m01 a)) (round10 (m02 a))
            (round10 (m10 a)) (round10 (m11 a)) (round10 (m12 a))
            0 0 1 in
  AffineModel.dataString A = join " " tokens /\
  Forall fixed10 tokens /\
  split_ws (AffineModel.dataString A) = tokens /\
  (let out := AffineModel._process_dataString
                (JStr (AffineModel.dataString A)) self in
   out.1 = Ok tt /\
   AffineModel.M00 out.2 = round10 (m00 a) /\
   AffineModel.M10 out.2 = round10 (m10 a) /\
   AffineModel.M01 out.2 = round10 (m01 a) /\
   AffineModel.M11 out.2 = round10 (m11 a) /\
   AffineModel.B0 out.2 = round10 (m02 a) /\
   AffineModel.B1 out.2 = round10 (m12 a) /\
   AffineModel.M out.2 = rounded) /\
  (exists A',
      AffineModel.init_json (AffineModel.to_dict A) = Ok A' /\
      AffineModel.M A' = rounded /\
      AffineModel.className A' = AffineModel.className A /\
      AffineModel.transformId A' = AffineModel.transformId A) /\
  (forall x, (Rabs (round10 x - x) <= 5 / 10 ^ 11)%R) /\
  (AffineModel.homogeneous A ->
   forall r c, (Rabs (mat3_get rounded r c - mat3_get a r c) <= 5 / 10 ^ 11)%R).
Proof.
  intros a tokens rounded.
  split; [reflexivity|].
  split; [repeat constructor; apply format_10f_shape|].
  split; [apply split_ws_dataString|].
  split; [rewrite process_dataString_of_dataString; repeat split|].
  split.
  { eexists. split; [apply init_json_to_dict|]. repeat split. }
  split; [apply round10_error|].
  intros (H20 & H21 & H22) r c.
  assert (H0 : (Rabs (0 - 0) <= 5 / 10 ^ 11)%R).
  { rewrite Rminus_diag, Rabs_R0. lra. }
  assert (H1 : (Rabs (1 - 1) <= 5 / 10 ^ 11)%R).
  { rewrite Rminus_diag, Rabs_R0. lra. }
  destruct r as [|[|[|r]]], c as [|[|[|c]]]; cbn [mat3_get rounded];
    try apply round10_error; try exact H0;
    subst a; rewrite ?H20, ?H21, ?H22; cbn; assumption.
Qed.

Lemma affine_dataString_roundtrip_witness :
  AffineModel.homogeneous quarter_turn /\
  split_ws (AffineModel.dataString quarter_turn)
    = format_10f <$> [0; 2; -2; 0; 3; 4]%R /\
  forall r c,
    (Rabs (mat3_get (mk_mat3 (round10 0) (round10 (-2)) (round10 3)
                             (round10 2) (round10 0) (round10 4) 0 0 1) r c
           - mat3_get (AffineModel.M quarter_turn) r c) <= 5 / 10 ^ 11)%R.
Proof.
  assert (H : AffineModel.homogeneous quarter_turn) by (repeat split).
  split; [exact H|].
  destruct (affine_dataString_roundtrip quarter_turn AffineModel.default)
    as (_ & _ & Hsplit & _ & _ & _ & Hclose).
  split; [exact Hsplit|]. exact (Hclose H).
Defined.

(** ** Collapse of a chain of affine models *)

Lemma mat3_eq (a b : mat3) :
  m00 a = m00 b -> m01 a = m01 b -> m02 a = m02 b ->
  m10 a = m10 b -> m11 a = m11 b -> m12 a = m12 b ->
  m20 a = m20 b -> m21 a = m21 b -> m22 a = m22 b -> a = b.
Proof. destruct a, b. simpl. intros. subst. reflexivity. Qed.

Lemma concatenate_assoc (a b c : AffineModel.t) :
  AffineModel.M (AffineModel.concatenate a (AffineModel.concatenate b c))
  = AffineModel.M (AffineModel.concatenate (AffineModel.concatenate a b) c).
Proof. apply mat3_eq; simpl; ring. Qed.

Lemma concatenate_default_r (a : AffineModel.t) :
  AffineModel.homogeneous a ->
  AffineModel.M (AffineModel.concatenate a AffineModel.default) = AffineModel.M a.
Proof. intros (H0 & H1 & H2). apply mat3_eq; simpl; try ring; congruence. Qed.

Lemma concatenate_default_l (a : AffineModel.t) :
  AffineModel.homogeneous a ->
  AffineModel.M (AffineModel.concatenate AffineModel.default a) = AffineModel.M a.
Proof. intros (H0 & H1 & H2). apply mat3_eq; simpl; try ring; congruence. Qed.

(** [concatenate] reads nothing but the matrices of its arguments. *)
Lemma concatenate_ext (a a' b b' : AffineModel.t) :
  AffineModel.M a = AffineModel.M a' -> AffineModel.M b = AffineModel.M b' ->
  AffineModel.concatenate a b = AffineModel.concatenate a' b'.
Proof. intros Ha Hb. unfold AffineModel.concatenate. rewrite Ha, Hb. reflexivity. Qed.

Lemma chain_homogeneous (l : list pyobj) (acc : AffineModel.t) :
  AffineModel.homogeneous acc ->
  AffineModel.homogeneous
    (fold_left (fun acc o => AffineModel.concatenate (member_model o) acc) l acc).
Proof.
  revert acc. induction l as [|o l IH]; intros acc Hacc; simpl; [exact Hacc|].
  apply IH. apply concatenate_homogeneous.
Qed.

Lemma member_homogeneous (o : pyobj) :
  affine_member o -> AffineModel.homogeneous (member_model o).
Proof. destruct o; simpl; tauto. Qed.

(** Folding from an accumulator is concatenating the chain to it. *)
Lemma chain_fold (l : list pyobj) (acc : AffineModel.t) :
  Forall affine_member l ->
  AffineModel.homogeneous acc ->
  AffineModel.M
    (fold_left (fun acc o => AffineModel.concatenate (member_model o) acc) l acc)
  = AffineModel.M (AffineModel.concatenate (concatenate_chain l) acc).
Proof.
  intros Hl. revert acc. induction Hl as [|o l Ho Hl IH]; intros acc Hacc.
  - simpl fold_left. unfold concatenate_chain. simpl fold_left.
    symmetry. apply concatenate_default_l, Hacc.
  - unfold concatenate_chain at 1. simpl fold_left.
    rewrite IH by apply concatenate_homogeneous.
    fold (concatenate_chain l).
    rewrite (concatenate_ext
               (fold_left (fun acc o => AffineModel.concatenate (member_model o) acc)
                          l (AffineModel.concatenate (member_model o)
                                                     AffineModel.default))
               (AffineModel.concatenate (concatenate_chain l)
                  (AffineModel.concatenate (member_model o) AffineModel.default))
               acc acc
               (IH _ (concatenate_homogeneous _ _)) eq_refl).
    rewrite <- concatenate_assoc.
    f_equal. apply concatenate_ext; [reflexivity|].
    f_equal. apply concatenate_ext; [|reflexivity].
    symmetry. apply concatenate_default_r, member_homogeneous, Ho.
Qed.

Lemma chain_app (l1 l2 : list pyobj) :
  Forall affine_member l1 -> Forall affine_member l2 ->
  AffineModel.M (concatenate_chain (l1 ++ l2))
  = AffineModel.M (AffineModel.concatenate (concatenate_chain l2)
                                           (concatenate_chain l1)).
Proof.
  intros H1 H2. unfold concatenate_chain at 1. rewrite fold_left_app.
  apply chain_fold; [exact H2|]. apply chain_homogeneous. repeat split.
Qed.

Lemma maps_by_compose (a b : AffineModel.t) (p q r : ndarray) :
  maps_by (AffineModel.M b) p q -> maps_by (AffineModel.M a) q r ->
  maps_by (AffineModel.M (AffineModel.concatenate a b)) p r.
Proof.
  intros (Hq0 & Hq1 & Hq) (Hr0 & Hr1 & Hr).
  split; [congruence|]. split; [exact Hr1|].
  intros i. destruct (Hq i) as [Hx Hy], (Hr i) as [Hx' Hy'].
  rewrite Hx', Hy', Hx, Hy. simpl. split; ring.
Qed.

Lemma affine_tform_maps (a : AffineModel.t) (p : ndarray) :
  AffineModel.homogeneous a -> shape1 p = 2%nat ->
  exists q, AffineModel.tform a p = Ok q /\ maps_by (AffineModel.M a) p q.
Proof.
  intros (H0 & H1 & H2) Hp.
  unfold AffineModel.tform, AffineModel.convert_to_point_vector.
  rewrite Hp. simpl. eexists. split; [reflexivity|].
  split; [reflexivity|]. split; [reflexivity|].
  intros i. simpl. rewrite H0, H1, H2. split; field.
Qed.

Lemma maps_by_ext (m m' : mat3) (p q : ndarray) :
  m = m' -> maps_by m p q -> maps_by m' p q.
Proof. intros ->. auto. Qed.

Lemma maps_by_id (p : ndarray) :
  shape1 p = 2%nat -> maps_by (AffineModel.M AffineModel.default) p p.
Proof. intros Hp. repeat split; simpl; try assumption; ring. Qed.

(** Induction on chains: members and lists of members together. *)
Lemma tnode_list_ind (P : tnode -> Prop) (Q : list tnode -> Prop) :
  (forall o, P (Leaf o)) ->
  (forall l, Q l -> P (Nested l)) ->
  Q [] ->
  (forall n l, P n -> Q l -> Q (n :: l)) ->
  forall n, P n.
Proof.
  intros Hleaf Hnested Hnil Hcons.
  fix IH 1. intros [o|l].
  - apply Hleaf.
  - apply Hnested. induction l as [|n l IHl].
    + exact Hnil.
    + apply Hcons; [apply IH|exact IHl].
Qed.

(** A chain of affine members maps the points by the matrix of their
    concatenation. *)
Lemma affine_chain_maps (n : tnode) :
  Forall affine_member (flatten_node n) ->
  forall p, shape1 p = 2%nat ->
  exists q, estimate_dstpts_node n p = Ok q /\
            maps_by (AffineModel.M (concatenate_chain (flatten_node n))) p q.
Proof.
  induction n as [o|l IH| |n l IHn IHl]
    using tnode_list_ind
    with (Q := fun l =>
                 Forall affine_member (flatten_node (Nested l)) ->
                 forall p, shape1 p = 2%nat ->
                 exists q, estimate_dstpts_node (Nested l) p = Ok q /\
                           maps_by (AffineModel.M
                                      (concatenate_chain (flatten_node (Nested l))))
                                   p q).
  - intros Ho p Hp. simpl in Ho. apply Forall_inv in Ho.
    assert (Hh := member_homogeneous o Ho).
    assert (Ht : obj_tform o p = AffineModel.tform (member_model o) p).
    { destruct o; simpl in Ho; try tauto; reflexivity. }
    simpl. rewrite Ht.
    destruct (affine_tform_maps _ p Hh Hp) as (q & Hq & Hm).
    exists q. split; [exact Hq|].
    eapply maps_by_ext; [|exact Hm].
    unfold concatenate_chain. simpl. symmetry.
    apply concatenate_default_r, Hh.
  - exact IH.
  - intros _ p Hp. exists p. split; [reflexivity|]. apply maps_by_id, Hp.
  - intros Hall p Hp.
    change (flatten_node (Nested (n :: l)))
      with (flatten_node n ++ flatten_node (Nested l)) in *.
    apply Forall_app in Hall as [Hn Hl].
    destruct (IHn Hn p Hp) as (q1 & Hq1 & Hm1).
    assert (Hq1s : shape1 q1 = 2%nat) by apply Hm1.
    destruct (IHl Hl q1 Hq1s) as (q2 & Hq2 & Hm2).
    exists q2. split.
    + simpl. simpl in Hq2. rewrite Hq1. simpl. exact Hq2.
    + eapply maps_by_ext; [symmetry; apply chain_app; assumption|].
      eapply maps_by_compose; eassumption.
Qed.

(** *** The least-squares system of the affine fit *)

Lemma big_sum_nonneg (n : nat) (f : nat -> R) :
  (forall i, (i < n)%nat -> (0 <= f i)%R) -> (0 <= big_sum n f)%R.
Proof.
  induction n as [|n IH]; intros H; simpl; [lra|].
  specialize (IH (fun i Hi => H i (Nat.lt_lt_succ_r _ _ Hi))).
  specialize (H n (Nat.lt_succ_diag_r n)). lra.
Qed.

Lemma big_sum_zero_terms (n : nat) (f : nat -> R) :
  (forall i, (i < n)%nat -> (0 <= f i)%R) -> (big_sum n f <= 0)%R ->
  forall i, (i < n)%nat -> f i = 0%R.
Proof.
  induction n as [|n IH]; intros H Hle i Hi; [lia|].
  simpl in Hle.
  pose proof (big_sum_nonneg n f (fun i Hi => H i (Nat.lt_lt_succ_r _ _ Hi))) as Hn.
  pose proof (H n (Nat.lt_succ_diag_r n)) as Hfn.
  destruct (Nat.eq_dec i n) as [->|Hne]; [lra|].
  apply IH; [intros j Hj; apply H; lia|lra|lia].
Qed.

Lemma big_sum_all_zero (n : nat) (f : nat -> R) :
  (forall i, (i < n)%nat -> f i = 0%R) -> big_sum n f = 0%R.
Proof.
  induction n as [|n IH]; intros H; simpl; [reflexivity|].
  rewrite IH by (intros i Hi; apply H; lia). rewrite H by lia. lra.
Qed.

Lemma fit_system_fold (A B : ndarray) (k : nat) (M0 Y0 : ndarray) :
  let MY :=
    fold_left
      (fun '(M, Y) i =>
         let M := set_row M (2 * i) [item A i 0; item A i 1; 0; 0; 1; 0]%R in
         let M := set_row M (2 * i + 1) [0; 0; item A i 0; item A i 1; 0; 1]%R in
         let Y := set_row Y (2 * i) [item B i 0] in
         let Y := set_row Y (2 * i + 1) [item B i 1] in
         (M, Y))
      (seq 0 k) (M0, Y0) in
  shape0 MY.1 = shape0 M0 /\ shape1 MY.1 = shape1 M0 /\
  shape0 MY.2 = shape0 Y0 /\ shape1 MY.2 = shape1 Y0 /\
  system_rows A B MY.1 MY.2 k.
Proof.
  induction k as [|k IH].
  - simpl. repeat split; intros; lia.
  - rewrite seq_S, fold_left_app. cbv zeta in IH |- *.
    destruct (fold_left _ (seq 0 k) (M0, Y0)) as [M Y].
    destruct IH as (H0 & H1 & H2 & H3 & Hrows).
    cbn [fst snd] in *. cbn [fold_left fst snd set_row shape0 shape1].
    split; [exact H0|]. split; [exact H1|]. split; [exact H2|].
    split; [exact H3|].
    intros i Hi.
    assert (Hold : (i < k)%nat ->
              (forall c, item M (2 * i) c
                         = nth c [item A i 0; item A i 1; 0; 0; 1; 0]%R 0%R) /\
              (forall c, item M (2 * i + 1) c
                         = nth c [0; 0; item A i 0; item A i 1; 0; 1]%R 0%R) /\
              item Y (2 * i) 0 = item B i 0 /\
              item Y (2 * i + 1) 0 = item B i 1) by apply Hrows.
    clear Hrows.
    unfold set_row; cbn [item fst snd].
    destruct (Nat.eq_dec i k) as [->|Hne].
    + clear Hold.
      repeat match goal with
             | |- context [Nat.eqb ?a ?b] => destruct (Nat.eqb_spec a b); try lia
             end.
      repeat split.
    + destruct (Hold ltac:(lia)) as (R1 & R2 & R3 & R4).
      repeat match goal with
             | |- context [Nat.eqb ?a ?b] => destruct (Nat.eqb_spec a b); try lia
             end.
      repeat split; assumption.
Qed.

Lemma fit_system_rows (A B : ndarray) :
  shape0 (AffineModel.fit_system A B).1 = (2 * shape0 A)%nat /\
  shape1 (AffineModel.fit_system A B).1 = 6%nat /\
  system_rows A B (AffineModel.fit_system A B).1 (AffineModel.fit_system A B).2
              (shape0 A).
Proof.
  unfold AffineModel.fit_system.
  pose proof (fit_system_fold A B (shape0 A) (zeros (2 * shape0 A) 6)
                (zeros (2 * shape0 A) 1)) as H.
  cbv zeta in H. destruct H as (H0 & H1 & _ & _ & Hrows).
  split; [exact H0|]. split; [exact H1|exact Hrows].
Qed.

(** The two residual terms of the [i]-th point pair. *)
Lemma residual_rows (A B : ndarray) (theta : nat -> R) (i : nat) :
  (i < shape0 A)%nat ->
  let M := (AffineModel.fit_system A B).1 in
  let Y := (AffineModel.fit_system A B).2 in
  (big_sum (shape1 M) (fun c => item M (2 * i) c * theta c) - item Y (2 * i) 0
   = theta 0%nat * item A i 0 + theta 1%nat * item A i 1 + theta 4%nat
     - item B i 0)%R /\
  (big_sum (shape1 M) (fun c => item M (2 * i + 1) c * theta c)
   - item Y (2 * i + 1) 0
   = theta 2%nat * item A i 0 + theta 3%nat * item A i 1 + theta 5%nat
     - item B i 1)%R.
Proof.
  intros Hi M Y. destruct (fit_system_rows A B) as (_ & H1 & Hrows).
  destruct (Hrows i Hi) as (R1 & R2 & R3 & R4).
  subst M Y. rewrite H1, R3, R4. cbn [big_sum].
  rewrite !R1, !R2. cbn [nth]. split; ring.
Qed.

Lemma residual_nonneg (M Y : ndarray) (theta : nat -> R) :
  (0 <= residual M Y theta)%R.
Proof.
  unfold residual. apply big_sum_nonneg. intros i _. apply pow2_ge_0.
Qed.

(** The parameters of a map that sends [src] to [dst] leave no residual. *)
Lemma residual_exact (m : mat3) (src dst : ndarray) :
  maps_by m src dst ->
  residual (AffineModel.fit_system src dst).1 (AffineModel.fit_system src dst).2
           (params_of m) = 0%R.
Proof.
  intros (_ & _ & Hm). unfold residual.
  apply big_sum_all_zero. intros r Hr.
  destruct (fit_system_rows src dst) as (H0 & _ & _). rewrite H0 in Hr.
  destruct (Nat.Even_or_Odd r) as [[i ->]|[i ->]].
  - destruct (residual_rows src dst (params_of m) i ltac:(lia)) as [-> _].
    destruct (Hm i) as [-> _]. unfold params_of. cbn [nth]. ring.
  - destruct (residual_rows src dst (params_of m) i ltac:(lia)) as [_ ->].
    destruct (Hm i) as [_ ->]. unfold params_of. cbn [nth]. ring.
Qed.

(** With three points that are not on one line, a least-squares solution
    of the system of an exact correspondence is the map itself. *)
Lemma least_squares_exact (m : mat3) (src dst T : ndarray) :
  maps_by m src dst ->
  non_degenerate src ->
  least_squares (AffineModel.fit_system src dst).1
                (AffineModel.fit_system src dst).2 T ->
  item T 0 0 = m00 m /\ item T 1 0 = m01 m /\ item T 2 0 = m10 m /\
  item T 3 0 = m11 m /\ item T 4 0 = m02 m /\ item T 5 0 = m12 m.
Proof.
  intros Hmaps (i & j & k & Hi & Hj & Hk & Hdet) (_ & _ & Hmin).
  pose proof (Hmin (params_of m)) as Hle.
  rewrite (residual_exact m src dst Hmaps) in Hle.
  destruct Hmaps as (_ & _ & Hm).
  destruct (fit_system_rows src dst) as (H0 & _ & _).
  assert (Hrow : forall r, (r < 2 * shape0 src)%nat ->
    ((big_sum (shape1 (AffineModel.fit_system src dst).1)
        (fun c => item (AffineModel.fit_system src dst).1 r c * item T c 0)
      - item (AffineModel.fit_system src dst).2 r 0) ^ 2 = 0)%R).
  { intros r Hr. unfold residual in Hle.
    apply (big_sum_zero_terms _ _ (fun _ _ => pow2_ge_0 _) Hle).
    rewrite H0. exact Hr. }
  assert (Hpt : forall p, (p < shape0 src)%nat ->
    (item T 0 0 * item src p 0 + item T 1 0 * item src p 1 + item T 4 0
     = m00 m * item src p 0 + m01 m * item src p 1 + m02 m)%R /\
    (item T 2 0 * item src p 0 + item T 3 0 * item src p 1 + item T 5 0
     = m10 m * item src p 0 + m11 m * item src p 1 + m12 m)%R).
  { intros p Hp.
    destruct (residual_rows src dst (fun c => item T c 0) p Hp) as [E0 E1].
    cbv zeta in E0, E1.
    pose proof (Hrow (2 * p)%nat ltac:(lia)) as Z0.
    pose proof (Hrow (2 * p + 1)%nat ltac:(lia)) as Z1.
    rewrite E0 in Z0. rewrite E1 in Z1.
    destruct (Hm p) as [Dx Dy]. rewrite Dx in Z0. rewrite Dy in Z1.
    split; nra. }
  destruct (Hpt i Hi) as [Xi Yi], (Hpt j Hj) as [Xj Yj], (Hpt k Hk) as [Xk Yk].
  set (xi := item src i 0) in *. set (yi := item src i 1) in *.
  set (xj := item src j 0) in *. set (yj := item src j 1) in *.
  set (xk := item src k 0) in *. set (yk := item src k 1) in *.
  set (D := (xi * (yj - yk) + xj * (yk - yi) + xk * (yi - yj))%R) in *.
  assert (Hsolve : forall a b c : R,
             (a * xi + b * yi + c = 0)%R -> (a * xj + b * yj + c = 0)%R ->
             (a * xk + b * yk + c = 0)%R -> a = 0%R /\ b = 0%R /\ c = 0%R).
  { intros a b c Ei Ej Ek.
    assert (Ha : (a * D = 0)%R).
    { replace (a * D)%R
        with ((a * xi + b * yi + c) * (yj - yk) + (a * xj + b * yj + c) * (yk - yi)
              + (a * xk + b * yk + c) * (yi - yj))%R by (unfold D; ring).
      rewrite Ei, Ej, Ek. ring. }
    assert (Hb : (b * D = 0)%R).
    { replace (b * D)%R
        with ((a * xi + b * yi + c) * (xk - xj) + (a * xj + b * yj + c) * (xi - xk)
              + (a * xk + b * yk + c) * (xj - xi))%R by (unfold D; ring).
      rewrite Ei, Ej, Ek. ring. }
    apply Rmult_integral in Ha as [Ha|Ha]; [|contradiction].
    apply Rmult_integral in Hb as [Hb|Hb]; [|contradiction].
    subst a b. repeat split; lra. }
  destruct (Hsolve (item T 0 0 - m00 m) (item T 1 0 - m01 m) (item T 4 0 - m02 m))%R
    as (S0 & S1 & S4); [lra|lra|lra|].
  destruct (Hsolve (item T 2 0 - m10 m) (item T 3 0 - m11 m) (item T 5 0 - m12 m))%R
    as (S2 & S3 & S5); [lra|lra|lra|].
  repeat split; lra.
Qed.

Lemma big_sum_pairs (n : nat) (f : nat -> R) :
  big_sum (2 * n) f = big_sum n (fun i => f (2 * i)%nat + f (2 * i + 1)%nat)%R.
Proof.
  induction n as [|n IH]; [reflexivity|].
  replace (2 * S n)%nat with (S (S (2 * n))) by lia.
  cbn [big_sum]. rewrite IH.
  replace (2 * n + 1)%nat with (S (2 * n)) by lia. ring.
Qed.

Lemma big_sum_ext (n : nat) (f g : nat -> R) :
  (forall i, (i < n)%nat -> f i = g i) -> big_sum n f = big_sum n g.
Proof.
  induction n as [|n IH]; intros H; simpl; [reflexivity|].
  rewrite IH, H by (intros; try apply H; lia). reflexivity.
Qed.

(** The residual of a system with the rows of [fit] is the error of the
    point pairs. *)
Lemma residual_point_error (A B M Y : ndarray) (theta : nat -> R) :
  shape0 M = (2 * shape0 A)%nat -> shape1 M = 6%nat ->
  system_rows A B M Y (shape0 A) ->
  residual M Y theta = point_error A B theta.
Proof.
  intros H0 H1 Hrows. unfold residual, point_error.
  rewrite H0, H1, big_sum_pairs. apply big_sum_ext. intros i Hi.
  destruct (Hrows i Hi) as (R1 & R2 & R3 & R4).
  rewrite R3, R4. cbn [big_sum]. rewrite !R1, !R2. cbn [nth]. ring.
Qed.

Lemma fit_system_shape (A B : ndarray) :
  shape0 (AffineModel.fit_system A B).1 = (2 * shape0 A)%nat /\
  shape1 (AffineModel.fit_system A B).1 = 6%nat /\
  shape0 (AffineModel.fit_system A B).2 = (2 * shape0 A)%nat /\
  shape1 (AffineModel.fit_system A B).2 = 1%nat /\
  system_rows A B (AffineModel.fit_system A B).1 (AffineModel.fit_system A B).2
              (shape0 A).
Proof.
  unfold AffineModel.fit_system.
  pose proof (fit_system_fold A B (shape0 A) (zeros (2 * shape0 A) 6)
                (zeros (2 * shape0 A) 1)) as H.
  cbv zeta in H. exact H.
Qed.

(** *** What [AffineModel.fit] returns *)

(** C4, as the code has it: [AffineModel.fit] raises [EstimationError]
    exactly when the shapes do not conform (different numbers of rows, or a
    second dimension other than 2).  The number of points is not checked:
    for conforming arrays of any number [N] of rows it hands [lstsq] a
    system of [2 N] rows and 6 columns, the rows [x y 0 0 1 0] and
    [0 0 x y 0 1] of each source point against the two coordinates of its
    destination point, and returns the answer, or the [LinAlgError] of the
    solver.  When that answer is a least-squares solution of the system,
    it is a vector of six parameters under which the summed squared
    distance between the mapped source points and the destination points
    is as small as under any parameters. *)
Theorem affine_fit_shape_check (np : linalg) (A B : ndarray) :
  (shape0 A <> shape0 B \/ shape1 A <> 2%nat \/ shape1 B <> 2%nat ->
   AffineModel.fit np A B = Raise EstimationError) /\
  (shape0 A = shape0 B -> shape1 A = 2%nat -> shape1 B = 2%nat ->
   exists M Y,
     shape0 M = (2 * shape0 A)%nat /\ shape1 M = 6%nat /\
     shape0 Y = (2 * shape0 A)%nat /\ shape1 Y = 1%nat /\
     system_rows A B M Y (shape0 A) /\
     AffineModel.fit np A B
     = match lstsq np M Y with
       | Some Tvec => Ok Tvec
       | None => Raise LinAlgError
       end /\
     AffineModel.fit np A B <> Raise EstimationError /\
     forall T, lstsq np M Y = Some T -> least_squares M Y T ->
       AffineModel.fit np A B = Ok T /\
       shape0 T = 6%nat /\ shape1 T = 1%nat /\
       forall theta,
         (point_error A B (fun c => item T c 0) <= point_error A B theta)%R).
Proof.
  split.
  - intros H. unfold AffineModel.fit.
    destruct (Nat.eqb_spec (shape0 A) (shape0 B)); simpl; [|reflexivity].
    destruct (Nat.eqb_spec (shape1 A) (shape1 B)); simpl; [|reflexivity].
    destruct (Nat.eqb_spec (shape1 B) 2); simpl; [|reflexivity].
    exfalso. destruct H as [H|[H|H]]; congruence.
  - intros H0 H1 H2.
    destruct (fit_system_shape A B) as (S0 & S1 & S2 & S3 & Hrows).
    exists (AffineModel.fit_system A B).1, (AffineModel.fit_system A B).2.
    do 5 (split; [assumption|]).
    assert (Hfit : AffineModel.fit np A B
                   = match lstsq np (AffineModel.fit_system A B).1
                                 (AffineModel.fit_system A B).2 with
                     | Some Tvec => Ok Tvec
                     | None => Raise LinAlgError
                     end).
    { unfold AffineModel.fit. rewrite H0, H1, H2, !Nat.eqb_refl. simpl.
      destruct (AffineModel.fit_system A B) as [M Y]. reflexivity. }
    split; [exact Hfit|]. rewrite Hfit.
    split; [destruct (lstsq np _ _); discriminate|].
    intros T HT (T0 & T1 & Hmin). rewrite HT.
    split; [reflexivity|]. split; [congruence|]. split; [exact T1|].
    intros theta.
    rewrite <- !(residual_point_error A B _ _ _ S0 S1 Hrows). apply Hmin.
Qed.

Lemma point_error_nonneg (A B : ndarray) (theta : nat -> R) :
  (0 <= point_error A B theta)%R.
Proof.
  unfold point_error. apply big_sum_nonneg. intros i _.
  pose proof (pow2_ge_0 (theta 0%nat * item A i 0 + theta 1%nat * item A i 1
                         + theta 4%nat - item B i 0)).
  pose proof (pow2_ge_0 (theta 2%nat * item A i 0 + theta 3%nat * item A i 1
                         + theta 5%nat - item B i 1)).
  lra.
Qed.

Lemma affine_fit_shape_check_witness :
  AffineModel.fit constant_linalg (zeros 3 2) (zeros 4 2) = Raise EstimationError /\
  AffineModel.fit identity_linalg three_points three_points = Ok identity_params /\
  forall theta,
    (point_error three_points three_points (fun c => item identity_params c 0)
     <= point_error three_points three_points theta)%R.
Proof.
  split.
  - apply (affine_fit_shape_check constant_linalg (zeros 3 2) (zeros 4 2)).
    left. simpl. lia.
  - destruct (affine_fit_shape_check identity_linalg three_points three_points)
      as [_ H].
    destruct (H eq_refl eq_refl eq_refl)
      as (M & Y & S0 & S1 & _ & _ & Hrows & _ & _ & Hls).
    destruct (Hls identity_params eq_refl) as (Hfit & _ & _ & Hmin).
    + split; [symmetry; exact S1|]. split; [reflexivity|].
      intros theta.
      rewrite !(residual_point_error three_points three_points M Y _ S0 S1 Hrows).
      replace (point_error three_points three_points
                 (fun c => item identity_params c 0)) with 0%R.
      * apply point_error_nonneg.
      * unfold point_error. cbn. ring.
    + split; [exact Hfit|exact Hmin].
Defined.

(** The claim C4 fails on two point pairs: the shapes conform, nothing is
    raised and the answer of the solver is returned. *)
Lemma affine_fit_two_points :
  shape0 two_points = 2%nat /\
  AffineModel.fit constant_linalg two_points two_points = Ok (zeros 6 1).
Proof. split; reflexivity. Qed.

(** *** The collapse of an affine chain *)

Lemma classNames_affine (flat : list pyobj) (acc : list json) :
  Forall affine_member flat ->
  for_each (fun acc tform => c ← obj_className tform; Ok (acc ++ [c])) flat acc
  = Ok (acc ++ ((fun _ => JStr AffineModel.class_name) <$> flat)).
Proof.
  intros H. revert acc. induction H as [|o flat Ho _ IH]; intros acc.
  - simpl. rewrite app_nil_r. reflexivity.
  - cbn [for_each].
    assert (Hc : obj_className o = Ok (JStr AffineModel.class_name)).
    { destruct o; simpl in Ho; try tauto; simpl; f_equal; apply Ho. }
    rewrite Hc. cbn [mbind result_bind]. rewrite IH, <- app_assoc. reflexivity.
Qed.

(** The collapse of a chain of affine members. *)
Lemma collapse_affine (np : linalg) (l : list tnode) (src : ndarray) (order : nat) :
  Forall affine_member (flatten l) ->
  shape1 src = 2%nat ->
  non_degenerate src ->
  (forall dst, estimate_dstpts l src = Ok dst ->
     exists T,
       lstsq np (AffineModel.fit_system src dst).1
                (AffineModel.fit_system src dst).2 = Some T /\
       least_squares (AffineModel.fit_system src dst).1
                     (AffineModel.fit_system src dst).2 T) ->
  exists am,
    estimate_transformsum np l src order = Ok (OAffineModel am) /\
    AffineModel.M am = AffineModel.M (concatenate_chain (flatten l)).
Proof.
  intros Hall Hsrc Hnd Hls.
  destruct (affine_chain_maps (Nested l) Hall src Hsrc) as (dst & Hdst & Hmaps).
  destruct (Hls dst Hdst) as (T & HT & Hmin).
  pose proof (least_squares_exact _ src dst T Hmaps Hnd Hmin)
    as (E0 & E1 & E2 & E3 & E4 & E5).
  destruct Hmin as (HT0 & HT1 & _).
  destruct (fit_system_rows src dst) as (_ & Hcols & _). rewrite Hcols in HT0.
  destruct Hmaps as (Hd0 & Hd1 & _).
  unfold estimate_transformsum.
  change (estimate_dstpts_node (Nested l) src = Ok dst) in Hdst.
  unfold estimate_dstpts. rewrite Hdst. cbn [mbind result_bind].
  rewrite (classNames_affine _ [] Hall). cbn [app mbind result_bind].
  assert (Hnames : forallb (fun c => json_is_str c AffineModel.class_name)
                     ((fun _ => JStr AffineModel.class_name)
                        <$> flatten l) = true).
  { apply forallb_forall. intros c Hc. apply in_map_iff in Hc as (o & <- & _).
    reflexivity. }
  rewrite Hnames.
  unfold AffineModel.estimate, AffineModel.fit.
  rewrite Hd0, Hsrc, Hd1, !Nat.eqb_refl. cbn [andb negb].
  destruct (AffineModel.fit_system src dst) as [M Y]. cbn [fst snd] in HT.
  rewrite HT.
  unfold mbind, meth_bind, lift, assign, read, mret, meth_ret.
  rewrite !getitem_ok by lia.
  eexists. split; [reflexivity|].
  pose proof (chain_homogeneous (flatten l) AffineModel.default
                ltac:(repeat split)) as (C0 & C1 & C2).
  fold (concatenate_chain (flatten l)) in C0, C1, C2.
  change (flatten_node (Nested l)) with (flatten l) in *.
  unfold AffineModel.homogeneous in *.
  generalize dependent (AffineModel.M (concatenate_chain (flatten l))).
  intros C. intros. apply mat3_eq; cbn; congruence.
Qed.

Lemma obj_tform_shape (o : pyobj) (p q : ndarray) :
  obj_tform o p = Ok q -> shape1 p = 2%nat ->
  shape0 q = shape0 p /\ shape1 q = 2%nat.
Proof.
  intros H Hp.
  assert (Haff : forall a, AffineModel.tform a p = Ok q ->
                           shape0 q = shape0 p /\ shape1 q = 2%nat).
  { intros a Ha. unfold AffineModel.tform, AffineModel.convert_to_point_vector in Ha.
    rewrite Hp in Ha. cbn in Ha. injection Ha as <-. split; reflexivity. }
  destruct o; simpl in H; try discriminate; try (eapply Haff; eassumption).
  unfold Polynomial2DTransform.tform in H.
  destruct (shape1 p <? 2)%nat; [discriminate|].
  destruct (Polynomial2DTransform.tform_loop _ _ _ _) as [[d n]|] eqn:Hl;
    cbn in H; [|discriminate].
  injection H as <-.
  destruct (tform_loop_shape _ _ _ _ _ _ _ Hl) as [H0 H1].
  cbn in H0, H1. split; congruence.
Qed.

Lemma estimate_dstpts_shape (n : tnode) :
  forall p q, estimate_dstpts_node n p = Ok q -> shape1 p = 2%nat ->
              shape0 q = shape0 p /\ shape1 q = 2%nat.
Proof.
  induction n as [o|l IH| |n l IHn IHl]
    using tnode_list_ind
    with (Q := fun l =>
                 forall p q, estimate_dstpts_node (Nested l) p = Ok q ->
                             shape1 p = 2%nat ->
                             shape0 q = shape0 p /\ shape1 q = 2%nat).
  - intros p q. apply obj_tform_shape.
  - exact IH.
  - intros p q H Hp. injection H as <-. auto.
  - intros p q H Hp. simpl in H.
    destruct (estimate_dstpts_node n p) as [d|] eqn:Hd; cbn in H; [|discriminate].
    destruct (IHn p d Hd Hp) as [H0 H1].
    destruct (IHl d q H H1) as [H0' H1']. split; congruence.
Qed.

(** ** Collapse of a chain with a member that is not affine *)

Lemma fit_ok_shape (np : linalg) (k : nat) (src dst : ndarray) (order : nat)
      (prm : ndarray) :
  Polynomial2DTransform.fit np k src dst order = Ok prm ->
  well_formed (Polynomial2DTransform.init_params prm) order /\
  shape0 src = shape0 dst.
Proof.
  unfold Polynomial2DTransform.fit.
  destruct ((shape1 src <? 2)%nat || (shape1 dst <? 2)%nat); [discriminate|].
  destruct (Nat.eqb_spec (shape0 src) (shape0 dst)) as [Heq|]; [|discriminate].
  cbn [negb].
  destruct (shape0 src <? (order + 1) * (order + 2))%nat; [discriminate|].
  destruct (svd_vsm np k _) as [[]|Vsm]; try discriminate.
  intros H. injection H as <-. split; [|exact Heq].
  split; [reflexivity|]. cbn. apply half_coefficients_tri.
Qed.

(** The two outcomes of [estimate] on arrays of two columns. *)
Lemma estimate_cases (np : linalg) (src dst : ndarray) (order : nat)
      (test_coords : bool) (max_tries : Z) (return_params : bool) (atol rtol : R)
      (self : Polynomial2DTransform.t) :
  (0 <= max_tries)%Z -> shape1 src = 2%nat -> shape1 dst = 2%nat ->
  (Polynomial2DTransform.estimate np src dst order test_coords max_tries
     return_params atol rtol self = (Raise EstimationError, self) /\
   forall k prm, (1 <= k <= max_tries)%Z ->
     ~ acceptable np src dst order test_coords atol rtol (Z.to_nat k) prm) \/
  exists k prm,
    (1 <= k <= max_tries)%Z /\
    acceptable np src dst order test_coords atol rtol (Z.to_nat k) prm /\
    Polynomial2DTransform.estimate np src dst order test_coords max_tries
      return_params atol rtol self
    = (Ok (if return_params then Some prm else None),
       Polynomial2DTransform.set_params prm self).
Proof.
  intros Hmax Hsrc Hdst.
  pose proof (estimate_loop_cases np src dst order test_coords max_tries atol rtol
                Hsrc Hdst (Z.to_nat max_tries)
                (Polynomial2DTransform.mk_loop 0 false None) eq_refl) as Hloop.
  cbn [Polynomial2DTransform.tries Polynomial2DTransform.fitted] in Hloop.
  specialize (Hloop ltac:(lia) ltac:(f_equal; lia)).
  unfold Polynomial2DTransform.estimate.
  unfold mbind, meth_bind, lift, assign, read, mret, meth_ret.
  destruct Hloop
    as [[Hr Hg] | [(prm & k & Hr & Hk & Hacc & Hfirst) | (f & Hr & Hf & Hnone)]];
    rewrite Hr; cbn [Polynomial2DTransform.tries Polynomial2DTransform.estimated
                     Polynomial2DTransform.fitted negb andb];
    rewrite ?andb_false_r, ?Z.eqb_refl; cbn [andb].
  - left. split; [reflexivity|].
    intros k prm _ [Hfit _]. rewrite Hg in Hfit. discriminate.
  - right. exists k, prm. split; [lia|]. split; [exact Hacc|].
    destruct return_params; reflexivity.
  - left. split; [reflexivity|]. intros k prm Hk. apply Hnone. lia.
Qed.

(** The collapse of a chain whose class names are not all the one of
    [AffineModel]: [EstimationError] when none of the calls of [fit] is
    acceptable, and otherwise a polynomial of the requested order that maps
    the source points to the resolved ones within the tolerance. *)
Lemma collapse_polynomial (np : linalg) (l : list tnode) (src dst : ndarray)
      (order : nat) (names : list json) :
  shape1 src = 2%nat ->
  estimate_dstpts l src = Ok dst ->
  chain_classNames l = Ok names ->
  forallb (fun c => json_is_str c AffineModel.class_name) names = false ->
  (estimate_transformsum np l src order = Raise EstimationError /\
   forall k prm, (1 <= k <= Polynomial2DTransform.default_max_tries)%Z ->
     ~ acceptable np src dst order true Polynomial2DTransform.default_atol
         Polynomial2DTransform.default_rtol (Z.to_nat k) prm) \/
  exists p res,
    estimate_transformsum np l src order = Ok (OPolynomial2DTransform p) /\
    Polynomial2DTransform.order p = Z.of_nat order /\
    Polynomial2DTransform.tform p src = Ok res /\
    forall i j, (i < shape0 src)%nat -> (j < 2)%nat ->
      (Rabs (item res i j - item dst i j) <= 1 / 1000)%R.
Proof.
  intros Hsrc Hdst Hnames Hnot.
  destruct (estimate_dstpts_shape (Nested l) src dst Hdst Hsrc) as [Hd0 Hd1].
  unfold estimate_transformsum. rewrite Hdst. cbn [mbind result_bind].
  unfold chain_classNames in Hnames. rewrite Hnames. cbn [mbind result_bind].
  rewrite Hnot. unfold Polynomial2DTransform.init_estimate.
  destruct (estimate_cases np src dst order true
              Polynomial2DTransform.default_max_tries false
              Polynomial2DTransform.default_atol Polynomial2DTransform.default_rtol
              (Polynomial2DTransform.set_className
                 (JStr Polynomial2DTransform.class_name)
                 Polynomial2DTransform.blank))
    as [[Hr Hnone] | (k & prm & Hk & [Hfit Hgood] & Hr)];
    [unfold Polynomial2DTransform.default_max_tries; lia|exact Hsrc|exact Hd1| |];
    rewrite Hr.
  - left. split; [reflexivity|exact Hnone].
  - right. specialize (Hgood eq_refl).
    destruct (fit_ok_shape _ _ _ _ _ _ Hfit) as [[Hp0 Hp1] _].
    unfold Polynomial2DTransform.fitgood in Hgood.
    destruct (Polynomial2DTransform.tform _ src) as [res|] eqn:Hres;
      cbn in Hgood; [|discriminate].
    eexists _, res. split; [reflexivity|]. split.
    { unfold Polynomial2DTransform.order, Polynomial2DTransform.ravel_len.
      cbn in Hp0, Hp1 |- *. rewrite Hp0, Hp1. apply order_of_len_tri. }
    split; [exact Hres|].
    destruct (allclose_true _ _ _ _ Hgood) as (Hs0 & Hs1 & Hall).
    assert (Hshape : shape0 res = shape0 src /\ shape1 res = 2%nat).
    { apply (obj_tform_shape
               (OPolynomial2DTransform (Polynomial2DTransform.init_params prm))
               src res Hres Hsrc). }
    destruct Hshape as [Hr0 Hr1].
    intros i j Hi Hj. specialize (Hall i j ltac:(lia) ltac:(lia)).
    unfold Polynomial2DTransform.default_atol,
      Polynomial2DTransform.default_rtol in Hall. lra.
Qed.

(** With fewer points than [(order+1)(order+2)] the guard of [fit] ends
    the collapse. *)
Lemma collapse_few_points (np : linalg) (l : list tnode) (src dst : ndarray)
      (order : nat) (names : list json) :
  shape1 src = 2%nat ->
  estimate_dstpts l src = Ok dst ->
  chain_classNames l = Ok names ->
  forallb (fun c => json_is_str c AffineModel.class_name) names = false ->
  (shape0 src < (order + 1) * (order + 2))%nat ->
  estimate_transformsum np l src order = Raise EstimationError.
Proof.
  intros Hsrc Hdst Hnames Hnot Hfew.
  destruct (collapse_polynomial np l src dst order names Hsrc Hdst Hnames Hnot)
    as [[Hr _] | (p & res & Hr & _)]; [exact Hr|].
  exfalso.
  destruct (estimate_dstpts_shape (Nested l) src dst Hdst Hsrc) as [Hd0 Hd1].
  unfold estimate_transformsum in Hr. rewrite Hdst in Hr.
  cbn [mbind result_bind] in Hr.
  unfold chain_classNames in Hnames. rewrite Hnames in Hr.
  cbn [mbind result_bind] in Hr. rewrite Hnot in Hr.
  unfold Polynomial2DTransform.init_estimate in Hr.
  destruct (estimate_cases np src dst order true
              Polynomial2DTransform.default_max_tries false
              Polynomial2DTransform.default_atol Polynomial2DTransform.default_rtol
              (Polynomial2DTransform.set_className
                 (JStr Polynomial2DTransform.class_name)
                 Polynomial2DTransform.blank))
    as [[He _] | (k & prm & Hk & [Hfit _] & He)];
    [unfold Polynomial2DTransform.default_max_tries; lia|exact Hsrc|exact Hd1| |].
  - rewrite He in Hr. discriminate.
  - unfold Polynomial2DTransform.fit in Hfit.
    rewrite Hsrc, Hd1 in Hfit.
    change ((2 <? 2)%nat || (2 <? 2)%nat) with false in Hfit. cbv iota in Hfit.
    destruct (negb (shape0 src =? shape0 dst)%nat); [discriminate|].
    destruct (Nat.ltb_spec (shape0 src) ((order + 1) * (order + 2)));
      [discriminate|lia].
Qed.

(** The identity polynomial maps an array of two columns. *)
Lemma identity_chain_dstpts (src : ndarray) :
  shape1 src = 2%nat ->
  exists dst, estimate_dstpts identity_polynomial_chain src = Ok dst.
Proof.
  intros Hsrc.
  destruct (poly_tform_ok Polynomial2DTransform.init_identity 1 src)
    as (dst & Hdst & _); [split; reflexivity|lia|].
  exists dst.
  change (estimate_dstpts identity_polynomial_chain src)
    with (d ← Polynomial2DTransform.tform Polynomial2DTransform.init_identity src;
          Ok d).
  rewrite Hdst. reflexivity.
Qed.

(** The outcomes of [estimate], with the attempt that ends the loop. *)
Lemma estimate_first (np : linalg) (src dst : ndarray) (order : nat)
      (test_coords : bool) (max_tries : Z) (return_params : bool) (atol rtol : R)
      (self : Polynomial2DTransform.t) :
  (0 <= max_tries)%Z -> shape1 src = 2%nat -> shape1 dst = 2%nat ->
  (Polynomial2DTransform.estimate np src dst order test_coords max_tries
     return_params atol rtol self = (Raise EstimationError, self) /\
   forall k prm, (1 <= k <= max_tries)%Z ->
     ~ acceptable np src dst order test_coords atol rtol (Z.to_nat k) prm) \/
  exists k prm,
    (1 <= k <= max_tries)%Z /\
    acceptable np src dst order test_coords atol rtol (Z.to_nat k) prm /\
    (forall j p, (1 <= j < k)%Z ->
       ~ acceptable np src dst order test_coords atol rtol (Z.to_nat j) p) /\
    Polynomial2DTransform.estimate np src dst order test_coords max_tries
      return_params atol rtol self
    = (Ok (if return_params then Some prm else None),
       Polynomial2DTransform.set_params prm self).
Proof.
  intros Hmax Hsrc Hdst.
  pose proof (estimate_loop_cases np src dst order test_coords max_tries atol rtol
                Hsrc Hdst (Z.to_nat max_tries)
                (Polynomial2DTransform.mk_loop 0 false None) eq_refl) as Hloop.
  cbn [Polynomial2DTransform.tries Polynomial2DTransform.fitted] in Hloop.
  specialize (Hloop ltac:(lia) ltac:(f_equal; lia)).
  unfold Polynomial2DTransform.estimate.
  unfold mbind, meth_bind, lift, assign, read, mret, meth_ret.
  destruct Hloop
    as [[Hr Hg] | [(prm & k & Hr & Hk & Hacc & Hfirst) | (f & Hr & Hf & Hnone)]];
    rewrite Hr; cbn [Polynomial2DTransform.tries Polynomial2DTransform.estimated
                     Polynomial2DTransform.fitted negb andb];
    rewrite ?andb_false_r, ?Z.eqb_refl; cbn [andb].
  - left. split; [reflexivity|].
    intros k prm _ [Hfit _]. rewrite Hg in Hfit. discriminate.
  - right. exists k, prm. split; [lia|]. split; [exact Hacc|].
    split; [intros j p Hj; apply Hfirst; lia|].
    destruct return_params; reflexivity.
  - left. split; [reflexivity|]. intros k prm Hk. apply Hnone. lia.
Qed.

(** The collapse of a chain whose class names are not all the one of
    [AffineModel], with the attempt that ends the loop. *)
Lemma collapse_polynomial_first (np : linalg) (l : list tnode) (src dst : ndarray)
      (order : nat) (names : list json) :
  shape1 src = 2%nat ->
  estimate_dstpts l src = Ok dst ->
  chain_classNames l = Ok names ->
  forallb (fun c => json_is_str c AffineModel.class_name) names = false ->
  (estimate_transformsum np l src order = Raise EstimationError /\
   forall k prm, (1 <= k <= 100)%Z ->
     ~ acceptable np src dst order true (1 / 1000) 0 (Z.to_nat k) prm) \/
  exists k prm res,
    (1 <= k <= 100)%Z /\
    acceptable np src dst order true (1 / 1000) 0 (Z.to_nat k) prm /\
    (forall j p, (1 <= j < k)%Z ->
       ~ acceptable np src dst order true (1 / 1000) 0 (Z.to_nat j) p) /\
    estimate_transformsum np l src order
    = Ok (OPolynomial2DTransform (Polynomial2DTransform.init_params prm)) /\
    Polynomial2DTransform.order (Polynomial2DTransform.init_params prm)
    = Z.of_nat order /\
    Polynomial2DTransform.tform (Polynomial2DTransform.init_params prm) src
    = Ok res /\
    forall i j, (i < shape0 src)%nat -> (j < 2)%nat ->
      (Rabs (item res i j - item dst i j) <= 1 / 1000)%R.
Proof.
  intros Hsrc Hdst Hnames Hnot.
  destruct (estimate_dstpts_shape (Nested l) src dst Hdst Hsrc) as [Hd0 Hd1].
  unfold estimate_transformsum. rewrite Hdst. cbn [mbind result_bind].
  unfold chain_classNames in Hnames. rewrite Hnames. cbn [mbind result_bind].
  rewrite Hnot. unfold Polynomial2DTransform.init_estimate.
  destruct (estimate_first np src dst order true
              Polynomial2DTransform.default_max_tries false
              Polynomial2DTransform.default_atol Polynomial2DTransform.default_rtol
              (Polynomial2DTransform.set_className
                 (JStr Polynomial2DTransform.class_name)
                 Polynomial2DTransform.blank))
    as [[Hr Hnone] | (k & prm & Hk & Hacc & Hfirst & Hr)];
    [unfold Polynomial2DTransform.default_max_tries; lia|exact Hsrc|exact Hd1| |];
    rewrite Hr.
  - left. split; [reflexivity|exact Hnone].
  - right. pose proof Hacc as [Hfit Hgood]. specialize (Hgood eq_refl).
    destruct (fit_ok_shape _ _ _ _ _ _ Hfit) as [[Hp0 Hp1] _].
    unfold Polynomial2DTransform.fitgood in Hgood.
    destruct (Polynomial2DTransform.tform _ src) as [res|] eqn:Hres;
      cbn in Hgood; [|discriminate].
    exists k, prm, res. split; [exact Hk|]. split; [exact Hacc|].
    split; [exact Hfirst|]. split; [reflexivity|]. split.
    { unfold Polynomial2DTransform.order, Polynomial2DTransform.ravel_len.
      cbn in Hp0, Hp1 |- *. rewrite Hp0, Hp1. apply order_of_len_tri. }
    split; [exact Hres|].
    destruct (allclose_true _ _ _ _ Hgood) as (Hs0 & Hs1 & Hall).
    assert (Hshape : shape0 res = shape0 src /\ shape1 res = 2%nat).
    { apply (obj_tform_shape
               (OPolynomial2DTransform (Polynomial2DTransform.init_params prm))
               src res Hres Hsrc). }
    destruct Hshape as [Hr0 Hr1].
    intros i j Hi Hj. specialize (Hall i j ltac:(lia) ltac:(lia)).
    unfold Polynomial2DTransform.default_atol,
      Polynomial2DTransform.default_rtol in Hall. lra.
Qed.

(** C2, as the code has it.  For a chain and an N x 2 source array.

    When every flattened member is of the affine family, carries the class
    name of [AffineModel] and keeps the last row [0 0 1], the source points
    hold three that are not on one line and [lstsq] returns a least-squares
    solution, [estimate_transformsum] returns an [AffineModel] whose matrix
    is the one of the sequential [concatenate] calls over the flattened
    chain.

    When some class name differs, the calls of [fit] that [estimate] makes,
    at most 100, decide: the [k]-th is accepted when it returns parameters
    under which [tform] maps the source points to the points
    [estimate_dstpts] gives within [1e-3].  If no call is accepted (as when
    there are fewer than [(order+1)(order+2)] points) the collapse raises
    [EstimationError]; if one is, it returns the polynomial that holds the
    parameters of the first accepted call, which has the requested order
    and maps the source points within [1e-3] of the resolved ones; and it
    ends in no other way.  For the accepted call the singular vector is
    asked to have a last entry that is not zero: [fit] divides by it, and
    numpy's quotients by zero are never accepted. *)
Theorem collapse_chain (np : linalg) (l : list tnode) (src : ndarray)
        (order : nat) :
  shape1 src = 2%nat ->
  (Forall affine_member (flatten l) ->
   non_degenerate src ->
   (forall dst, estimate_dstpts l src = Ok dst ->
      exists T,
        lstsq np (AffineModel.fit_system src dst).1
                 (AffineModel.fit_system src dst).2 = Some T /\
        least_squares (AffineModel.fit_system src dst).1
                      (AffineModel.fit_system src dst).2 T) ->
   exists am,
     estimate_transformsum np l src order = Ok (OAffineModel am) /\
     AffineModel.M am = AffineModel.M (concatenate_chain (flatten l))) /\
  (forall dst names,
     estimate_dstpts l src = Ok dst ->
     chain_classNames l = Ok names ->
     forallb (fun c => json_is_str c AffineModel.class_name) names = false ->
     let accepted k prm :=
       acceptable np src dst order true (1 / 1000) 0 (Z.to_nat k) prm in
     ((forall k prm, (1 <= k <= 100)%Z -> ~ accepted k prm) ->
      estimate_transformsum np l src order = Raise EstimationError) /\
     (forall k prm,
        (1 <= k <= 100)%Z -> accepted k prm ->
        (forall j p, (1 <= j < k)%Z -> ~ accepted j p) ->
        (forall v, svd_vsm np (Z.to_nat k)
                     (Polynomial2DTransform.fit_matrix src dst order) = inr v ->
                   v ((order + 1) * (order + 2))%nat <> 0%R) ->
        exists res,
          estimate_transformsum np l src order
          = Ok (OPolynomial2DTransform (Polynomial2DTransform.init_params prm)) /\
          Polynomial2DTransform.order (Polynomial2DTransform.init_params prm)
          = Z.of_nat order /\
          Polynomial2DTransform.tform (Polynomial2DTransform.init_params prm) src
          = Ok res /\
          forall i j, (i < shape0 src)%nat -> (j < 2)%nat ->
            (Rabs (item res i j - item dst i j) <= 1 / 1000)%R) /\
     (estimate_transformsum np l src order = Raise EstimationError \/
      exists k prm,
        (1 <= k <= 100)%Z /\ accepted k prm /\
        estimate_transformsum np l src order
        = Ok (OPolynomial2DTransform (Polynomial2DTransform.init_params prm))) /\
     ((shape0 src < (order + 1) * (order + 2))%nat ->
      estimate_transformsum np l src order = Raise EstimationError)).
Proof.
  intros Hsrc. split.
  - intros Hall Hnd Hls. apply collapse_affine; assumption.
  - intros dst names Hdst Hnames Hnot accepted.
    pose proof (collapse_polynomial_first np l src dst order names
                  Hsrc Hdst Hnames Hnot) as Hcases.
    fold accepted in Hcases.
    split; [|split; [|split]].
    + intros Hnone.
      destruct Hcases as [[Hr _] | (k & prm & res & Hk & Hacc & _)]; [exact Hr|].
      destruct (Hnone k prm Hk Hacc).
    + intros k prm Hk Hacc Hfirst _.
      destruct Hcases
        as [[_ Hnone] | (k' & prm' & res & Hk' & Hacc' & Hfirst' & Hr & Ho & Ht & Hc)];
        [destruct (Hnone k prm Hk Hacc)|].
      assert (k' = k).
      { destruct (Z.lt_trichotomy k' k) as [Hlt|[Heq|Hgt]]; [|exact Heq|].
        - destruct (Hfirst k' prm' ltac:(lia) Hacc').
        - destruct (Hfirst' k prm ltac:(lia) Hacc). }
      subst k'.
      assert (prm' = prm).
      { destruct Hacc as [Hf _], Hacc' as [Hf' _]. congruence. }
      subst prm'. exists res. auto.
    + destruct Hcases as [[Hr _] | (k & prm & res & Hk & Hacc & _ & Hr & _)];
        [left; exact Hr|right; eauto].
    + intros Hfew.
      apply (collapse_few_points np l src dst order names); assumption.
Qed.

(** The claim C2 fails on the chain that holds the identity polynomial,
    six source points that are not on one conic and the order 2: the result
    is [EstimationError] and no polynomial. *)
Lemma collapse_too_few_points :
  shape0 six_points = 6%nat /\
  estimate_transformsum constant_linalg identity_polynomial_chain six_points 2
  = Raise EstimationError.
Proof.
  split; [reflexivity|].
  destruct (identity_chain_dstpts six_points eq_refl) as (dst & Hdst).
  apply (collapse_few_points constant_linalg identity_polynomial_chain six_points
           dst 2 [JStr Polynomial2DTransform.class_name]);
    [reflexivity|exact Hdst|reflexivity|reflexivity|cbn; lia].
Qed.


Lemma poly_estimate_retry_witness :
  (0 <= 100)%Z /\ shape1 (zeros 3 2) = 2%nat /\
  Polynomial2DTransform.estimate constant_linalg (zeros 3 2) (zeros 3 2) 2 true 100
    true Polynomial2DTransform.default_atol Polynomial2DTransform.default_rtol
    Polynomial2DTransform.init_identity
  = (Raise EstimationError, Polynomial2DTransform.init_identity).
Proof.
  split; [lia|]. split; [reflexivity|].
  destruct (poly_estimate_retry constant_linalg (zeros 3 2) (zeros 3 2) 2 true 100
              true Polynomial2DTransform.init_identity)
    as (_ & _ & _ & Hnone & _); [lia|reflexivity|reflexivity|].
  apply Hnone. intros k prm _ [Hfit _]. discriminate Hfit.
Defined.

(* ================================================================== *)
(** * Further properties *)

(** ** Affine models: inverse, decomposition, decoding and estimation *)

(** X1: [concatenate] is associative, returns a model whose matrix
    has last row [0 0 1], and has [AffineModel()] as a unit on both sides
    for the matrices with that last row. *)
Theorem concatenate_monoid (a b c : AffineModel.t) :
  AffineModel.concatenate a (AffineModel.concatenate b c)
  = AffineModel.concatenate (AffineModel.concatenate a b) c /\
  AffineModel.homogeneous (AffineModel.concatenate a b) /\
  (AffineModel.homogeneous a ->
   AffineModel.M (AffineModel.concatenate a AffineModel.default) = AffineModel.M a /\
   AffineModel.M (AffineModel.concatenate AffineModel.default a) = AffineModel.M a).
Proof.
  split; [|split].
  - unfold AffineModel.concatenate, AffineModel.init. cbn.
    f_equal; try ring. apply mat3_eq; cbn; ring.
  - repeat split.
  - intros (H0 & H1 & H2). split; apply mat3_eq; cbn; try ring; congruence.
Qed.

Lemma homogeneous_det (A : AffineModel.t) :
  AffineModel.homogeneous A ->
  mat3_det (AffineModel.M A)
  = (m00 (AffineModel.M A) * m11 (AffineModel.M A)
     - m01 (AffineModel.M A) * m10 (AffineModel.M A))%R.
Proof. intros (H0 & H1 & H2). unfold mat3_det. rewrite H0, H1, H2. ring. Qed.

(** The inverse of a matrix with last row [0 0 1] and determinant [d]. *)
Lemma invert_ok (A : AffineModel.t) :
  AffineModel.homogeneous A ->
  mat3_det (AffineModel.M A) <> 0%R ->
  let a := AffineModel.M A in
  let d := (m00 a * m11 a - m01 a * m10 a)%R in
  AffineModel.invert A
  = Ok (AffineModel.init (m11 a / d) (- m01 a / d) (- m10 a / d) (m00 a / d)
          ((m01 a * m12 a - m02 a * m11 a) / d)
          ((m02 a * m10 a - m00 a * m12 a) / d) JNull).
Proof.
  intros HA Hd a d. pose proof (homogeneous_det A HA) as Hdet.
  subst a d. unfold AffineModel.invert, mat3_inv.
  destruct (Req_dec_T (mat3_det (AffineModel.M A)) 0) as [E|_]; [contradiction|].
  rewrite Hdet in *.
  destruct HA as (H0 & H1 & H2).
  cbn [mbind result_bind m00 m01 m02 m10 m11 m12].
  rewrite H0, H1, H2.
  f_equal. f_equal; field; exact Hd.
Qed.

(** X2: [AffineModel.invert] undoes [concatenate]: for a model whose
    matrix has last row [0 0 1] and a determinant that is not zero,
    [invert] returns a model of the same kind, concatenating the two in
    either order gives the identity matrix, and inverting the inverse
    gives the matrix back. *)
Theorem invert_concatenate (A : AffineModel.t) :
  AffineModel.homogeneous A ->
  mat3_det (AffineModel.M A) <> 0%R ->
  exists Ai A2,
    AffineModel.invert A = Ok Ai /\
    AffineModel.homogeneous Ai /\
    AffineModel.M (AffineModel.concatenate A Ai) = identity3 /\
    AffineModel.M (AffineModel.concatenate Ai A) = identity3 /\
    AffineModel.invert Ai = Ok A2 /\
    AffineModel.M A2 = AffineModel.M A.
Proof.
  intros HA Hd.
  pose proof (invert_ok A HA Hd) as Hinv. cbv zeta in Hinv.
  rewrite (homogeneous_det A HA) in Hd.
  set (Ai := AffineModel.init _ _ _ _ _ _ JNull) in Hinv.
  assert (HAi : AffineModel.homogeneous Ai) by (repeat split).
  destruct HA as (H0 & H1 & H2).
  assert (Hdi : mat3_det (AffineModel.M Ai) <> 0%R).
  { rewrite (homogeneous_det Ai HAi). subst Ai.
    destruct A as [? ? ? ? ? ? [a00 a01 a02 a10 a11 a12 a20 a21 a22] ? ?].
    cbn in Hd |- *.
    replace (a11 / (a00 * a11 - a01 * a10) * (a00 / (a00 * a11 - a01 * a10))
             - - a01 / (a00 * a11 - a01 * a10) * (- a10 / (a00 * a11 - a01 * a10)))%R
      with (/ (a00 * a11 - a01 * a10))%R by (field; exact Hd).
    apply Rinv_neq_0_compat. exact Hd. }
  pose proof (invert_ok Ai HAi Hdi) as Hinv2. cbv zeta in Hinv2.
  eexists Ai, _. split; [exact Hinv|]. split; [exact HAi|].
  split; [|split; [|split; [exact Hinv2|]]];
    subst Ai;
    destruct A as [? ? ? ? ? ? [a00 a01 a02 a10 a11 a12 a20 a21 a22] ? ?];
    cbn in H0, H1, H2, Hd |- *; subst; apply mat3_eq; cbn;
    try reflexivity; try (field; nra).
Qed.

Lemma invert_concatenate_witness :
  exists Ai A2,
    AffineModel.invert quarter_turn = Ok Ai /\
    AffineModel.homogeneous Ai /\
    AffineModel.M (AffineModel.concatenate quarter_turn Ai) = identity3 /\
    AffineModel.M (AffineModel.concatenate Ai quarter_turn) = identity3 /\
    AffineModel.invert Ai = Ok A2 /\
    AffineModel.M A2 = AffineModel.M quarter_turn.
Proof.
  apply (invert_concatenate quarter_turn).
  - repeat split.
  - unfold mat3_det. cbn. lra.
Defined.

(** X3: for a model whose matrix has last row [0 0 1] and a
    determinant that is not zero and for every N x 2 array [P],
    [inverse_tform(tform(P))] and [tform(inverse_tform(P))] both return
    [P]. *)
Theorem inverse_tform_roundtrip (A : AffineModel.t) (P : ndarray) :
  AffineModel.homogeneous A ->
  mat3_det (AffineModel.M A) <> 0%R ->
  shape1 P = 2%nat ->
  exists Q Q' R1 R2,
    AffineModel.tform A P = Ok Q /\
    AffineModel.inverse_tform A Q = Ok R1 /\ array_eq R1 P /\
    AffineModel.inverse_tform A P = Ok Q' /\
    AffineModel.tform A Q' = Ok R2 /\ array_eq R2 P.
Proof.
  intros HA Hd HP. pose proof (homogeneous_det A HA) as Hdet.
  destruct HA as (H0 & H1 & H2).
  unfold AffineModel.tform, AffineModel.inverse_tform,
    AffineModel.convert_to_point_vector, mat3_inv.
  rewrite HP. cbn [Nat.eqb negb mbind result_bind].
  destruct (Req_dec_T (mat3_det (AffineModel.M A)) 0) as [E|_]; [contradiction|].
  cbn [mbind result_bind shape1 shape0 Nat.add Nat.eqb negb
       AffineModel.convert_points_vector_to_array AffineModel.dot_T].
  destruct (Req_dec_T (mat3_det (AffineModel.M A)) 0) as [E|_]; [contradiction|].
  cbn [mbind result_bind].
  eexists _, _, _, _.
  split; [reflexivity|]. split; [reflexivity|]. split.
  - split; [reflexivity|]. split; [cbn; congruence|].
    intros i j _ Hj. cbn in Hj |- *. rewrite H0, H1, H2.
    destruct j as [|[|j]]; [| |lia]; cbn; rewrite Hdet in *; field; exact Hd.
  - split; [reflexivity|]. split; [reflexivity|].
    split; [reflexivity|]. split; [cbn; congruence|].
    intros i j _ Hj. cbn in Hj |- *. rewrite H0, H1, H2.
    destruct j as [|[|j]]; [| |lia]; cbn; rewrite Hdet in *; field; exact Hd.
Qed.

Lemma inverse_tform_roundtrip_witness :
  exists Q Q' R1 R2,
    AffineModel.tform quarter_turn three_points = Ok Q /\
    AffineModel.inverse_tform quarter_turn Q = Ok R1 /\
    array_eq R1 three_points /\
    AffineModel.inverse_tform quarter_turn three_points = Ok Q' /\
    AffineModel.tform quarter_turn Q' = Ok R2 /\
    array_eq R2 three_points.
Proof.
  apply (inverse_tform_roundtrip quarter_turn three_points).
  - repeat split.
  - unfold mat3_det. cbn. lra.
  - reflexivity.
Defined.

(** X4: the errors of the point maps of an affine model.  On an
    array whose second dimension is not 2, [tform] and [inverse_tform]
    raise [ConversionError], whatever the matrix.  On an N x 2 array
    [tform] always returns an N x 2 array, and [inverse_tform] raises
    [LinAlgError] exactly when the determinant of the matrix is zero and
    returns an N x 2 array otherwise.  [invert] raises [LinAlgError]
    exactly when the determinant is zero, and otherwise returns a model
    with last row [0 0 1], the class name of [AffineModel] and no
    identifier. *)
Theorem affine_tform_errors (A : AffineModel.t) (P : ndarray) :
  (shape1 P <> 2%nat ->
   AffineModel.tform A P = Raise ConversionError /\
   AffineModel.inverse_tform A P = Raise ConversionError) /\
  (shape1 P = 2%nat ->
   (exists Q, AffineModel.tform A P = Ok Q /\
              shape0 Q = shape0 P /\ shape1 Q = 2%nat) /\
   (AffineModel.inverse_tform A P = Raise LinAlgError <->
    mat3_det (AffineModel.M A) = 0%R) /\
   (mat3_det (AffineModel.M A) <> 0%R ->
    exists Q, AffineModel.inverse_tform A P = Ok Q /\
              shape0 Q = shape0 P /\ shape1 Q = 2%nat)) /\
  (AffineModel.invert A = Raise LinAlgError <-> mat3_det (AffineModel.M A) = 0%R) /\
  (mat3_det (AffineModel.M A) <> 0%R ->
   exists Ai, AffineModel.invert A = Ok Ai /\ AffineModel.homogeneous Ai /\
              AffineModel.className Ai = JStr AffineModel.class_name /\
              AffineModel.transformId Ai = JNull).
Proof.
  unfold AffineModel.tform, AffineModel.inverse_tform, AffineModel.invert,
    AffineModel.convert_to_point_vector, mat3_inv.
  split; [|split; [|split]].
  - intros HP.
    destruct (Nat.eqb_spec (shape1 P) 2); [contradiction|]. split; reflexivity.
  - intros HP. rewrite HP. cbn [Nat.eqb negb mbind result_bind].
    split; [eexists; split; [reflexivity|split; reflexivity]|].
    destruct (Req_dec_T (mat3_det (AffineModel.M A)) 0) as [E|N].
    + split; [split; [intros _; exact E|reflexivity]|contradiction].
    + split; [split; [discriminate|contradiction]|].
      intros _. eexists; split; [reflexivity|split; reflexivity].
  - destruct (Req_dec_T (mat3_det (AffineModel.M A)) 0) as [E|N].
    + split; [intros _; exact E|reflexivity].
    + split; [discriminate|contradiction].
  - intros N.
    destruct (Req_dec_T (mat3_det (AffineModel.M A)) 0) as [E|_]; [contradiction|].
    eexists. split; [reflexivity|]. repeat split.
Qed.

Lemma tan_shift (x : R) : (cos x <> 0 -> tan (x + PI) = tan x)%R.
Proof.
  intros H. unfold tan. rewrite neg_sin, neg_cos. field. exact H.
Qed.

(** The angle of the point [(s cos t, s sin t)] off the negative x axis
    is [t]. *)
Lemma arctan2_polar (s theta : R) :
  (0 < s)%R -> (- PI < theta < PI)%R ->
  arctan2 (s * sin theta) (s * cos theta) = theta.
Proof.
  intros Hs [Hlo Hopen]. assert (Hhi : (theta <= PI)%R) by lra. unfold arctan2.
  pose proof PI_RGT_0 as Hpi.
  assert (Hq : forall c, c <> 0%R -> (s * sin theta / (s * c) = sin theta / c)%R).
  { intros c Hc. field. split; lra. }
  destruct (Rlt_dec 0 (s * cos theta)) as [Hx|Hx].
  - assert (Hc : (0 < cos theta)%R) by nra.
    rewrite Hq by lra. change (sin theta / cos theta)%R with (tan theta).
    apply atan_tan.
    destruct (Rle_dec theta (- (PI / 2))) as [H1|H1].
    { exfalso. destruct (Req_dec theta (- (PI/2))) as [->|Hne].
      - rewrite cos_neg, cos_PI2 in Hc. lra.
      - assert (cos (- theta) < 0)%R by (apply cos_lt_0; lra).
        rewrite cos_neg in H. lra. }
    destruct (Rle_dec (PI / 2) theta) as [H2|H2].
    { exfalso. destruct (Req_dec theta (PI/2)) as [->|Hne].
      - rewrite cos_PI2 in Hc. lra.
      - assert (cos theta < 0)%R by (apply cos_lt_0; lra). lra. }
    lra.
  - destruct (Rlt_dec (s * cos theta) 0) as [Hx'|Hx'].
    + assert (Hc : (cos theta < 0)%R) by nra.
      rewrite Hq by lra. change (sin theta / cos theta)%R with (tan theta).
      assert (Hout : (theta < - (PI / 2) \/ PI / 2 < theta)%R).
      { destruct (Rlt_dec theta (- (PI / 2))); [lra|].
        destruct (Rlt_dec (PI / 2) theta); [lra|].
        exfalso.
        destruct (Req_dec theta (- (PI/2))) as [E|Hne].
        { rewrite E, cos_neg, cos_PI2 in Hc. lra. }
        destruct (Req_dec theta (PI/2)) as [E|Hne'].
        { rewrite E, cos_PI2 in Hc. lra. }
        assert (0 < cos theta)%R by (apply cos_gt_0; lra). lra. }
      destruct (Rle_dec 0 (s * sin theta)) as [Hy|Hy].
      * assert (Hsn : (0 <= sin theta)%R) by nra.
        destruct Hout as [Hout|Hout].
        { exfalso. assert (sin theta < 0)%R by (apply sin_lt_0_var; lra). lra. }
        replace (tan theta) with (tan (theta - PI)).
        2:{ rewrite <- (tan_shift (theta - PI)).
            - f_equal. lra.
            - replace (theta - PI)%R with (- (PI - theta))%R by lra.
              rewrite cos_neg. rewrite Rtrigo_facts.cos_pi_minus. lra. }
        rewrite atan_tan; lra.
      * assert (Hsn : (sin theta < 0)%R) by nra.
        destruct Hout as [Hout|Hout].
        2:{ exfalso. destruct (Req_dec theta PI) as [E|Hne].
            - rewrite E, sin_PI in Hsn. lra.
            - assert (0 < sin theta)%R by (apply sin_gt_0; lra). lra. }
        rewrite <- (tan_shift theta) by lra.
        rewrite atan_tan; lra.
    + assert (Hc : cos theta = 0%R) by nra.
      assert (Hsq := sin2_cos2 theta). rewrite Hc in Hsq. unfold Rsqr in Hsq.
      destruct (Rlt_dec 0 (s * sin theta)) as [Hy|Hy].
      * assert (Hsn : (0 < sin theta)%R) by nra.
        destruct (Rtotal_order theta (PI / 2)) as [Hlt|[->|Hgt]]; [|reflexivity|].
        -- exfalso. destruct (Rle_dec theta (- (PI / 2))).
           ++ destruct (Req_dec theta 0); [subst; rewrite sin_0 in Hsn; lra|].
              assert (sin theta < 0)%R by (apply sin_lt_0_var; lra). lra.
           ++ assert (0 < cos theta)%R by (apply cos_gt_0; lra). lra.
        -- exfalso. assert (cos theta < 0)%R by (apply cos_lt_0; lra). lra.
      * destruct (Rlt_dec (s * sin theta) 0) as [Hy'|Hy'].
        -- assert (Hsn : (sin theta < 0)%R) by nra.
           destruct (Rtotal_order theta (- (PI / 2))) as [Hlt|[->|Hgt]]; [|reflexivity|].
           ++ exfalso. assert (cos (- theta) < 0)%R by (apply cos_lt_0; lra).
              rewrite cos_neg in H. lra.
           ++ exfalso. destruct (Rlt_dec theta (PI / 2)).
              ** assert (0 < cos theta)%R by (apply cos_gt_0; lra). lra.
              ** destruct (Req_dec theta PI) as [E|Hne].
                 { rewrite E, sin_PI in Hsn. lra. }
                 assert (0 < sin theta)%R by (apply sin_gt_0; lra). lra.
        -- exfalso. assert (sin theta = 0)%R by nra. nra.
Qed.

(** X5: the properties [scale], [rotation] and [shear] recover
    the parameters of a similarity: when the matrix has last row [0 0 1]
    and its linear block is the rotation by [theta], strictly between
    [-pi] and [pi], scaled by [s > 0], [scale] is [(s, s)], [rotation] is
    [theta] and [shear] is zero.  Neither call of [arctan2] has its
    arguments on the negative x axis, where numpy goes by the sign of a
    zero; the half turn is left out for that reason. *)
Theorem similarity_decomposition (s theta : R) (A : AffineModel.t) :
  AffineModel.homogeneous A ->
  scaled_rotation s theta (AffineModel.M A) ->
  (0 < s)%R -> (- PI < theta < PI)%R ->
  AffineModel.scale A = (s, s) /\
  AffineModel.rotation A = theta /\
  AffineModel.shear A = 0%R /\
  ~ (m10 (AffineModel.M A) = 0%R /\ (m00 (AffineModel.M A) < 0)%R) /\
  ~ (m01 (AffineModel.M A) = 0%R /\ (m11 (AffineModel.M A) < 0)%R).
Proof.
  intros (H0 & H1 & _) (E00 & E01 & E10 & E11) Hs Ht.
  assert (Hsq : forall a b : R,
             (a = s * cos theta /\ b = s * sin theta \/
              a = - (s * sin theta) /\ b = s * cos theta)%R ->
             sqrt (0 + a ^ 2 + b ^ 2 + 0 ^ 2) = s).
  { intros a b Hab. pose proof (sin2_cos2 theta) as Hsc. unfold Rsqr in Hsc.
    replace (0 + a ^ 2 + b ^ 2 + 0 ^ 2)%R with (s * s)%R.
    - apply sqrt_square. lra.
    - destruct Hab as [[-> ->]|[-> ->]]; nra. }
  assert (Hrot : AffineModel.rotation A = theta).
  { unfold AffineModel.rotation. rewrite E10, E00. apply arctan2_polar; assumption. }
  assert (Haxis : ~ (sin theta = 0 /\ cos theta < 0)%R).
  { intros [Hsin Hcos].
    destruct (Rtotal_order theta 0) as [Hneg|[Hz|Hpos]].
    - assert (sin theta < 0)%R by (apply sin_lt_0_var; lra). lra.
    - rewrite Hz, cos_0 in Hcos. lra.
    - assert (0 < sin theta)%R by (apply sin_gt_0; lra). lra. }
  split; [|split; [|split; [|split]]].
  - unfold AffineModel.scale. rewrite H0, H1. f_equal; apply Hsq; auto.
  - exact Hrot.
  - unfold AffineModel.shear. rewrite Hrot, E01, E11, Ropp_involutive.
    rewrite arctan2_polar by assumption. ring.
  - rewrite E10, E00. intros [Hy Hx]. apply Haxis. split; nra.
  - rewrite E01, E11. intros [Hy Hx]. apply Haxis. split; nra.
Qed.

Lemma similarity_decomposition_witness :
  AffineModel.scale quarter_turn = (2, 2)%R /\
  AffineModel.rotation quarter_turn = (PI / 2)%R /\
  AffineModel.shear quarter_turn = 0%R.
Proof.
  pose proof PI_RGT_0 as Hpi.
  destruct (similarity_decomposition 2 (PI / 2) quarter_turn)
    as (Hs & Hr & Hsh & _).
  - repeat split.
  - unfold scaled_rotation. cbn. rewrite cos_PI2, sin_PI2. repeat split; lra.
  - lra.
  - lra.
  - auto.
Defined.

(** [float] of a string raises nothing but [ValueError]. *)
Lemma float_of_string_raises (s : string) (e : exn) :
  float_of_string s = Raise e -> e = ValueError.
Proof.
  unfold float_of_string.
  destruct (take_sign s) as [neg body].
  destruct (break_at is_exp body) as [mant ex].
  destruct (break_at is_dot mant) as [ip fp].
  destruct (mantissa_val ip fp), (exponent_val ex); intros H;
    try discriminate; injection H as <-; reflexivity.
Qed.

(** X6: decoding an affine text form with fewer than six
    fields never returns: it raises [IndexError] (or [ValueError], when a
    field before the missing one is no number), and the matrix [M], the
    class name and the identifier are as before the call; only scalar
    attributes may have been assigned. *)
Theorem affine_process_short_dataString (ds : string) (self : AffineModel.t) :
  (length (split_ws ds) < 6)%nat ->
  exists e s',
    AffineModel._process_dataString (JStr ds) self = (Raise e, s') /\
    (e = IndexError \/ e = ValueError) /\
    AffineModel.M s' = AffineModel.M self /\
    AffineModel.className s' = AffineModel.className self /\
    AffineModel.transformId s' = AffineModel.transformId self.
Proof.
  intros Hlen. unfold AffineModel._process_dataString.
  unfold mbind, meth_bind, lift, assign.
  destruct (split_ws ds) as [|w0 [|w1 [|w2 [|w3 [|w4 [|w5 l]]]]]];
    [| | | | | |cbn [length] in Hlen; lia];
    cbn [list_item nth_error result_bind];
    repeat match goal with
      | |- context [float_of_string ?w] =>
          let H := fresh "H" in
          destruct (float_of_string w) as [?|?] eqn:H;
          [|apply float_of_string_raises in H; subst]
      end;
    eexists _, _; (split; [reflexivity|]); cbn; auto.
Qed.

Lemma affine_process_short_dataString_witness :
  exists e s',
    AffineModel._process_dataString (JStr "1 0 0 1") AffineModel.default
      = (Raise e, s') /\
    (e = IndexError \/ e = ValueError) /\
    AffineModel.M s' = AffineModel.M AffineModel.default /\
    AffineModel.className s' = AffineModel.className AffineModel.default /\
    AffineModel.transformId s' = AffineModel.transformId AffineModel.default.
Proof.
  apply (affine_process_short_dataString "1 0 0 1" AffineModel.default).
  change (4 < 6)%nat. lia.
Defined.

(** X7: [AffineModel.estimate] recovers an exact correspondence:
    when [dst] holds the images of the N x 2 points [src] under an affine
    map [m], the points are not all on one line, and the solver returns a
    least-squares solution of the system [fit] builds, then [estimate]
    returns, sets the six scalar attributes to the entries of [m], rebuilds
    [M] from them with last row [0 0 1] and leaves the class name and the
    identifier alone. *)
Theorem affine_estimate_exact (np : linalg) (m : mat3) (src dst T : ndarray)
        (return_params : bool) (self : AffineModel.t) :
  shape1 src = 2%nat ->
  maps_by m src dst ->
  non_degenerate src ->
  lstsq np (AffineModel.fit_system src dst).1 (AffineModel.fit_system src dst).2
    = Some T ->
  least_squares (AffineModel.fit_system src dst).1
                (AffineModel.fit_system src dst).2 T ->
  let M' := mk_mat3 (m00 m) (m01 m) (m02 m) (m10 m) (m11 m) (m12 m) 0 0 1 in
  exists self',
    AffineModel.estimate np src dst return_params self
      = (Ok (if return_params then Some M' else None), self') /\
    AffineModel.M self' = M' /\
    AffineModel.M00 self' = m00 m /\ AffineModel.M01 self' = m01 m /\
    AffineModel.M10 self' = m10 m /\ AffineModel.M11 self' = m11 m /\
    AffineModel.B0 self' = m02 m /\ AffineModel.B1 self' = m12 m /\
    AffineModel.className self' = AffineModel.className self /\
    AffineModel.transformId self' = AffineModel.transformId self.
Proof.
  intros Hsrc Hmaps Hnd HT Hmin M'.
  pose proof (least_squares_exact _ src dst T Hmaps Hnd Hmin)
    as (E0 & E1 & E2 & E3 & E4 & E5).
  destruct Hmin as (HT0 & HT1 & _).
  destruct (fit_system_rows src dst) as (_ & Hcols & _). rewrite Hcols in HT0.
  destruct Hmaps as (Hd0 & Hd1 & _).
  unfold AffineModel.estimate, AffineModel.fit.
  rewrite Hd0, Hsrc, Hd1, !Nat.eqb_refl. cbn [andb negb].
  destruct (AffineModel.fit_system src dst) as [M Y]. cbn [fst snd] in HT.
  rewrite HT.
  unfold mbind, meth_bind, lift, assign, read, mret, meth_ret.
  rewrite !getitem_ok by lia.
  rewrite E0, E1, E2, E3, E4, E5.
  eexists. split.
  - destruct return_params; reflexivity.
  - repeat split.
Qed.

Lemma affine_estimate_exact_witness :
  exists self',
    AffineModel.estimate identity_linalg three_points three_points true
      AffineModel.default
      = (Ok (Some (mk_mat3 1 0 0 0 1 0 0 0 1)), self') /\
    AffineModel.M self' = mk_mat3 1 0 0 0 1 0 0 0 1.
Proof.
  destruct (affine_estimate_exact identity_linalg identity3 three_points three_points
              (mk_ndarray 6 1 (fun i _ => nth i [1; 0; 0; 1; 0; 0]%R 0%R))
              true AffineModel.default)
    as (self' & He & HM & _).
  - reflexivity.
  - apply (maps_by_id three_points eq_refl).
  - exists 0%nat, 1%nat, 2%nat. cbn. repeat split; try lia. lra.
  - reflexivity.
  - destruct (fit_system_rows three_points three_points) as (_ & Hcols & _).
    split; [symmetry; exact Hcols|]. split; [reflexivity|].
    intros theta.
    change (fun c : nat => item _ c 0) with (params_of identity3).
    rewrite (residual_exact identity3 three_points three_points).
    + apply residual_nonneg.
    + apply (maps_by_id three_points eq_refl).
  - exists self'. split; [exact He|exact HM].
Defined.

Lemma fold_sum_shift (f g : nat -> R) (t x : R) (a n : nat) :
  (forall i, (a <= i < a + n)%nat -> g i = (f i + t)%R) ->
  fold_left (fun acc i => acc + g i)%R (seq a n) x
  = (fold_left (fun acc i => acc + f i)%R (seq a n) x + INR n * t)%R.
Proof.
  induction n as [|n IH]; intros H.
  - cbn. ring.
  - rewrite seq_S, !fold_left_app. cbn [fold_left].
    rewrite IH by (intros i Hi; apply H; lia).
    rewrite (H (a + n)%nat) by lia. rewrite S_INR. ring.
Qed.

Lemma col_mean_shift (src dst : ndarray) (j : nat) (t : R) :
  shape0 dst = shape0 src -> (0 < shape0 src)%nat ->
  (forall i, (i < shape0 src)%nat -> item dst i j = (item src i j + t)%R) ->
  (col_mean dst j - col_mean src j = t)%R.
Proof.
  intros Hn Hpos H. unfold col_mean, col_sum. rewrite Hn.
  rewrite (fold_sum_shift (fun i => item src i j) (fun i => item dst i j) t)
    by (intros i Hi; apply H; lia).
  assert (INR (shape0 src) <> 0%R) by (apply not_0_INR; lia).
  field. assumption.
Qed.

(** X8: [TranslationModel.fit] recovers an exact translation:
    when every row of the N x 2 array [dst] (N > 0) is the row of [src]
    moved by [(tx, ty)], [fit] returns the matrix of that translation;
    [estimate] stores it in [M] without touching [B0] and [B1], and the
    model then maps [src] to [dst]. *)
Theorem translation_fit_exact (src dst : ndarray) (tx ty : R)
        (return_params : bool) (self : AffineModel.t) :
  shape1 src = 2%nat -> shape1 dst = 2%nat ->
  shape0 dst = shape0 src -> (0 < shape0 src)%nat ->
  (forall i, (i < shape0 src)%nat ->
     item dst i 0 = (item src i 0 + tx)%R /\ item dst i 1 = (item src i 1 + ty)%R) ->
  let T := mk_mat3 1 0 tx 0 1 ty 0 0 1 in
  let out := TranslationModel.estimate src dst return_params self in
  TranslationModel.fit src dst = Ok T /\
  out.1 = Ok (if return_params then Some T else None) /\
  AffineModel.M out.2 = T /\
  AffineModel.translation out.2 = (tx, ty) /\
  AffineModel.B0 out.2 = AffineModel.B0 self /\
  AffineModel.B1 out.2 = AffineModel.B1 self /\
  exists q, AffineModel.tform out.2 src = Ok q /\ array_eq q dst.
Proof.
  intros Hs Hd Hn Hpos H T out.
  assert (Hfit : TranslationModel.fit src dst = Ok T).
  { unfold TranslationModel.fit. rewrite Hs, Hd. cbn [Nat.eqb orb negb].
    unfold T. f_equal. f_equal.
    - apply col_mean_shift; [assumption..|]. intros i Hi. apply H, Hi.
    - apply col_mean_shift; [assumption..|]. intros i Hi. apply H, Hi. }
  assert (Hout : out = (Ok (if return_params then Some T else None),
                        AffineModel.set_M T self)).
  { unfold out, TranslationModel.estimate. rewrite Hfit.
    unfold mbind, meth_bind, lift, assign, read, mret, meth_ret.
    destruct return_params; reflexivity. }
  rewrite Hout. cbn [fst snd].
  split; [exact Hfit|]. split; [reflexivity|]. split; [reflexivity|].
  split; [reflexivity|]. split; [reflexivity|]. split; [reflexivity|].
  unfold AffineModel.tform, AffineModel.convert_to_point_vector.
  rewrite Hs. cbn [Nat.eqb negb mbind result_bind].
  eexists. split; [reflexivity|].
  split; [cbn; congruence|]. split; [cbn; congruence|].
  intros i j Hi Hj. cbn in Hi, Hj.
  destruct (H i Hi) as [E0 E1].
  destruct j as [|[|j]]; [rewrite E0|rewrite E1|lia]; cbn; field.
Qed.

Lemma translation_fit_exact_witness :
  TranslationModel.fit three_points three_points = Ok (mk_mat3 1 0 0 0 1 0 0 0 1) /\
  AffineModel.M (TranslationModel.estimate three_points three_points true
                   AffineModel.default).2
  = mk_mat3 1 0 0 0 1 0 0 0 1.
Proof.
  destruct (translation_fit_exact three_points three_points 0 0 true
              AffineModel.default) as (Hfit & _ & HM & _).
  - reflexivity.
  - reflexivity.
  - reflexivity.
  - cbn. lia.
  - intros i _. split; ring.
  - split; [exact Hfit|exact HM].
Defined.

(** ** Polynomials: evaluation, fitting, orders and the text form *)

Section TformEval.

Variables (prm points : ndarray).
Hypothesis Hrows : shape0 prm = 2%nat.

(** What the inner loop adds to the destination. *)
Lemma inner_loop_eval (j k a pidx : nat) (dst : ndarray) :
  (pidx + k <= shape1 prm)%nat ->
  exists d,
    for_each (Polynomial2DTransform.tform_step prm points j) (seq a k) (dst, pidx)
      = Ok (d, (pidx + k)%nat) /\
    forall r,
      item d r 0 = (item dst r 0 +
                    big_sum k (fun t => item prm 0 (pidx + t) * (item points r 0 ^ (j - (a + t)) * item points r 1 ^ (a + t))))%R /\
      item d r 1 = (item dst r 1 +
                    big_sum k (fun t => item prm 1 (pidx + t) * (item points r 0 ^ (j - (a + t)) * item points r 1 ^ (a + t))))%R /\
      forall c, (2 <= c)%nat -> item d r c = item dst r c.
Proof using Hrows.
  induction k as [|k IH]; intros Hk.
  - exists dst. simpl. rewrite Nat.add_0_r. split; [reflexivity|].
    intros r. repeat split; try ring. 
  - destruct IH as (d & Hd & Hitems); [lia|].
    rewrite seq_S, for_each_app, Hd.
    cbn [mbind result_bind for_each Polynomial2DTransform.tform_step].
    rewrite !getitem_ok by lia. cbn [mbind result_bind].
    eexists. split; [do 2 f_equal; lia|].
    intros r. destruct (Hitems r) as (E0 & E1 & E2).
    cbn [item add_col Nat.eqb big_sum]. rewrite E0, E1.
    repeat split; try ring.
    intros c Hc. destruct c as [|[|c]]; [lia|lia|]. cbn [Nat.eqb]. apply E2. lia.
Qed.

Lemma outer_loop_eval (k a : nat) (dst : ndarray) :
  (tri (a + k) <= shape1 prm)%nat ->
  exists d,
    for_each
      (fun st j => for_each (Polynomial2DTransform.tform_step prm points j)
                            (seq 0 (j + 1)) st)
      (seq a k) (dst, tri a) = Ok (d, tri (a + k)) /\
    forall r,
      item d r 0
      = (item dst r 0 +
         big_sum k (fun u => big_sum (a + u + 1)
                      (fun i => item prm 0 (tri (a + u) + i) * (item points r 0 ^ (a + u - i) * item points r 1 ^ i))))%R /\
      item d r 1
      = (item dst r 1 +
         big_sum k (fun u => big_sum (a + u + 1)
                      (fun i => item prm 1 (tri (a + u) + i) * (item points r 0 ^ (a + u - i) * item points r 1 ^ i))))%R /\
      forall c, (2 <= c)%nat -> item d r c = item dst r c.
Proof using Hrows.
  induction k as [|k IH]; intros Hk.
  - exists dst. simpl. rewrite Nat.add_0_r. split; [reflexivity|].
    intros r. repeat split; try ring.
  - assert (Htri : (tri (a + k) + (a + k + 1) = tri (a + S k))%nat).
    { replace (a + S k)%nat with (S (a + k)) by lia. simpl. lia. }
    destruct IH as (d & Hd & Hitems); [lia|].
    rewrite seq_S, for_each_app, Hd.
    cbn [mbind result_bind for_each].
    destruct (inner_loop_eval (a + k) (a + k + 1) 0 (tri (a + k)) d)
      as (d' & Hd' & Hitems'); [lia|].
    rewrite Hd'. cbn [mbind result_bind]. rewrite Htri.
    exists d'. split; [reflexivity|].
    intros r. destruct (Hitems r) as (E0 & E1 & E2).
    destruct (Hitems' r) as (E0' & E1' & E2').
    cbn [Nat.add] in E0', E1'.
    cbn [big_sum]. rewrite E0', E1', E0, E1.
    repeat split; try ring.
    intros c Hc. rewrite E2', E2 by lia. reflexivity.
Qed.

End TformEval.

(** The entries [tform] returns. *)
Lemma tform_items (p : Polynomial2DTransform.t) (o : nat) (points : ndarray) :
  well_formed p o ->
  (2 <= shape1 points)%nat ->
  exists d,
    Polynomial2DTransform.tform p points = Ok d /\
    shape0 d = shape0 points /\ shape1 d = shape1 points /\
    forall r,
      item d r 0 = poly_eval (item (Polynomial2DTransform.params p) 0) o
                             (item points r 0) (item points r 1) /\
      item d r 1 = poly_eval (item (Polynomial2DTransform.params p) 1) o
                             (item points r 0) (item points r 1) /\
      forall c, (2 <= c)%nat -> item d r c = 0%R.
Proof.
  intros [H0 H1] Hp. unfold Polynomial2DTransform.tform.
  destruct (Nat.ltb_spec (shape1 points) 2); [lia|].
  unfold Polynomial2DTransform.ravel_len. rewrite H0, H1, tform_order_tri.
  replace (Z.to_nat (Z.of_nat o + 1)) with (o + 1)%nat by lia.
  unfold Polynomial2DTransform.tform_loop.
  destruct (outer_loop_eval (Polynomial2DTransform.params p) points H0 (o + 1) 0
              (zeros (shape0 points) (shape1 points)))
    as (d & Hd & Hitems).
  - rewrite H1. apply Nat.le_refl.
  - change (tri 0) with 0%nat in Hd. rewrite Hd. cbn [mbind result_bind].
    exists d. split; [reflexivity|].
    destruct (tform_loop_shape _ _ _ _ _ _ _ Hd) as [S0 S1].
    split; [exact S0|]. split; [exact S1|].
    intros r. destruct (Hitems r) as (E0 & E1 & E2).
    rewrite E0, E1. unfold poly_eval. cbn [item zeros].
    repeat split; try (rewrite Rplus_0_l; reflexivity).
    intros c Hc. rewrite E2 by exact Hc. reflexivity.
Qed.

(** X9: [Polynomial2DTransform.tform] evaluates the polynomial: for
    parameters of shape [2 x (o+1)(o+2)/2] and an N x 2 array, the result
    is an N x 2 array whose entry in row [r] and column [c] is the sum over
    the degrees [j <= o] and the powers [i <= j] of
    [params[c, j(j+1)/2 + i] * x^(j-i) * y^i] at the point [(x, y)] of row
    [r]. *)
Theorem poly_tform_eval (p : Polynomial2DTransform.t) (o : nat) (points : ndarray) :
  well_formed p o ->
  shape1 points = 2%nat ->
  exists d,
    Polynomial2DTransform.tform p points = Ok d /\
    shape0 d = shape0 points /\ shape1 d = 2%nat /\
    forall r,
      item d r 0 = poly_eval (item (Polynomial2DTransform.params p) 0) o
                             (item points r 0) (item points r 1) /\
      item d r 1 = poly_eval (item (Polynomial2DTransform.params p) 1) o
                             (item points r 0) (item points r 1).
Proof.
  intros Hp Hs.
  destruct (tform_items p o points Hp ltac:(lia)) as (d & Hd & S0 & S1 & Hitems).
  exists d. split; [exact Hd|]. split; [exact S0|]. split; [congruence|].
  intros r. destruct (Hitems r) as (E0 & E1 & _). auto.
Qed.

Lemma poly_tform_eval_witness :
  exists d,
    Polynomial2DTransform.tform Polynomial2DTransform.init_identity three_points = Ok d /\
    shape0 d = shape0 three_points /\ shape1 d = 2%nat /\
    forall r,
      item d r 0
      = poly_eval (item (Polynomial2DTransform.params Polynomial2DTransform.init_identity) 0)
                  1 (item three_points r 0) (item three_points r 1) /\
      item d r 1
      = poly_eval (item (Polynomial2DTransform.params Polynomial2DTransform.init_identity) 1)
                  1 (item three_points r 0) (item three_points r 1).
Proof.
  apply (poly_tform_eval Polynomial2DTransform.init_identity 1 three_points).
  - split; reflexivity.
  - reflexivity.
Defined.

Lemma poly_eval_order1 (c : nat -> R) (x y : R) :
  poly_eval c 1 x y = (c 0%nat + c 1%nat * x + c 2%nat * y)%R.
Proof. unfold poly_eval. cbn. ring. Qed.

(** X10: [Polynomial2DTransform(identity=True)] maps every
    N x 2 array to itself. *)
Theorem identity_polynomial_tform (points : ndarray) :
  shape1 points = 2%nat ->
  exists d,
    Polynomial2DTransform.tform Polynomial2DTransform.init_identity points = Ok d /\
    array_eq d points.
Proof.
  intros Hs.
  destruct (tform_items Polynomial2DTransform.init_identity 1 points)
    as (d & Hd & S0 & S1 & Hitems); [split; reflexivity|lia|].
  exists d. split; [exact Hd|].
  split; [exact S0|]. split; [exact S1|].
  intros i j _ Hj. rewrite S1, Hs in Hj.
  destruct (Hitems i) as (E0 & E1 & _).
  destruct j as [|[|j]]; [rewrite E0|rewrite E1|lia];
    rewrite poly_eval_order1; cbn; ring.
Qed.

Lemma identity_polynomial_tform_witness :
  exists d,
    Polynomial2DTransform.tform Polynomial2DTransform.init_identity three_points = Ok d /\
    array_eq d three_points.
Proof. apply (identity_polynomial_tform three_points). reflexivity. Defined.

(** X11: [Polynomial2DTransform.fromAffine] keeps the map: for an
    instance of [AffineModel] or of one of its subclasses whose matrix has
    last row [0 0 1], the polynomial it returns has order 1 and maps every
    N x 2 array as the affine model does; an object of another class is
    rejected with [ConversionError]. *)
Theorem fromAffine_tform (wrap : AffineModel.t -> pyobj) (a : AffineModel.t)
        (points : ndarray) :
  In wrap [OAffineModel; OTranslationModel; ORigidModel; OSimilarityModel] ->
  AffineModel.homogeneous a ->
  shape1 points = 2%nat ->
  exists p d d',
    fromAffine (wrap a) = Ok p /\
    Polynomial2DTransform.order p = 1%Z /\
    Polynomial2DTransform.tform p points = Ok d /\
    obj_tform (wrap a) points = Ok d' /\
    array_eq d d' /\
    forall o, match o with
              | OAffineModel _ | OTranslationModel _ | ORigidModel _
              | OSimilarityModel _ => True
              | _ => fromAffine o = Raise ConversionError
              end.
Proof.
  intros Hw Ha Hs.
  destruct (affine_tform_maps a points Ha Hs) as (d' & Hd' & M0 & M1 & Hm).
  set (p := Polynomial2DTransform.init_params
              (mk_ndarray 2 3
                 (fun i j => nth j (nth i [[m02 (AffineModel.M a);
                                            m00 (AffineModel.M a);
                                            m01 (AffineModel.M a)];
                                           [m12 (AffineModel.M a);
                                            m10 (AffineModel.M a);
                                            m11 (AffineModel.M a)]] []) 0%R))).
  assert (Hwf : well_formed p 1) by (split; reflexivity).
  destruct (tform_items p 1 points Hwf ltac:(lia)) as (d & Hd & S0 & S1 & Hitems).
  exists p, d, d'.
  assert (Hfa : fromAffine (wrap a) = Ok p /\ obj_tform (wrap a) points = Ok d').
  { cbn [In] in Hw. destruct Hw as [<-|[<-|[<-|[<-|[]]]]]; split; auto. }
  destruct Hfa as [Hfa Hot].
  split; [exact Hfa|]. split.
  { unfold Polynomial2DTransform.order, Polynomial2DTransform.ravel_len.
    destruct Hwf as [-> ->]. apply (order_of_len_tri 1). }
  split; [exact Hd|]. split; [exact Hot|].
  split; [|intros o; destruct o; exact I || reflexivity].
  split; [congruence|]. split; [congruence|].
  intros i j _ Hj. rewrite S1, Hs in Hj.
  destruct (Hitems i) as (E0 & E1 & _). destruct (Hm i) as [F0 F1].
  destruct j as [|[|j]]; [rewrite E0, F0|rewrite E1, F1|lia];
    rewrite poly_eval_order1; cbn; ring.
Qed.

Lemma fromAffine_tform_witness :
  exists p d d',
    fromAffine (OSimilarityModel quarter_turn) = Ok p /\
    Polynomial2DTransform.order p = 1%Z /\
    Polynomial2DTransform.tform p three_points = Ok d /\
    obj_tform (OSimilarityModel quarter_turn) three_points = Ok d' /\
    array_eq d d'.
Proof.
  destruct (fromAffine_tform OSimilarityModel quarter_turn three_points)
    as (p & d & d' & H1 & H2 & H3 & H4 & H5 & _).
  - right; right; right; left. reflexivity.
  - repeat split.
  - reflexivity.
  - exists p, d, d'. auto.
Defined.

(** X12: the guards of [Polynomial2DTransform.fit] on arrays of two
    columns: the call raises [EstimationError] exactly when the two arrays
    differ in their number of rows or there are fewer rows than
    [(order+1)(order+2)], whatever the solver does; and parameters it
    returns have shape [2 x (order+1)(order+2)/2]. *)
Theorem poly_fit_guards (np : linalg) (k : nat) (src dst : ndarray) (order : nat) :
  shape1 src = 2%nat ->
  shape1 dst = 2%nat ->
  (Polynomial2DTransform.fit np k src dst order = Raise EstimationError <->
   shape0 src <> shape0 dst \/ (shape0 src < (order + 1) * (order + 2))%nat) /\
  (forall prm, Polynomial2DTransform.fit np k src dst order = Ok prm ->
     shape0 prm = 2%nat /\ shape1 prm = tri (order + 1)).
Proof.
  intros Hsrc Hdst. unfold Polynomial2DTransform.fit. rewrite Hsrc, Hdst.
  change ((2 <? 2)%nat || (2 <? 2)%nat) with false. cbv iota.
  destruct (Nat.eqb_spec (shape0 src) (shape0 dst)) as [Heq|Hne]; cbn [negb].
  - destruct (Nat.ltb_spec (shape0 src) ((order + 1) * (order + 2))) as [Hlt|Hge].
    + split; [split; auto|discriminate].
    + split.
      * split; [|intros [H|H]; [contradiction|lia]].
        destruct (svd_vsm np k _) as [[]|Vsm]; discriminate.
      * destruct (svd_vsm np k _) as [[]|Vsm]; try discriminate.
        intros prm H. injection H as <-. split; [reflexivity|].
        cbn. apply half_coefficients_tri.
  - split; [split; auto|discriminate].
Qed.

Lemma poly_fit_guards_witness :
  (Polynomial2DTransform.fit constant_linalg 1 three_points three_points 2
     = Raise EstimationError <->
   shape0 three_points <> shape0 three_points \/
   (shape0 three_points < (2 + 1) * (2 + 2))%nat) /\
  (forall prm,
     Polynomial2DTransform.fit constant_linalg 1 three_points three_points 2 = Ok prm ->
     shape0 prm = 2%nat /\ shape1 prm = tri (2 + 1)).
Proof.
  apply (poly_fit_guards constant_linalg 1 three_points three_points 2); reflexivity.
Defined.

Lemma big_sum_app (a b : nat) (f : nat -> R) :
  big_sum (a + b) f = (big_sum a f + big_sum b (fun i => f (a + i)%nat))%R.
Proof.
  induction b as [|b IH].
  - rewrite Nat.add_0_r. simpl. ring.
  - rewrite Nat.add_succ_r. simpl. rewrite IH. ring.
Qed.

Lemma big_sum_halves (h : nat) (f : nat -> R) :
  big_sum (h + h + 1) f
  = (big_sum h f + big_sum h (fun i => f (h + i)%nat) + f (h + h)%nat)%R.
Proof. rewrite Nat.add_1_r. cbn [big_sum]. rewrite big_sum_app. reflexivity. Qed.

Lemma big_sum_scale (k : R) (n : nat) (f : nat -> R) :
  big_sum n (fun i => k * f i)%R = (k * big_sum n f)%R.
Proof. induction n as [|n IH]; simpl; [ring|rewrite IH; ring]. Qed.

Lemma big_sum_tri (n : nat) (f : nat -> R) :
  big_sum (tri n) f
  = big_sum n (fun j => big_sum (j + 1) (fun i => f (tri j + i)%nat)).
Proof.
  induction n as [|n IH]; [reflexivity|].
  cbn [tri big_sum]. rewrite big_sum_app, IH, Nat.add_1_r. reflexivity.
Qed.

Lemma tri_succ (j : nat) : tri (S j) = (tri j + S j)%nat.
Proof. reflexivity. Qed.

Lemma tri_index_lt (j i n : nat) :
  (i <= j)%nat -> (j < n)%nat -> (tri j + i < tri n)%nat.
Proof.
  intros Hi Hj. pose proof (tri_mono (S j) n ltac:(lia)) as H.
  rewrite tri_succ in H. lia.
Qed.

Lemma tri_index_inj (j i j' i' : nat) :
  (i <= j)%nat -> (i' <= j')%nat -> (tri j + i = tri j' + i')%nat ->
  j = j' /\ i = i'.
Proof.
  intros Hi Hi' H.
  destruct (Nat.lt_trichotomy j j') as [Hlt|[->|Hgt]].
  - pose proof (tri_index_lt j i j' Hi Hlt). lia.
  - split; [reflexivity|lia].
  - pose proof (tri_index_lt j' i' j Hi' Hgt). lia.
Qed.

Ltac bool_cases :=
  repeat match goal with
    | |- context [Nat.eqb ?a ?b] => destruct (Nat.eqb_spec a b)
    | |- context [Nat.leb ?a ?b] => destruct (Nat.leb_spec a b)
    | |- context [Nat.ltb ?a ?b] => destruct (Nat.ltb_spec a b)
    end; cbn [andb]; try lia.

Section FitMatrix.

Variables (src dst : ndarray) (order : nat).

Lemma fit_columns_step (j i : nat) (A : ndarray) :
  (i <= j)%nat -> (j <= order)%nat ->
  fit_columns src order (tri j + i) A ->
  fit_columns src order (S (tri j + i))
    (set_col
       (set_col A 0 (shape0 src) (tri j + i)
          (fun r => item src r 0 ^ (j - i) * item src r 1 ^ i)%R)
       (shape0 src) (shape0 src * 2) (tri j + i + tri (order + 1))
       (fun r => item src r 0 ^ (j - i) * item src r 1 ^ i)%R).
Proof.
  intros Hi Hj (Ha & Hb & Hc).
  pose proof (tri_index_lt j i (order + 1) Hi ltac:(lia)) as Hp.
  split; [|split].
  - intros j' i' r Hi' Hlt Hr.
    destruct (Nat.eq_dec (tri j' + i') (tri j + i)) as [E|N].
    + destruct (tri_index_inj j' i' j i Hi' Hi E) as [-> ->].
      cbn [item set_col]. split; bool_cases.
      * rewrite Nat.sub_0_r. reflexivity.
      * replace (shape0 src + r - shape0 src)%nat with r by lia. reflexivity.
    + destruct (Ha j' i' r Hi' ltac:(lia) Hr) as [E0 E1].
      cbn [item set_col]. split; bool_cases. all: assumption.
  - intros r c Hr Hc'. cbn [item set_col]. bool_cases; apply Hb; assumption.
  - intros r c Hr Hc'. cbn [item set_col]. bool_cases; apply Hc; assumption.
Qed.

Lemma fit_inner_loop (j k : nat) (A : ndarray) :
  (j <= order)%nat -> (k <= j + 1)%nat ->
  fit_columns src order (tri j) A ->
  exists A',
    fold_left
      (fun '(A, pidx) i =>
         let term := fun r => (item src r 0 ^ (j - i) * item src r 1 ^ i)%R in
         let A := set_col A 0 (shape0 src) pidx term in
         let A := set_col A (shape0 src) (shape0 src * 2)
                          (pidx + (order + 1) * (order + 2) / 2) term in
         (A, S pidx))
      (seq 0 k) (A, tri j) = (A', (tri j + k)%nat) /\
    fit_columns src order (tri j + k) A'.
Proof.
  intros Hj Hk HA. induction k as [|k IH].
  - exists A. rewrite Nat.add_0_r. split; [reflexivity|exact HA].
  - destruct IH as (A' & HA' & Hinv); [lia|].
    rewrite seq_S, fold_left_app, HA'. cbn [fold_left Nat.add].
    rewrite half_coefficients_tri.
    eexists. split; [f_equal; lia|].
    replace (tri j + S k)%nat with (S (tri j + k)) by lia.
    apply fit_columns_step; [lia|exact Hj|exact Hinv].
Qed.

Lemma fit_outer_loop (a : nat) (A : ndarray) :
  (a <= order + 1)%nat ->
  fit_columns src order 0 A ->
  exists A',
    fold_left
      (fun st j =>
         fold_left
           (fun '(A, pidx) i =>
              let term := fun r => (item src r 0 ^ (j - i) * item src r 1 ^ i)%R in
              let A := set_col A 0 (shape0 src) pidx term in
              let A := set_col A (shape0 src) (shape0 src * 2)
                               (pidx + (order + 1) * (order + 2) / 2) term in
              (A, S pidx))
           (seq 0 (j + 1)) st)
      (seq 0 a) (A, 0%nat) = (A', tri a) /\
    fit_columns src order (tri a) A'.
Proof.
  intros Ha HA. induction a as [|a IH].
  - exists A. split; [reflexivity|exact HA].
  - destruct IH as (A' & HA' & Hinv); [lia|].
    rewrite seq_S, fold_left_app, HA'.
    change (fold_left ?f [(0 + a)%nat] (A', tri a)) with (f (A', tri a) a).
    cbv beta.
    destruct (fit_inner_loop a (a + 1) A') as (A'' & HA'' & Hinv'');
      [lia|lia|exact Hinv|].
    rewrite HA''. exists A''. rewrite tri_succ.
    split; [f_equal; lia|].
    replace (tri a + S a)%nat with (tri a + (a + 1))%nat by lia. exact Hinv''.
Qed.

(** The rows of the matrix of [fit] against a vector. *)
Lemma fit_matrix_rows (v : nat -> R) (r : nat) :
  (r < shape0 src)%nat ->
  let nc := ((order + 1) * (order + 2))%nat in
  let F := Polynomial2DTransform.fit_matrix src dst order in
  big_sum (nc + 1) (fun c => item F r c * v c)%R
  = (big_sum (order + 1)
       (fun j => big_sum (j + 1)
          (fun i => v (tri j + i)%nat *
                    (item src r 0 ^ (j - i) * item src r 1 ^ i)))
     + item dst r 0 * v nc)%R /\
  big_sum (nc + 1) (fun c => item F (shape0 src + r) c * v c)%R
  = (big_sum (order + 1)
       (fun j => big_sum (j + 1)
          (fun i => v (tri (order + 1) + (tri j + i))%nat *
                    (item src r 0 ^ (j - i) * item src r 1 ^ i)))
     + item dst r 1 * v nc)%R.
Proof.
  intros Hr nc F. subst nc.
  assert (Hnc : ((order + 1) * (order + 2) = tri (order + 1) + tri (order + 1))%nat).
  { pose proof (tri_double (order + 1)). lia. }
  destruct (fit_outer_loop (order + 1)
              (zeros (shape0 src * 2) ((order + 1) * (order + 2) + 1)))
    as (A' & HA' & Ha & Hb & Hc); [lia| |].
  { split; [intros; lia|]. split; intros; reflexivity. }
  assert (HF : F = set_col
                     (set_col A' 0 (shape0 src) ((order + 1) * (order + 2))
                              (fun r => item dst r 0))
                     (shape0 src) (shape0 src * 2) ((order + 1) * (order + 2))
                     (fun r => item dst r 1)).
  { unfold F, Polynomial2DTransform.fit_matrix. cbv zeta in HA' |- *. rewrite HA'. reflexivity. }
  clearbody F. clear HA'. rewrite Hnc in *.
  set (h := tri (order + 1)) in *.
  assert (Hlow : forall j i, (i <= j)%nat -> (j < order + 1)%nat ->
            item F r (tri j + i) = (item src r 0 ^ (j - i) * item src r 1 ^ i)%R /\
            item F (shape0 src + r) (h + (tri j + i))
            = (item src r 0 ^ (j - i) * item src r 1 ^ i)%R).
  { intros j i Hi Hj.
    pose proof (tri_index_lt j i (order + 1) Hi Hj) as Hlt. fold h in Hlt.
    destruct (Ha j i r Hi Hlt Hr) as [E0 E1].
    rewrite HF. cbn [item set_col]. split; bool_cases; assumption. }
  rewrite !big_sum_halves.
  split.
  - rewrite (big_sum_all_zero h (fun i => item F r (h + i) * v (h + i)%nat)%R).
    2:{ intros c Hc'. rewrite HF. cbn [item set_col]. bool_cases.
        rewrite Hb by lia. ring. }
    unfold h at 1. rewrite big_sum_tri.
    assert (Hlast : item F r (h + h) = item dst r 0).
    { rewrite HF. cbn [item set_col]. bool_cases.
      rewrite Nat.sub_0_r. reflexivity. }
    rewrite Hlast.
    rewrite (big_sum_ext (order + 1) _
               (fun j => big_sum (j + 1)
                  (fun i => v (tri j + i)%nat *
                            (item src r 0 ^ (j - i) * item src r 1 ^ i)))%R).
    + ring.
    + intros j Hj. apply big_sum_ext. intros i Hi.
      destruct (Hlow j i ltac:(lia) Hj) as [-> _]. ring.
  - rewrite (big_sum_all_zero h (fun c => item F (shape0 src + r) c * v c)%R).
    2:{ intros c Hc'. rewrite HF. cbn [item set_col]. bool_cases.
        rewrite Hc by lia. ring. }
    unfold h at 1. rewrite big_sum_tri.
    assert (Hlast : item F (shape0 src + r) (h + h) = item dst r 1).
    { rewrite HF. cbn [item set_col]. bool_cases.
      replace (shape0 src + r - shape0 src)%nat with r by lia. reflexivity. }
    rewrite Hlast.
    rewrite (big_sum_ext (order + 1) _
               (fun j => big_sum (j + 1)
                  (fun i => v (h + (tri j + i))%nat *
                            (item src r 0 ^ (j - i) * item src r 1 ^ i)))%R).
    + ring.
    + intros j Hj. apply big_sum_ext. intros i Hi.
      destruct (Hlow j i ltac:(lia) Hj) as [_ ->]. ring.
Qed.

End FitMatrix.

Lemma allclose_of_eq (a b : ndarray) (atol : R) :
  array_eq a b -> (0 <= atol)%R -> allclose a b atol 0 = Ok true.
Proof.
  intros (H0 & H1 & H) Hatol. unfold allclose.
  rewrite H0, H1, !Nat.eqb_refl. cbn [andb]. f_equal.
  apply forallb_forall. intros i Hi. apply forallb_forall. intros j Hj.
  apply in_seq in Hi, Hj. unfold isclose.
  rewrite H by lia.
  destruct (Rle_dec _ _) as [|N]; [reflexivity|].
  exfalso. apply N. rewrite Rminus_diag, Rabs_R0. lra.
Qed.

(** The parameters [fit] computes from a vector of the null space of its
    matrix. *)
Lemma fit_null_vector (np : linalg) (k : nat) (src dst : ndarray) (order : nat)
        (v : nat -> R) :
  let nc := ((order + 1) * (order + 2))%nat in
  shape1 src = 2%nat -> shape1 dst = 2%nat ->
  shape0 dst = shape0 src ->
  (nc <= shape0 src)%nat ->
  svd_vsm np k (Polynomial2DTransform.fit_matrix src dst order) = inr v ->
  v nc <> 0%R ->
  (forall r, (r < shape0 src * 2)%nat ->
     big_sum (nc + 1)
       (fun c => item (Polynomial2DTransform.fit_matrix src dst order) r c * v c)%R
     = 0%R) ->
  exists prm res,
    Polynomial2DTransform.fit np k src dst order = Ok prm /\
    Polynomial2DTransform.tform (Polynomial2DTransform.init_params prm) src = Ok res /\
    array_eq res dst /\
    forall atol, (0 <= atol)%R ->
      Polynomial2DTransform.fitgood src dst prm atol 0 = Ok true.
Proof.
  intros nc Hs Hd Hn Hnc Hsvd Hv Hnull.
  set (h := tri (order + 1)).
  assert (Hh : (nc / 2 = h)%nat) by apply half_coefficients_tri.
  set (prm := mk_ndarray 2 h (fun i j => (- v (i * h + j)%nat / v nc)%R)).
  assert (Hfit : Polynomial2DTransform.fit np k src dst order = Ok prm).
  { unfold Polynomial2DTransform.fit. rewrite Hs, Hd, Hn, Nat.eqb_refl.
    change ((2 <? 2)%nat || (2 <? 2)%nat) with false. cbv iota. cbn [negb].
    fold nc. destruct (Nat.ltb_spec (shape0 src) nc); [lia|].
    rewrite Hsvd, Hh. reflexivity. }
  assert (Hwf : well_formed (Polynomial2DTransform.init_params prm) order)
    by (split; reflexivity).
  destruct (tform_items _ order src Hwf ltac:(lia)) as (res & Hres & S0 & S1 & Hitems).
  assert (Heq : array_eq res dst).
  { split; [congruence|]. split; [congruence|].
    intros r j Hr Hj. rewrite S0 in Hr. rewrite S1, Hs in Hj.
    destruct (Hitems r) as (E0 & E1 & _).
    destruct (fit_matrix_rows src dst order v r Hr) as [R0 R1]. fold nc in R0, R1.
    rewrite Hnull in R0 by lia. rewrite Hnull in R1 by lia.
    unfold poly_eval in E0, E1.
    cbn [Polynomial2DTransform.params Polynomial2DTransform.init_params prm item]
      in E0, E1.
    destruct j as [|[|j]]; [rewrite E0|rewrite E1|lia].
    - rewrite (big_sum_ext (order + 1) _
                 (fun j => (- / v nc) *
                    big_sum (j + 1)
                      (fun i => v (tri j + i)%nat *
                                (item src r 0 ^ (j - i) * item src r 1 ^ i)))%R).
      + rewrite big_sum_scale. apply Rmult_eq_reg_l with (v nc); [|exact Hv].
        field_simplify; [|exact Hv]. lra.
      + intros j Hj'. rewrite <- big_sum_scale. apply big_sum_ext. intros i Hi.
        cbn [Nat.mul Nat.add]. field. exact Hv.
    - rewrite (big_sum_ext (order + 1) _
                 (fun j => (- / v nc) *
                    big_sum (j + 1)
                      (fun i => v (h + (tri j + i))%nat *
                                (item src r 0 ^ (j - i) * item src r 1 ^ i)))%R).
      + rewrite big_sum_scale. apply Rmult_eq_reg_l with (v nc); [|exact Hv].
        field_simplify; [|exact Hv]. fold h in R1. lra.
      + intros j Hj'. rewrite <- big_sum_scale. apply big_sum_ext. intros i Hi.
        rewrite Nat.mul_1_l. field. exact Hv. }
  exists prm, res. split; [exact Hfit|]. split; [exact Hres|]. split; [exact Heq|].
  intros atol Hatol.
  unfold Polynomial2DTransform.fitgood. rewrite Hres. cbn [mbind result_bind].
  apply allclose_of_eq; assumption.
Qed.

(** X13: [fit] and [tform] agree on the layout of the coefficients:
    when the singular vector the solver returns is in the null space of the
    matrix [fit] builds from the N x 2 arrays [src] and [dst] and its last
    entry is not zero, [fit] returns the other entries of the vector,
    negated, divided by the last one and cut into two rows, and these
    parameters map [src] exactly to [dst], so that [estimate] accepts them
    at every tolerance [atol >= 0]. *)
Theorem poly_fit_exact (np : linalg) (k : nat) (src dst : ndarray) (order : nat)
        (v : nat -> R) :
  let nc := ((order + 1) * (order + 2))%nat in
  shape1 src = 2%nat -> shape1 dst = 2%nat ->
  shape0 dst = shape0 src ->
  (nc <= shape0 src)%nat ->
  svd_vsm np k (Polynomial2DTransform.fit_matrix src dst order) = inr v ->
  v nc <> 0%R ->
  (forall r, (r < shape0 src * 2)%nat ->
     big_sum (nc + 1)
       (fun c => item (Polynomial2DTransform.fit_matrix src dst order) r c * v c)%R
     = 0%R) ->
  exists prm res,
    Polynomial2DTransform.fit np k src dst order = Ok prm /\
    (forall i j, item prm i j = (- v (i * tri (order + 1) + j)%nat / v nc)%R) /\
    Polynomial2DTransform.tform (Polynomial2DTransform.init_params prm) src = Ok res /\
    array_eq res dst /\
    forall atol test_coords, (0 <= atol)%R ->
      acceptable np src dst order test_coords atol 0 k prm.
Proof.
  intros nc Hs Hd Hn Hnc Hsvd Hv Hnull.
  destruct (fit_null_vector np k src dst order v Hs Hd Hn Hnc Hsvd Hv Hnull)
    as (prm & res & Hfit & Hres & Heq & Hgood).
  exists prm, res. split; [exact Hfit|]. split.
  - unfold Polynomial2DTransform.fit in Hfit. rewrite Hs, Hd, Hn, Nat.eqb_refl in Hfit.
    change ((2 <? 2)%nat || (2 <? 2)%nat) with false in Hfit. cbv iota in Hfit.
    change (negb true) with false in Hfit. cbv iota in Hfit. fold nc in Hfit.
    destruct (Nat.ltb_spec (shape0 src) nc); [lia|].
    rewrite Hsvd in Hfit. injection Hfit as <-.
    intros i j. cbn [item].
    change (Nat.divmod nc 1 0 1).1 with (nc / 2)%nat.
    unfold nc. rewrite half_coefficients_tri. reflexivity.
  - split; [exact Hres|]. split; [exact Heq|].
    intros atol test_coords Hatol. split; [exact Hfit|]. intros _.
    apply Hgood, Hatol.
Qed.

Lemma poly_fit_exact_witness :
  exists prm res,
    Polynomial2DTransform.fit unit_linalg 1 two_points (zeros 2 2) 0 = Ok prm /\
    Polynomial2DTransform.tform (Polynomial2DTransform.init_params prm) two_points
      = Ok res /\
    array_eq res (zeros 2 2).
Proof.
  destruct (poly_fit_exact unit_linalg 1 two_points (zeros 2 2) 0
              (fun c => if (c =? 2)%nat then 1%R else 0%R))
    as (prm & res & Hfit & _ & Hres & Heq & _).
  - reflexivity.
  - reflexivity.
  - reflexivity.
  - cbn. lia.
  - reflexivity.
  - cbn. lra.
  - intros r Hr. cbn in Hr.
    destruct r as [|[|[|[|r]]]]; [| | | |lia]; cbn; ring.
  - exists prm, res. auto.
Defined.

(** X14: [Polynomial2DTransform.estimate] with an exact solver:
    when the singular vector of the first call of the solver is in the null
    space of the matrix [fit] builds from the N x 2 arrays [src] and [dst]
    and its last entry is not zero, then for every [max_tries >= 1] and
    [atol >= 0] the call returns after that first attempt, stores the
    parameters, and the polynomial maps [src] exactly to [dst]. *)
Theorem poly_estimate_exact (np : linalg) (src dst : ndarray) (order : nat)
        (v : nat -> R) (test_coords : bool) (max_tries : Z) (return_params : bool)
        (atol : R) (self : Polynomial2DTransform.t) :
  let nc := ((order + 1) * (order + 2))%nat in
  shape1 src = 2%nat -> shape1 dst = 2%nat ->
  shape0 dst = shape0 src ->
  (nc <= shape0 src)%nat ->
  svd_vsm np 1 (Polynomial2DTransform.fit_matrix src dst order) = inr v ->
  v nc <> 0%R ->
  (forall r, (r < shape0 src * 2)%nat ->
     big_sum (nc + 1)
       (fun c => item (Polynomial2DTransform.fit_matrix src dst order) r c * v c)%R
     = 0%R) ->
  (1 <= max_tries)%Z -> (0 <= atol)%R ->
  exists prm res,
    Polynomial2DTransform.estimate np src dst order test_coords max_tries
      return_params atol 0 self
    = (Ok (if return_params then Some prm else None),
       Polynomial2DTransform.set_params prm self) /\
    Polynomial2DTransform.tform (Polynomial2DTransform.set_params prm self) src
      = Ok res /\
    array_eq res dst.
Proof.
  intros nc Hs Hd Hn Hnc Hsvd Hv Hnull Hmax Hatol.
  destruct (fit_null_vector np 1 src dst order v Hs Hd Hn Hnc Hsvd Hv Hnull)
    as (prm & res & Hfit & Hres & Heq & Hgood).
  exists prm, res. split; [|split; [exact Hres|exact Heq]].
  unfold Polynomial2DTransform.estimate.
  destruct (Z.to_nat max_tries) as [|fuel] eqn:Hfuel; [lia|].
  cbn [Polynomial2DTransform.estimate_loop].
  unfold Polynomial2DTransform.loop_cond at 1.
  cbn [Polynomial2DTransform.tries Polynomial2DTransform.estimated negb].
  destruct (Z.ltb_spec 0 max_tries); [|lia]. cbn [andb].
  unfold Polynomial2DTransform.loop_body.
  cbn [Polynomial2DTransform.tries Polynomial2DTransform.estimated
       Polynomial2DTransform.fitted].
  change (Z.to_nat (0 + 1)) with 1%nat. rewrite Hfit.
  assert (Hest : (if test_coords
                  then Polynomial2DTransform.fitgood src dst prm atol 0
                  else Ok true) = Ok true)
    by (destruct test_coords; [apply Hgood, Hatol|reflexivity]).
  rewrite Hest.
  change (Ok true ≫= ?k) with (k true). cbv beta.
  change (Ok ?st ≫= ?k) with (k st). cbv beta.
  assert (Hexit : Polynomial2DTransform.estimate_loop np src dst order test_coords
                    max_tries atol 0 fuel
                    (Polynomial2DTransform.mk_loop (0 + 1) true (Some prm))
                  = Ok (Polynomial2DTransform.mk_loop (0 + 1) true (Some prm))).
  { destruct fuel; cbn [Polynomial2DTransform.estimate_loop];
      unfold Polynomial2DTransform.loop_cond;
      cbn [Polynomial2DTransform.estimated negb]; rewrite andb_false_r; reflexivity. }
  rewrite Hexit.
  unfold mbind, meth_bind, lift, assign, read, mret, meth_ret.
  cbn [Polynomial2DTransform.tries Polynomial2DTransform.estimated
       Polynomial2DTransform.fitted negb].
  rewrite andb_false_r. destruct return_params; reflexivity.
Qed.

Lemma poly_estimate_exact_witness :
  exists prm res,
    Polynomial2DTransform.estimate unit_linalg two_points (zeros 2 2) 0 true 100 true
      (1 / 1000) 0 Polynomial2DTransform.blank
    = (Ok (Some prm), Polynomial2DTransform.set_params prm Polynomial2DTransform.blank) /\
    Polynomial2DTransform.tform
      (Polynomial2DTransform.set_params prm Polynomial2DTransform.blank) two_points
      = Ok res /\
    array_eq res (zeros 2 2).
Proof.
  apply (poly_estimate_exact unit_linalg two_points (zeros 2 2) 0
           (fun c => if (c =? 2)%nat then 1%R else 0%R) true 100 true (1 / 1000)
           Polynomial2DTransform.blank).
  - reflexivity.
  - reflexivity.
  - reflexivity.
  - cbn. lia.
  - reflexivity.
  - cbn. lra.
  - intros r Hr. cbn in Hr.
    destruct r as [|[|[|[|r]]]]; [| | | |lia]; cbn; ring.
  - lia.
  - lra.
Defined.

(** X15: a successful [Polynomial2DTransform.estimate] (with
    [max_tries >= 0], on arrays of two columns) leaves a polynomial of the
    requested order: its parameters have shape [2 x (order+1)(order+2)/2],
    its [order] property is [order], the class name and the identifier are
    untouched; and the two arrays then have the same number of rows, at
    least [(order+1)(order+2)]. *)
Theorem poly_estimate_order (np : linalg) (src dst : ndarray) (order : nat)
        (test_coords : bool) (max_tries : Z) (return_params : bool) (atol rtol : R)
        (self : Polynomial2DTransform.t) :
  (0 <= max_tries)%Z ->
  shape1 src = 2%nat ->
  shape1 dst = 2%nat ->
  let out := Polynomial2DTransform.estimate np src dst order test_coords
               max_tries return_params atol rtol self in
  forall ret, out.1 = Ok ret ->
    well_formed out.2 order /\
    Polynomial2DTransform.order out.2 = Z.of_nat order /\
    Polynomial2DTransform.className out.2 = Polynomial2DTransform.className self /\
    Polynomial2DTransform.transformId out.2 = Polynomial2DTransform.transformId self /\
    shape0 src = shape0 dst /\
    ((order + 1) * (order + 2) <= shape0 src)%nat.
Proof.
  intros Hmax Hsrc Hdst out ret Hret. subst out.
  destruct (estimate_cases np src dst order test_coords max_tries return_params
              atol rtol self Hmax Hsrc Hdst)
    as [[He _]|(k & prm & Hk & [Hfit _] & He)];
    rewrite He in Hret |- *; [discriminate|].
  cbn [fst snd] in *.
  destruct (fit_ok_shape np _ src dst order prm Hfit) as [[W0 W1] Hlen].
  cbn in W0, W1.
  split; [split; assumption|]. split.
  { unfold Polynomial2DTransform.order, Polynomial2DTransform.ravel_len.
    cbn. rewrite W0, W1. apply order_of_len_tri. }
  split; [reflexivity|]. split; [reflexivity|]. split; [exact Hlen|].
  unfold Polynomial2DTransform.fit in Hfit. rewrite Hsrc, Hdst in Hfit.
  change ((2 <? 2)%nat || (2 <? 2)%nat) with false in Hfit. cbv iota in Hfit.
  destruct (negb (shape0 src =? shape0 dst)%nat); [discriminate|].
  destruct (Nat.ltb_spec (shape0 src) ((order + 1) * (order + 2))); [discriminate|lia].
Qed.

Lemma poly_estimate_order_witness :
  let out := Polynomial2DTransform.estimate constant_linalg two_points two_points 0
               false 1 false 0 0 Polynomial2DTransform.init_identity in
  well_formed out.2 0 /\
  Polynomial2DTransform.order out.2 = Z.of_nat 0 /\
  Polynomial2DTransform.className out.2
    = Polynomial2DTransform.className Polynomial2DTransform.init_identity /\
  Polynomial2DTransform.transformId out.2
    = Polynomial2DTransform.transformId Polynomial2DTransform.init_identity /\
  shape0 two_points = shape0 two_points /\
  ((0 + 1) * (0 + 2) <= shape0 two_points)%nat.
Proof.
  apply (poly_estimate_order constant_linalg two_points two_points 0 false 1 false
           0 0 Polynomial2DTransform.init_identity ltac:(lia) eq_refl eq_refl None).
  reflexivity.
Defined.

(** X16: with a negative [max_tries] the loop of
    [Polynomial2DTransform.estimate] is never entered and the test after it
    passes, so the assignment of the unbound local [params] raises
    [UnboundLocalError]; the model is unchanged. *)
Theorem poly_estimate_negative_tries (np : linalg) (src dst : ndarray) (order : nat)
        (test_coords : bool) (max_tries : Z) (return_params : bool) (atol rtol : R)
        (self : Polynomial2DTransform.t) :
  (max_tries < 0)%Z ->
  Polynomial2DTransform.estimate np src dst order test_coords max_tries
    return_params atol rtol self = (Raise UnboundLocalError, self).
Proof.
  intros Hneg. unfold Polynomial2DTransform.estimate.
  replace (Z.to_nat max_tries) with 0%nat by lia.
  unfold mbind, meth_bind, lift.
  cbn [Polynomial2DTransform.estimate_loop].
  assert (Hst : (if Polynomial2DTransform.loop_cond max_tries
                      (Polynomial2DTransform.mk_loop 0 false None)
                 then Ok (Polynomial2DTransform.mk_loop 0 false None)
                 else Ok (Polynomial2DTransform.mk_loop 0 false None))
                = Ok (Polynomial2DTransform.mk_loop 0 false None))
    by (destruct (Polynomial2DTransform.loop_cond _ _); reflexivity).
  rewrite Hst.
  cbn [Polynomial2DTransform.tries Polynomial2DTransform.estimated
       Polynomial2DTransform.fitted negb].
  destruct (Z.eqb_spec 0 max_tries); [lia|]. reflexivity.
Qed.

Lemma poly_estimate_negative_tries_witness :
  Polynomial2DTransform.estimate constant_linalg two_points two_points 2 true (-1)
    true 0 0 Polynomial2DTransform.init_identity
  = (Raise UnboundLocalError, Polynomial2DTransform.init_identity).
Proof.
  apply (poly_estimate_negative_tries constant_linalg two_points two_points 2 true
           (-1) true 0 0 Polynomial2DTransform.init_identity).
  lia.
Defined.

(** The polynomial [asorder] returns for an order that is not lower. *)
Lemma asorder_ok (p : Polynomial2DTransform.t) (o n : nat) :
  well_formed p o -> (o <= n)%nat ->
  Polynomial2DTransform.asorder p (Z.of_nat n)
  = Ok (Polynomial2DTransform.init_params
          (mk_ndarray 2 (tri (n + 1))
             (fun i j => if ((i <? 2) && (j <? tri (o + 1)))%nat
                         then item (Polynomial2DTransform.params p) i j
                         else 0%R))).
Proof.
  intros [H0 H1] Hon. unfold Polynomial2DTransform.asorder.
  assert (Ho : Polynomial2DTransform.order p = Z.of_nat o).
  { unfold Polynomial2DTransform.order, Polynomial2DTransform.ravel_len.
    rewrite H0, H1. apply order_of_len_tri. }
  rewrite Ho. destruct (Z.ltb_spec (Z.of_nat n) (Z.of_nat o)); [lia|].
  rewrite coefficients_half, H0, H1.
  assert (Htri : (tri (o + 1) <= tri (n + 1))%nat) by (apply tri_mono; lia).
  destruct (Nat.leb_spec (tri (o + 1)) (tri (n + 1))); [|lia].
  reflexivity.
Qed.

(** X17: [asorder] composes: for parameters of shape
    [2 x (o+1)(o+2)/2] and orders [o <= n1 <= n2], raising the order to the
    order the polynomial has gives the same parameters, and raising it to
    [n1] and then to [n2] gives the same parameters as raising it to [n2]
    at once. *)
Theorem asorder_compose (p : Polynomial2DTransform.t) (o n1 n2 : nat) :
  well_formed p o -> (o <= n1)%nat -> (n1 <= n2)%nat ->
  exists q0 q1 q2 q2',
    Polynomial2DTransform.asorder p (Z.of_nat o) = Ok q0 /\
    array_eq (Polynomial2DTransform.params q0) (Polynomial2DTransform.params p) /\
    Polynomial2DTransform.asorder p (Z.of_nat n1) = Ok q1 /\
    Polynomial2DTransform.asorder q1 (Z.of_nat n2) = Ok q2 /\
    Polynomial2DTransform.asorder p (Z.of_nat n2) = Ok q2' /\
    array_eq (Polynomial2DTransform.params q2) (Polynomial2DTransform.params q2').
Proof.
  intros Hwf H1 H2. pose proof Hwf as [S0 S1].
  assert (Ht : (tri (o + 1) <= tri (n1 + 1))%nat) by (apply tri_mono; lia).
  eexists _, _, _, _.
  split; [apply (asorder_ok p o o Hwf); lia|]. split.
  { split; [cbn; congruence|]. split; [cbn; congruence|].
    intros i j Hi Hj.
    cbn [item shape0 shape1 Polynomial2DTransform.params
         Polynomial2DTransform.init_params] in Hi, Hj |- *.
    destruct (Nat.ltb_spec i 2); [|lia].
    destruct (Nat.ltb_spec j (tri (o + 1))); [|lia]. reflexivity. }
  split; [apply (asorder_ok p o n1 Hwf H1)|].
  split; [apply asorder_ok; [split; reflexivity|exact H2]|].
  split; [apply (asorder_ok p o n2 Hwf); lia|].
  split; [reflexivity|]. split; [reflexivity|].
  intros i j Hi Hj.
    cbn [item shape0 shape1 Polynomial2DTransform.params
         Polynomial2DTransform.init_params] in Hi, Hj |- *.
  destruct (Nat.ltb_spec i 2); [|lia]. cbn [andb].
  destruct (Nat.ltb_spec j (tri (o + 1))).
  - destruct (Nat.ltb_spec j (tri (n1 + 1))); [reflexivity|lia].
  - destruct (j <? tri (n1 + 1))%nat; reflexivity.
Qed.

Lemma asorder_compose_witness :
  exists q0 q1 q2 q2',
    Polynomial2DTransform.asorder Polynomial2DTransform.init_identity (Z.of_nat 1)
      = Ok q0 /\
    array_eq (Polynomial2DTransform.params q0)
             (Polynomial2DTransform.params Polynomial2DTransform.init_identity) /\
    Polynomial2DTransform.asorder Polynomial2DTransform.init_identity (Z.of_nat 2)
      = Ok q1 /\
    Polynomial2DTransform.asorder q1 (Z.of_nat 3) = Ok q2 /\
    Polynomial2DTransform.asorder Polynomial2DTransform.init_identity (Z.of_nat 3)
      = Ok q2' /\
    array_eq (Polynomial2DTransform.params q2) (Polynomial2DTransform.params q2').
Proof.
  apply (asorder_compose Polynomial2DTransform.init_identity 1 2 3).
  - split; reflexivity.
  - lia.
  - lia.
Defined.

(** X18: for parameters of shape [2 x (o+1)(o+2)/2],
    [coefficients()] without an order is the number of entries of
    [params], twice the number of its columns. *)
Theorem coefficients_size (p : Polynomial2DTransform.t) (o : nat) :
  well_formed p o ->
  Polynomial2DTransform.coefficients_self p
  = Z.of_nat (Polynomial2DTransform.ravel_len (Polynomial2DTransform.params p)) /\
  Polynomial2DTransform.coefficients_self p
  = (2 * Z.of_nat (shape1 (Polynomial2DTransform.params p)))%Z.
Proof.
  intros [H0 H1].
  unfold Polynomial2DTransform.coefficients_self, Polynomial2DTransform.order,
    Polynomial2DTransform.ravel_len, Polynomial2DTransform.coefficients.
  rewrite H0, H1, order_of_len_tri.
  pose proof (tri_double (o + 1)). split; nia.
Qed.

Lemma coefficients_size_witness :
  Polynomial2DTransform.coefficients_self Polynomial2DTransform.init_identity
  = Z.of_nat (Polynomial2DTransform.ravel_len
                (Polynomial2DTransform.params Polynomial2DTransform.init_identity)) /\
  Polynomial2DTransform.coefficients_self Polynomial2DTransform.init_identity
  = (2 * Z.of_nat (shape1 (Polynomial2DTransform.params
                             Polynomial2DTransform.init_identity)))%Z.
Proof.
  apply (coefficients_size Polynomial2DTransform.init_identity 1).
  split; reflexivity.
Defined.

Lemma parse_all_ok (ws : list string) (vs acc : list R) :
  Forall2 (fun w v => float_of_string w = Ok v) ws vs ->
  for_each (fun acc d => v ← float_of_string d; Ok (acc ++ [v])) ws acc
  = Ok (acc ++ vs).
Proof.
  intros H. revert acc. induction H as [|w v ws vs Hw _ IH]; intros acc.
  - rewrite app_nil_r. reflexivity.
  - cbn [for_each]. rewrite Hw. cbn [mbind result_bind].
    rewrite IH, <- app_assoc. reflexivity.
Qed.

Lemma parse_all_raises (ws : list string) (acc : list R) (e : exn) :
  for_each (fun acc d => v ← float_of_string d; Ok (acc ++ [v])) ws acc = Raise e ->
  e = ValueError.
Proof.
  revert acc. induction ws as [|w ws IH]; intros acc H; [discriminate|].
  cbn [for_each] in H. destruct (float_of_string w) as [v|e'] eqn:Hw.
  - cbn [mbind result_bind] in H. eapply IH, H.
  - cbn [mbind result_bind] in H. injection H as <-.
    eapply float_of_string_raises, Hw.
Qed.

Lemma parse_all_fail (ws : list string) (w : string) (acc : list R) :
  In w ws -> (forall v, float_of_string w <> Ok v) ->
  for_each (fun acc d => v ← float_of_string d; Ok (acc ++ [v])) ws acc
  = Raise ValueError.
Proof.
  intros Hin Hbad. revert acc. induction ws as [|w' ws IH]; intros acc; [destruct Hin|].
  cbn [for_each]. destruct Hin as [->|Hin].
  - destruct (float_of_string w) as [v|e] eqn:Hw; [destruct (Hbad v eq_refl)|].
    rewrite (float_of_string_raises _ _ Hw). reflexivity.
  - destruct (float_of_string w') as [v|e] eqn:Hw; cbn [mbind result_bind].
    + apply IH, Hin.
    + rewrite (float_of_string_raises _ _ Hw). reflexivity.
Qed.

(** The array of a list of [2 K] numbers. *)
Lemma format_raveled_params_ok (ws : list string) (vals : list R) (K : nat) :
  Forall2 (fun w v => float_of_string w = Ok v) ws vals ->
  length vals = (2 * K)%nat ->
  exists prm,
    Polynomial2DTransform._format_raveled_params ws = Ok prm /\
    shape0 prm = 2%nat /\ shape1 prm = K /\
    forall j, (j < K)%nat ->
      item prm 0 j = nth j vals 0%R /\ item prm 1 j = nth (K + j) vals 0%R.
Proof.
  intros Hparse Hlen.
  pose proof (Forall2_length _ _ _ Hparse) as Hl.
  unfold Polynomial2DTransform._format_raveled_params.
  assert (Hh : (length ws / 2 = K)%nat).
  { rewrite Hl, Hlen, Nat.mul_comm. apply Nat.div_mul. lia. }
  rewrite Hh.
  rewrite (parse_all_ok (firstn K ws) (firstn K vals) [])
    by (apply Forall2_take, Hparse).
  rewrite (parse_all_ok (skipn K ws) (skipn K vals) [])
    by (apply Forall2_drop, Hparse).
  cbn [mbind result_bind app].
  assert (L0 : length (firstn K vals) = K) by (rewrite length_firstn; lia).
  assert (L1 : length (skipn K vals) = K) by (rewrite length_skipn; lia).
  rewrite L0, L1, Nat.eqb_refl.
  eexists. split; [reflexivity|]. split; [reflexivity|]. split; [reflexivity|].
  intros j Hj. cbn [item nth]. split.
  - rewrite nth_firstn. destruct (Nat.ltb_spec j K); [reflexivity|lia].
  - rewrite nth_skipn. reflexivity.
Qed.

(** X19: decoding the text form of a polynomial: when the fields
    between single spaces are [2 K] numbers, [_process_dataString] returns
    and stores an array of shape [2 x K] whose first row holds the first
    [K] numbers and whose second row holds the other [K], in order; with
    [K = (o+1)(o+2)/2] the polynomial has order [o]. *)
Theorem poly_process_dataString (ds : string) (vals : list R) (K : nat)
        (self : Polynomial2DTransform.t) :
  Forall2 (fun w v => float_of_string w = Ok v) (split_on " " ds) vals ->
  length vals = (2 * K)%nat ->
  exists prm,
    Polynomial2DTransform._process_dataString (JStr ds) self
      = (Ok tt, Polynomial2DTransform.set_params prm self) /\
    shape0 prm = 2%nat /\ shape1 prm = K /\
    (forall j, (j < K)%nat ->
       item prm 0 j = nth j vals 0%R /\ item prm 1 j = nth (K + j) vals 0%R) /\
    (forall o, K = tri (o + 1) ->
       Polynomial2DTransform.order (Polynomial2DTransform.set_params prm self)
       = Z.of_nat o).
Proof.
  intros Hparse Hlen.
  destruct (format_raveled_params_ok _ vals K Hparse Hlen)
    as (prm & Hprm & S0 & S1 & Hitems).
  exists prm. split.
  - unfold Polynomial2DTransform._process_dataString.
    unfold mbind at 1. unfold meth_bind, lift. rewrite Hprm. reflexivity.
  - split; [exact S0|]. split; [exact S1|]. split; [exact Hitems|].
    intros o HK.
    unfold Polynomial2DTransform.order, Polynomial2DTransform.ravel_len.
    cbn [Polynomial2DTransform.params Polynomial2DTransform.set_params].
    rewrite S0, S1, HK. apply order_of_len_tri.
Qed.

Lemma poly_process_dataString_witness :
  exists prm,
    Polynomial2DTransform._process_dataString (JStr "0 1 0 0 0 1")
      Polynomial2DTransform.blank
      = (Ok tt, Polynomial2DTransform.set_params prm Polynomial2DTransform.blank) /\
    shape0 prm = 2%nat /\ shape1 prm = 3%nat /\
    (forall j, (j < 3)%nat ->
       item prm 0 j = nth j [0; 1; 0; 0; 0; 1]%R 0%R /\
       item prm 1 j = nth (3 + j) [0; 1; 0; 0; 0; 1]%R 0%R) /\
    (forall o, 3%nat = tri (o + 1) ->
       Polynomial2DTransform.order
         (Polynomial2DTransform.set_params prm Polynomial2DTransform.blank)
       = Z.of_nat o).
Proof.
  apply (poly_process_dataString "0 1 0 0 0 1" [0; 1; 0; 0; 0; 1]%R 3
           Polynomial2DTransform.blank).
  - assert (H0 : float_of_string "0" = Ok 0%R).
    { cbv - [Rmult Rplus Rdiv Ropp Rinv IZR pow powerRZ Rminus].
      f_equal. cbn [powerRZ]. lra. }
    assert (H1 : float_of_string "1" = Ok 1%R).
    { cbv - [Rmult Rplus Rdiv Ropp Rinv IZR pow powerRZ Rminus].
      f_equal. cbn [powerRZ]. lra. }
    cbn. repeat constructor; assumption.
  - reflexivity.
Defined.

Lemma split_on_nonempty (c : ascii) (s : string) : split_on c s <> [].
Proof.
  destruct s as [|a s]; cbn [split_on]; [discriminate|].
  destruct (Ascii.eqb a c); [discriminate|].
  destruct (split_on c s); discriminate.
Qed.

(** Cutting at an occurrence of the separator. *)
Lemma split_on_app (c : ascii) (a b : string) :
  split_on c (a +:+ String c b) = split_on c a ++ split_on c b.
Proof.
  induction a as [|x a IH].
  - rewrite append_nil_l. cbn [split_on]. rewrite Ascii.eqb_refl. reflexivity.
  - rewrite append_cons. cbn [split_on]. rewrite IH.
    destruct (Ascii.eqb x c); [reflexivity|].
    pose proof (split_on_nonempty c a) as Hne.
    destruct (split_on c a) as [|w ws]; [contradiction|]. reflexivity.
Qed.

(** X20: the text form of a polynomial is cut at every single
    space, so an empty text, a text that starts or ends with a space and a
    text with two spaces in a row have an empty field; decoding then
    raises [ValueError] and leaves the polynomial unchanged. *)
Theorem poly_process_dataString_empty_field (ds : string)
        (self : Polynomial2DTransform.t) :
  ds = EmptyString \/
  (exists t, ds = String " " t) \/
  (exists t, ds = t +:+ " ") \/
  (exists a b, ds = a +:+ "  " +:+ b) ->
  In EmptyString (split_on " " ds) /\
  Polynomial2DTransform._process_dataString (JStr ds) self
  = (Raise ValueError, self).
Proof.
  intros Hds.
  assert (Hin : In EmptyString (split_on " " ds)).
  { destruct Hds as [->|[[t ->]|[[t ->]|(a & b & ->)]]].
    - left. reflexivity.
    - left. reflexivity.
    - rewrite split_on_app. apply in_or_app. right. left. reflexivity.
    - change ("  " +:+ b) with (String " " (String " " b)).
      rewrite split_on_app. apply in_or_app. right. left. reflexivity. }
  split; [exact Hin|].
  unfold Polynomial2DTransform._process_dataString,
    Polynomial2DTransform._format_raveled_params.
  set (l := split_on " " ds) in *. set (h := (length l / 2)%nat).
  assert (Hbad : forall v, float_of_string EmptyString <> Ok v)
    by (intros v H; discriminate H).
  rewrite <- (firstn_skipn h l) in Hin. apply in_app_or in Hin.
  destruct Hin as [Hin|Hin].
  - rewrite (parse_all_fail (firstn h l) EmptyString [] Hin Hbad). reflexivity.
  - rewrite (parse_all_fail (skipn h l) EmptyString [] Hin Hbad).
    destruct (for_each _ (firstn h l) []) as [r0|e] eqn:H0; [reflexivity|].
    rewrite (parse_all_raises _ _ _ H0). reflexivity.
Qed.

Lemma poly_process_dataString_empty_field_witness :
  Polynomial2DTransform._process_dataString (JStr "0 1  0 0 0 1")
    Polynomial2DTransform.blank
  = (Raise ValueError, Polynomial2DTransform.blank) /\
  Polynomial2DTransform._process_dataString (JStr "0 1 0 0 0 1 ")
    Polynomial2DTransform.blank
  = (Raise ValueError, Polynomial2DTransform.blank) /\
  Polynomial2DTransform._process_dataString (JStr "")
    Polynomial2DTransform.blank
  = (Raise ValueError, Polynomial2DTransform.blank).
Proof.
  split; [|split].
  - apply (poly_process_dataString_empty_field "0 1  0 0 0 1").
    right; right; right. exists "0 1"%string, "0 0 0 1"%string. reflexivity.
  - apply (poly_process_dataString_empty_field "0 1 0 0 0 1 ").
    right; right; left. exists "0 1 0 0 0 1"%string. reflexivity.
  - apply (poly_process_dataString_empty_field "").
    left. reflexivity.
Defined.

(** Replacing one character by another. *)
Lemma replace_char_cons (a b c : ascii) (s : string) :
  replace (String a "") (String b "") (String c s)
  = String (if Ascii.eqb a c then b else c)
           (replace (String a "") (String b "") s).
Proof.
  unfold replace. cbn [replace_aux String.prefix String.length Nat.sub].
  destruct (Ascii.ascii_dec a c) as [->|N].
  - rewrite Ascii.eqb_refl. destruct s; reflexivity.
  - rewrite (proj2 (Ascii.eqb_neq a c) N). reflexivity.
Qed.

Lemma replace_char_app (a b : ascii) (s t : string) :
  replace (String a "") (String b "") (s +:+ t)
  = replace (String a "") (String b "") s +:+ replace (String a "") (String b "") t.
Proof.
  induction s as [|c s IH]; [reflexivity|].
  rewrite append_cons, !replace_char_cons, IH, append_cons. reflexivity.
Qed.

Lemma replace_char_join (a b : ascii) (ws : list string) :
  a <> " "%char ->
  replace (String a "") (String b "") (join " " ws)
  = join " " (replace (String a "") (String b "") <$> ws).
Proof.
  intros Ha. induction ws as [|w ws IH]; [reflexivity|].
  destruct ws as [|w' ws]; [reflexivity|].
  change (join " " (w :: w' :: ws)) with (w +:+ " " +:+ join " " (w' :: ws)).
  rewrite !replace_char_app, IH.
  replace (replace (String a "") (String b "") " ") with " "%string.
  - reflexivity.
  - rewrite replace_char_cons.
    rewrite (proj2 (Ascii.eqb_neq a " ") Ha). reflexivity.
Qed.

Lemma split_on_no_space (w : string) :
  no_space w = true -> split_on " " w = [w].
Proof.
  induction w as [|c w IH]; intros H; [reflexivity|].
  cbn [no_space all_chars] in H. apply andb_true_iff in H as [Hc Hw].
  cbn [split_on]. apply negb_true_iff in Hc. rewrite Hc.
  rewrite (IH Hw). reflexivity.
Qed.

Lemma split_on_token (w rest : string) :
  no_space w = true ->
  split_on " " (w +:+ " " +:+ rest) = w :: split_on " " rest.
Proof.
  induction w as [|c w IH]; intros H.
  - rewrite append_nil_l, append_cons. cbn [split_on]. reflexivity.
  - cbn [no_space all_chars] in H. apply andb_true_iff in H as [Hc Hw].
    rewrite append_cons. cbn [split_on]. apply negb_true_iff in Hc. rewrite Hc.
    rewrite (IH Hw). reflexivity.
Qed.

Lemma split_on_join (ws : list string) :
  ws <> [] -> Forall (fun w => no_space w = true) ws ->
  split_on " " (join " " ws) = ws.
Proof.
  intros Hne H. induction H as [|w ws Hw Hws IH]; [contradiction|].
  destruct ws as [|w' ws].
  - apply split_on_no_space, Hw.
  - change (join " " (w :: w' :: ws)) with (w +:+ " " +:+ join " " (w' :: ws)).
    rewrite split_on_token by exact Hw. f_equal. apply IH. discriminate.
Qed.

Lemma flatten_array_two_rows (a : ndarray) :
  shape0 a = 2%nat ->
  flatten_array a
  = ((fun j => item a 0 j) <$> seq 0 (shape1 a)) ++
    ((fun j => item a 1 j) <$> seq 0 (shape1 a)).
Proof.
  intros H. unfold flatten_array. rewrite H. cbn. rewrite app_nil_r. reflexivity.
Qed.

Lemma nth_row (a : ndarray) (i j K : nat) :
  (j < K)%nat -> nth j ((fun j => item a i j) <$> seq 0 K) 0%R = item a i j.
Proof.
  intros Hj.
  change ((fun j => item a i j) <$> seq 0 K) with (map (fun j => item a i j) (seq 0 K)).
  rewrite (nth_indep _ 0%R (item a i 0)) by (rewrite length_map, length_seq; exact Hj).
  rewrite (map_nth (fun j => item a i j)), seq_nth by exact Hj. reflexivity.
Qed.

(** X21: encoding and decoding a polynomial, relative to the
    printing of numbers: for parameters of shape [2 x K] with [K > 0], when
    every entry is printed without a space and [float] reads the printed
    entry back as the entry, decoding the [dataString] of the polynomial
    returns and stores an array equal to [params]. *)
Theorem poly_dataString_roundtrip (str_float : R -> string)
        (p self : Polynomial2DTransform.t) (K : nat) :
  shape0 (Polynomial2DTransform.params p) = 2%nat ->
  shape1 (Polynomial2DTransform.params p) = K -> (0 < K)%nat ->
  (forall i j, (i < 2)%nat -> (j < K)%nat ->
     let x := item (Polynomial2DTransform.params p) i j in
     no_space (printed str_float x) = true /\
     float_of_string (printed str_float x) = Ok x) ->
  exists prm,
    Polynomial2DTransform._process_dataString
      (JStr (Polynomial2DTransform.dataString str_float p)) self
      = (Ok tt, Polynomial2DTransform.set_params prm self) /\
    array_eq prm (Polynomial2DTransform.params p).
Proof.
  intros H0 H1 HK Hpr.
  set (a := Polynomial2DTransform.params p) in *.
  set (vals := flatten_array a).
  assert (Hvals : vals = ((fun j => item a 0 j) <$> seq 0 K) ++
                         ((fun j => item a 1 j) <$> seq 0 K)).
  { unfold vals. rewrite (flatten_array_two_rows a H0), H1. reflexivity. }
  assert (Hall : Forall (fun x => no_space (printed str_float x) = true /\
                                  float_of_string (printed str_float x) = Ok x) vals).
  { rewrite Hvals. apply Forall_app. split; apply Forall_fmap, Forall_forall;
      intros j Hj; apply elem_of_seq in Hj; apply Hpr; lia. }
  assert (Hds : Polynomial2DTransform.dataString str_float p
                = join " " (printed str_float <$> vals)).
  { unfold Polynomial2DTransform.dataString,
      Polynomial2DTransform._dataStringfromParams. fold a.
    rewrite (replace_char_join "e" "E") by discriminate.
    rewrite <- list_fmap_compose. reflexivity. }
  assert (Hlen : length vals = (2 * K)%nat).
  { rewrite Hvals, length_app, !length_fmap, !length_seq. lia. }
  assert (Hsplit : split_on " " (Polynomial2DTransform.dataString str_float p)
                   = printed str_float <$> vals).
  { rewrite Hds. apply split_on_join.
    - destruct vals; [cbn in Hlen; lia|discriminate].
    - apply Forall_fmap. eapply Forall_impl; [exact Hall|]. intros x [Hx _]. exact Hx. }
  destruct (format_raveled_params_ok (printed str_float <$> vals) vals K)
    as (prm & Hprm & S0 & S1 & Hitems).
  - apply Forall2_fmap_l, Forall_Forall2_diag.
    eapply Forall_impl; [exact Hall|]. intros x [_ Hx]. exact Hx.
  - exact Hlen.
  - exists prm. split.
    { unfold Polynomial2DTransform._process_dataString.
      unfold mbind at 1. unfold meth_bind, lift. rewrite Hsplit, Hprm. reflexivity. }
    split; [congruence|]. split; [congruence|].
    intros i j Hi Hj. rewrite S0 in Hi. rewrite S1 in Hj.
    destruct (Hitems j Hj) as [E0 E1]. rewrite Hvals in E0, E1.
    destruct i as [|[|i]]; [rewrite E0|rewrite E1|lia].
    + rewrite app_nth1 by (rewrite length_fmap, length_seq; exact Hj).
      apply nth_row, Hj.
    + rewrite app_nth2 by (rewrite length_fmap, length_seq; lia).
      rewrite length_fmap, length_seq.
      replace (K + j - K)%nat with j by lia. apply nth_row, Hj.
Qed.

Lemma poly_dataString_roundtrip_witness :
  exists prm,
    Polynomial2DTransform._process_dataString
      (JStr (Polynomial2DTransform.dataString sample_str_float
               Polynomial2DTransform.init_identity))
      Polynomial2DTransform.blank
      = (Ok tt, Polynomial2DTransform.set_params prm Polynomial2DTransform.blank) /\
    array_eq prm (Polynomial2DTransform.params Polynomial2DTransform.init_identity).
Proof.
  apply (poly_dataString_roundtrip sample_str_float
           Polynomial2DTransform.init_identity Polynomial2DTransform.blank 3).
  - reflexivity.
  - reflexivity.
  - lia.
  - assert (P0 : printed sample_str_float 0 = "0.0"%string).
    { unfold printed, sample_str_float.
      destruct (Req_dec_T 0 0) as [_|N]; [reflexivity|destruct (N eq_refl)]. }
    assert (P1 : printed sample_str_float 1 = "1.0"%string).
    { unfold printed, sample_str_float.
      destruct (Req_dec_T 1 0) as [E|_]; [lra|reflexivity]. }
    assert (F0 : float_of_string "0.0" = Ok 0%R).
    { cbv - [Rmult Rplus Rdiv Ropp Rinv IZR pow powerRZ Rminus].
      f_equal. cbn [powerRZ pow]. lra. }
    assert (F1 : float_of_string "1.0" = Ok 1%R).
    { cbv - [Rmult Rplus Rdiv Ropp Rinv IZR pow powerRZ Rminus].
      f_equal. cbn [powerRZ pow]. lra. }
    intros i j Hi Hj.
    destruct i as [|[|i]]; [| |lia]; destruct j as [|[|[|j]]]; try lia;
      cbn [Polynomial2DTransform.params Polynomial2DTransform.init_identity item nth];
      rewrite ?P0, ?P1; split; auto.
Defined.

(** ** Decoders: errors and the round trip through dictionaries *)

Lemma except_KeyError_not_KeyError {A : Type} (r : result A) (e : exn) :
  e <> KeyError -> except_KeyError r (Raise e) <> Raise KeyError.
Proof. intros He. destruct r as [a|[]]; cbn; congruence. Qed.

(** X22: [load_transform_json] never raises [KeyError]:
    every [KeyError] of the table lookup and of the selected decoder is
    turned into [RenderError]. *)
Theorem load_transform_json_no_KeyError (depth : nat) (d : gmap string json)
        (default_type : string) :
  load_transform_json depth d default_type <> Raise KeyError.
Proof.
  destruct depth as [|depth]; cbn [load_transform_json]; [discriminate|].
  destruct (negb (hashable (dict_get d "type" (JStr default_type))));
    [discriminate|].
  apply except_KeyError_not_KeyError. discriminate.
Qed.

Lemma leaf_missing_dataString (d : gmap string json) (cn : json) :
  dict_get d "type" (JStr "leaf") = JStr "leaf" ->
  d !! "className" = Some cn -> hashable cn = true ->
  d !! "dataString" = None ->
  load_leaf_json d = Raise KeyError.
Proof.
  intros Hty Hcn Hh Hds. unfold load_leaf_json.
  rewrite Hty. cbn [json_is_str String.eqb Ascii.eqb Bool.eqb negb].
  unfold dict_item. rewrite Hcn. cbn [mbind result_bind]. rewrite Hh. cbn [negb].
  assert (Ha : forall process,
             match AffineModel.from_dict process d AffineModel.blank with
             | (Ok _, self) => Ok self
             | (Raise e, _) => Raise e
             end = Raise KeyError).
  { intros process. unfold AffineModel.from_dict, mbind, meth_bind, lift, assign,
      dict_item. rewrite Hcn, Hds. reflexivity. }
  assert (Hp : Polynomial2DTransform.init_json d = Raise KeyError).
  { unfold Polynomial2DTransform.init_json, Polynomial2DTransform.from_dict,
      mbind, meth_bind, lift, assign, dict_item. rewrite Hcn, Hds. reflexivity. }
  assert (Ht : Transform.init_json d = Raise KeyError).
  { unfold Transform.init_json, Transform.from_dict,
      mbind, meth_bind, lift, assign, dict_item. rewrite Hcn, Hds. reflexivity. }
  unfold AffineModel.init_json, TranslationModel.init_json, RigidModel.init_json,
    SimilarityModel.init_json.
  rewrite !Ha, Hp, Ht.
  repeat match goal with
         | |- context [json_is_str cn ?s] => destruct (json_is_str cn s)
         end; reflexivity.
Qed.

Lemma leaf_type_default (d : gmap string json) (default_type : string) :
  dict_get d "type" (JStr default_type) = JStr "leaf" ->
  dict_get d "type" (JStr "leaf") = JStr "leaf".
Proof. unfold dict_get. destruct (d !! "type"); [auto|reflexivity]. Qed.

Lemma leaf_missing_className (d : gmap string json) :
  dict_get d "type" (JStr "leaf") = JStr "leaf" ->
  d !! "className" = None ->
  load_leaf_json d = Raise KeyError.
Proof.
  intros Hty Hcn. unfold load_leaf_json. rewrite Hty.
  cbn [json_is_str String.eqb Ascii.eqb Bool.eqb negb].
  unfold dict_item. rewrite Hcn. reflexivity.
Qed.

(** X23: a dictionary that lacks a required member is
    rejected with [RenderError] by [load_transform_json]: a list without
    [specList], a reference without [refId], an interpolation without [a],
    a leaf without [className], and a leaf of any class without
    [dataString]; [load_leaf_json] itself raises [KeyError] for the two
    leaves. *)
Theorem load_transform_json_missing_member (depth : nat) (d : gmap string json)
        (default_type : string) :
  let ty := dict_get d "type" (JStr default_type) in
  (ty = JStr "list" -> d !! "specList" = None ->
   load_transform_json (S depth) d default_type = Raise RenderError) /\
  (ty = JStr "ref" -> d !! "refId" = None ->
   load_transform_json (S depth) d default_type = Raise RenderError) /\
  (ty = JStr "interpolated" -> d !! "a" = None ->
   load_transform_json (S depth) d default_type = Raise RenderError) /\
  (ty = JStr "leaf" -> d !! "className" = None ->
   load_leaf_json d = Raise KeyError /\
   load_transform_json (S depth) d default_type = Raise RenderError) /\
  (ty = JStr "leaf" ->
   forall cn, d !! "className" = Some cn -> hashable cn = true ->
   d !! "dataString" = None ->
   load_leaf_json d = Raise KeyError /\
   load_transform_json (S depth) d default_type = Raise RenderError).
Proof.
  intros ty. subst ty. cbn [load_transform_json].
  split; [|split; [|split; [|split]]]; intros Hty; rewrite Hty;
    cbn [hashable negb json_is_str String.eqb Ascii.eqb Bool.eqb].
  - intros H. unfold dict_item. rewrite H. reflexivity.
  - intros H. unfold ReferenceTransform_init_json, dict_item. rewrite H. reflexivity.
  - intros H. unfold dict_item. rewrite H. reflexivity.
  - intros H.
    rewrite (leaf_missing_className d (leaf_type_default d _ Hty) H).
    split; reflexivity.
  - intros cn Hcn Hh Hds.
    rewrite (leaf_missing_dataString d cn (leaf_type_default d _ Hty) Hcn Hh Hds).
    split; reflexivity.
Qed.

Lemma load_transform_json_missing_member_witness :
  load_transform_json 1 (<["type" := JStr "list"]> ∅) "leaf" = Raise RenderError /\
  load_leaf_json (<["className" := JStr AffineModel.class_name]> ∅) = Raise KeyError /\
  load_transform_json 1 (<["className" := JStr AffineModel.class_name]> ∅) "leaf"
  = Raise RenderError.
Proof.
  destruct (load_transform_json_missing_member 0 (<["type" := JStr "list"]> ∅) "leaf")
    as (Hlist & _).
  destruct (load_transform_json_missing_member 0
              (<["className" := JStr AffineModel.class_name]> ∅) "leaf")
    as (_ & _ & _ & _ & Hleaf).
  split; [apply Hlist; reflexivity|].
  apply (Hleaf eq_refl (JStr AffineModel.class_name)); reflexivity.
Defined.

Lemma decode_specs_ok (depth : nat) (specs : list (gmap string json))
      (objs acc : list pyobj) :
  Forall2 (fun td o => load_transform_json depth td "leaf" = Ok o) specs objs ->
  for_each (fun acc td =>
              td ← as_dict td;
              o ← load_transform_json depth td "leaf";
              Ok (acc ++ [o]))
           (JObj <$> specs) acc
  = Ok (acc ++ objs).
Proof.
  intros H. revert acc. induction H as [|td o specs objs Htd _ IH]; intros acc.
  - cbn. rewrite app_nil_r. reflexivity.
  - cbn [fmap list_fmap for_each].
    change (list_fmap _ _ JObj specs) with (JObj <$> specs).
    change (as_dict (JObj td)) with (Ok td).
    change (Ok td ≫= ?k) with (k td). cbv beta. rewrite Htd.
    change (Ok o ≫= ?k) with (k o). cbv beta.
    change (Ok (acc ++ [o]) ≫= ?k) with (k (acc ++ [o])). cbv beta.
    rewrite IH, <- app_assoc. reflexivity.
Qed.

Lemma decode_specs_fail (depth : nat) (td : gmap string json)
      (rest : list (gmap string json)) (acc : list pyobj) (e : exn) :
  load_transform_json depth td "leaf" = Raise e ->
  for_each (fun acc td =>
              td ← as_dict td;
              o ← load_transform_json depth td "leaf";
              Ok (acc ++ [o]))
           (JObj <$> (td :: rest)) acc
  = Raise e.
Proof.
  intros Htd. cbn [fmap list_fmap for_each].
  change (as_dict (JObj td)) with (Ok td).
  change (Ok td ≫= ?k) with (k td). cbv beta. rewrite Htd. reflexivity.
Qed.

(** X24: a list decodes member by member: when the members of
    [specList] decode, in order, to the objects [objs], the dictionary
    decodes to the [TransformList] of [objs] with the identifier under
    [id]; and when the members before one decode and that one raises an
    error, the decoding of the list raises the same error. *)
Theorem load_list_members (depth : nat) (d : gmap string json)
        (default_type : string) (specs rest : list (gmap string json))
        (objs : list pyobj) :
  dict_get d "type" (JStr default_type) = JStr "list" ->
  Forall2 (fun td o => load_transform_json depth td "leaf" = Ok o) specs objs ->
  (d !! "specList" = Some (JArr (JObj <$> specs)) ->
   load_transform_json (S depth) d default_type
   = Ok (OTransformList objs (dict_get d "id" JNull))) /\
  (forall td e,
     d !! "specList" = Some (JArr (JObj <$> (specs ++ td :: rest))) ->
     load_transform_json depth td "leaf" = Raise e ->
     load_transform_json (S depth) d default_type = Raise e).
Proof.
  intros Hty Hobjs. cbn [load_transform_json]. rewrite Hty.
  cbn [hashable negb json_is_str String.eqb Ascii.eqb Bool.eqb].
  unfold dict_item. split.
  - intros Hs. rewrite Hs. cbn [mbind result_bind iter_items].
    rewrite (decode_specs_ok depth specs objs [] Hobjs). reflexivity.
  - intros td e Hs Htd. rewrite Hs. cbn [mbind result_bind iter_items].
    rewrite fmap_app, for_each_app.
    rewrite (decode_specs_ok depth specs objs [] Hobjs).
    cbn [mbind result_bind app].
    rewrite (decode_specs_fail depth td rest objs e Htd).
    cbn [result_bind].
    destruct e; try reflexivity.
    exfalso. revert Htd. destruct depth as [|depth']; cbn [load_transform_json];
      [discriminate|].
    destruct (negb (hashable (dict_get td "type" (JStr "leaf")))); [discriminate|].
    apply except_KeyError_not_KeyError. discriminate.
Qed.

Lemma load_list_members_witness :
  load_transform_json 2
    (<["specList" := JArr (JObj <$> [<["refId" := JStr "lens"]>
                                       (<["type" := JStr "ref"]> ∅)])]>
       (<["type" := JStr "list"]> ∅)) "leaf"
  = Ok (OTransformList [OReferenceTransform (JStr "lens")] JNull).
Proof.
  destruct (load_list_members 1
              (<["specList" := JArr (JObj <$> [<["refId" := JStr "lens"]>
                                                 (<["type" := JStr "ref"]> ∅)])]>
                 (<["type" := JStr "list"]> ∅)) "leaf"
              [<["refId" := JStr "lens"]> (<["type" := JStr "ref"]> ∅)] []
              [OReferenceTransform (JStr "lens")]) as [Hok _].
  - reflexivity.
  - repeat constructor.
  - apply Hok. reflexivity.
Defined.

Lemma height_member (l : list pyobj) (tid : json) (t : pyobj) :
  In t l -> (height t < height (OTransformList l tid))%nat.
Proof.
  cbn [height]. induction l as [|x l IH]; intros Hin; [destruct Hin|].
  cbn [fold_right]. destruct Hin as [->|Hin]; [lia|].
  specialize (IH Hin). lia.
Qed.

Lemma generic_member (l : list pyobj) (tid : json) (t : pyobj) :
  generic_tree (OTransformList l tid) -> In t l -> generic_tree t.
Proof.
  cbn [generic_tree]. induction l as [|x l IH]; intros Hg Hin; [destruct Hin|].
  cbn [fold_right] in Hg. destruct Hg as [Hx Hl].
  destruct Hin as [->|Hin]; [exact Hx|apply IH; assumption].
Qed.

Lemma transform_to_dict_lookups (t : Transform.t) :
  Transform.to_dict t !! "type" = Some (JStr "leaf") /\
  Transform.to_dict t !! "className" = Some (Transform.className t) /\
  Transform.to_dict t !! "dataString" = Some (Transform.dataString t) /\
  dict_get (Transform.to_dict t) "transformId" JNull = Transform.transformId t.
Proof.
  unfold Transform.to_dict, dict_get.
  destruct (Transform.transformId t);
    rewrite ?lookup_insert_eq; repeat (rewrite lookup_insert_ne by discriminate);
    rewrite ?lookup_insert_eq, ?lookup_empty; auto.
Qed.

(** The members of an encoded list decode one by one, in order. *)
Lemma decode_members (str_float : R -> string) (depth : nat) (l acc : list pyobj) :
  (forall t, In t l ->
     load_transform_json depth (obj_to_dict str_float t) "leaf" = Ok t) ->
  for_each (fun acc td =>
              td ← as_dict td;
              o ← load_transform_json depth td "leaf";
              Ok (acc ++ [o]))
           ((fun tform => JObj (obj_to_dict str_float tform)) <$> l) acc
  = Ok (acc ++ l).
Proof.
  revert acc. induction l as [|t l IH]; intros acc Hl.
  - cbn. rewrite app_nil_r. reflexivity.
  - cbn [fmap list_fmap for_each].
    change (list_fmap _ _ ?f l) with (f <$> l).
    change (as_dict (JObj ?m)) with (Ok m).
    change (Ok (obj_to_dict str_float t) ≫= ?k) with (k (obj_to_dict str_float t)).
    cbv beta. rewrite (Hl t (or_introl eq_refl)).
    change (Ok t ≫= ?k) with (k t). cbv beta.
    change (Ok (acc ++ [t]) ≫= ?k) with (k (acc ++ [t])). cbv beta.
    rewrite IH by (intros t' Ht'; apply Hl; right; exact Ht').
    rewrite <- app_assoc. reflexivity.
Qed.

(** X25: encoding and then decoding gives the object back: for every
    object built from generic leaves (whose class name is none of the five
    registered ones), references, lists and interpolations,
    [load_transform_json(o.to_dict())] returns [o], provided the decoder is
    allowed to nest deeper than the object does. *)
Theorem load_obj_to_dict (str_float : R -> string) (depth : nat) (o : pyobj) :
  (height o < depth)%nat ->
  generic_tree o ->
  load_transform_json depth (obj_to_dict str_float o) "leaf" = Ok o.
Proof.
  revert o.
  induction depth as [|depth IH]; intros o Hh Hg; [lia|].
  destruct o as [t| | | | | |l tid|r|a b lam]; try (destruct Hg; fail).
  - destruct Hg as [Hhash Hreg].
    destruct (transform_to_dict_lookups t) as (Hty & Hcn & Hds & Htid).
    cbn [obj_to_dict load_transform_json].
    assert (Hty' : dict_get (Transform.to_dict t) "type" (JStr "leaf") = JStr "leaf")
      by (unfold dict_get; rewrite Hty; reflexivity).
    rewrite Hty'.
    cbn [hashable negb json_is_str String.eqb Ascii.eqb Bool.eqb].
    rewrite (load_leaf_json_generic _ _ _ (or_intror Hty) Hcn Hds Hhash Hreg).
    rewrite Htid. destruct t; reflexivity.
  - cbn [obj_to_dict load_transform_json].
    assert (Hty : dict_get (match tid with
                            | JNull => <["specList" := JArr ((fun tform => JObj (obj_to_dict str_float tform)) <$> l)]> (<["type" := JStr "list"]> ∅)
                            | _ => <["id" := tid]> (<["specList" := JArr ((fun tform => JObj (obj_to_dict str_float tform)) <$> l)]> (<["type" := JStr "list"]> ∅))
                            end) "type" (JStr "leaf") = JStr "list").
    { unfold dict_get. destruct tid;
        repeat (rewrite lookup_insert_ne by discriminate);
        rewrite lookup_insert_eq; reflexivity. }
    rewrite Hty.
    cbn [hashable negb json_is_str String.eqb Ascii.eqb Bool.eqb].
    assert (Hsl : dict_item (match tid with
                            | JNull => <["specList" := JArr ((fun tform => JObj (obj_to_dict str_float tform)) <$> l)]> (<["type" := JStr "list"]> ∅)
                            | _ => <["id" := tid]> (<["specList" := JArr ((fun tform => JObj (obj_to_dict str_float tform)) <$> l)]> (<["type" := JStr "list"]> ∅))
                            end) "specList"
                  = Ok (JArr ((fun tform => JObj (obj_to_dict str_float tform)) <$> l))).
    { unfold dict_item. destruct tid;
        repeat (rewrite lookup_insert_ne by discriminate);
        rewrite lookup_insert_eq; reflexivity. }
    rewrite Hsl. cbn [mbind result_bind iter_items].
    rewrite decode_members.
    2:{ intros t Ht. apply IH.
        - pose proof (height_member l tid t Ht). lia.
        - apply (generic_member l tid t Hg Ht). }
    cbn [app result_bind except_KeyError]. do 2 f_equal.
    unfold dict_get. destruct tid;
      repeat (rewrite lookup_insert_ne by discriminate);
      rewrite ?lookup_insert_eq, ?lookup_empty; reflexivity.
  - cbn [obj_to_dict load_transform_json]. unfold dict_get.
    rewrite lookup_insert_ne by discriminate. rewrite lookup_insert_eq.
    cbn [hashable negb json_is_str String.eqb Ascii.eqb Bool.eqb].
    unfold ReferenceTransform_init_json, dict_item.
    rewrite lookup_insert_eq. reflexivity.
  - destruct Hg as [Hga Hgb]. cbn [height] in Hh.
    cbn [obj_to_dict load_transform_json].
    set (d := <["lambda" := lam]> _).
    assert (Hty : d !! "type" = Some (JStr "interpolated"))
      by (subst d; repeat (rewrite lookup_insert_ne by discriminate);
          apply lookup_insert_eq).
    assert (Ha : d !! "a" = Some (JObj (obj_to_dict str_float a)))
      by (subst d; repeat (rewrite lookup_insert_ne by discriminate);
          apply lookup_insert_eq).
    assert (Hb : d !! "b" = Some (JObj (obj_to_dict str_float b)))
      by (subst d; repeat (rewrite lookup_insert_ne by discriminate);
          apply lookup_insert_eq).
    assert (Hl : d !! "lambda" = Some lam) by (subst d; apply lookup_insert_eq).
    unfold dict_get, dict_item. rewrite Hty, Ha, Hb, Hl.
    cbn [hashable negb json_is_str String.eqb Ascii.eqb Bool.eqb].
    cbn [mbind result_bind as_dict].
    rewrite (IH a) by (try lia; assumption). cbn [result_bind].
    rewrite (IH b) by (try lia; assumption). reflexivity.
Qed.

Lemma load_obj_to_dict_witness :
  load_transform_json 4 (obj_to_dict (fun _ => "0.0") sample_tree) "leaf"
  = Ok sample_tree.
Proof.
  apply (load_obj_to_dict (fun _ => "0.0") 4 sample_tree).
  - change (3 < 4)%nat. lia.
  - cbn. repeat split.
Defined.

Lemma affine_to_dict_lookups (a : AffineModel.t) :
  dict_get (AffineModel.to_dict a) "type" (JStr "leaf") = JStr "leaf" /\
  AffineModel.to_dict a !! "className" = Some (AffineModel.className a).
Proof.
  unfold AffineModel.to_dict, dict_get.
  destruct (AffineModel.transformId a);
    repeat (rewrite lookup_insert_ne by discriminate);
    rewrite ?lookup_insert_eq; repeat (rewrite lookup_insert_ne by discriminate);
    rewrite ?lookup_insert_eq; auto.
Qed.

(** X26: encoding and decoding forgets the subclass: the
    constructors of [TranslationModel], [RigidModel] and [SimilarityModel]
    are the one of [AffineModel], which stores the class name of
    [AffineModel]; so the dictionary of a model of the affine family built
    by its constructor decodes to an [AffineModel] whose six parameters are
    the given ones rounded at the tenth fractional digit. *)
Theorem affine_family_reload (str_float : R -> string)
        (wrap : AffineModel.t -> pyobj) (depth : nat)
        (M00 M01 M10 M11 B0 B1 : R) (transformId : json) :
  In wrap [OAffineModel; OTranslationModel; ORigidModel; OSimilarityModel] ->
  load_transform_json (S depth)
    (obj_to_dict str_float (wrap (AffineModel.init M00 M01 M10 M11 B0 B1 transformId)))
    "leaf"
  = Ok (OAffineModel
          (AffineModel.init (round10 M00) (round10 M01) (round10 M10) (round10 M11)
                            (round10 B0) (round10 B1) transformId)).
Proof.
  intros Hw.
  set (a := AffineModel.init M00 M01 M10 M11 B0 B1 transformId).
  assert (Hd : obj_to_dict str_float (wrap a) = AffineModel.to_dict a).
  { cbn [In] in Hw. destruct Hw as [<-|[<-|[<-|[<-|[]]]]]; reflexivity. }
  rewrite Hd.
  destruct (affine_to_dict_lookups a) as [Hty Hcn].
  cbn [load_transform_json]. rewrite Hty.
  cbn [hashable negb json_is_str String.eqb Ascii.eqb Bool.eqb].
  unfold load_leaf_json. rewrite Hty.
  cbn [json_is_str String.eqb Ascii.eqb Bool.eqb negb].
  unfold dict_item. rewrite Hcn.
  change (AffineModel.className a) with (JStr AffineModel.class_name).
  cbn [mbind result_bind hashable negb].
  assert (Hs : json_is_str (JStr AffineModel.class_name) AffineModel.class_name = true)
    by reflexivity.
  rewrite Hs, init_json_to_dict. reflexivity.
Qed.

Lemma affine_family_reload_witness :
  load_transform_json 1
    (obj_to_dict sample_str_float
       (OTranslationModel (AffineModel.init 1 0 0 1 5 7 JNull)))
    "leaf"
  = Ok (OAffineModel
          (AffineModel.init (round10 1) (round10 0) (round10 0) (round10 1)
                            (round10 5) (round10 7) JNull)).
Proof.
  apply (affine_family_reload sample_str_float OTranslationModel 0 1 0 0 1 5 7 JNull).
  right. left. reflexivity.
Defined.

(** ** Chains *)

Lemma estimate_dstpts_cons (n : tnode) (l : list tnode) (p : ndarray) :
  estimate_dstpts (n :: l) p = (d ← estimate_dstpts_node n p; estimate_dstpts l d).
Proof. reflexivity. Qed.

Lemma estimate_dstpts_app (l1 l2 : list tnode) (p : ndarray) :
  estimate_dstpts (l1 ++ l2) p = (d ← estimate_dstpts l1 p; estimate_dstpts l2 d).
Proof.
  revert p. induction l1 as [|n l1 IH]; intros p; [reflexivity|].
  change ((n :: l1) ++ l2) with (n :: (l1 ++ l2)).
  rewrite !estimate_dstpts_cons.
  destruct (estimate_dstpts_node n p) as [d|e]; cbn [mbind result_bind];
    [apply IH|reflexivity].
Qed.

Lemma estimate_dstpts_flat (n : tnode) :
  forall p, estimate_dstpts_node n p = estimate_dstpts (Leaf <$> flatten_node n) p.
Proof.
  induction n as [o|l IH| |n l IHn IHl]
    using tnode_list_ind
    with (Q := fun l => forall p, estimate_dstpts l p
                                  = estimate_dstpts (Leaf <$> flatten l) p).
  - intros p. cbn. destruct (obj_tform o p); reflexivity.
  - exact IH.
  - reflexivity.
  - intros p.
    change (flatten (n :: l)) with (flatten_node n ++ flatten l).
    rewrite fmap_app, estimate_dstpts_app, estimate_dstpts_cons, <- IHn.
    destruct (estimate_dstpts_node n p) as [d|e]; cbn [mbind result_bind];
      [apply IHl|reflexivity].
Qed.

(** X27: [estimate_dstpts] composes and ignores nesting: the
    chain [l1 ++ l2] maps the points by [l1] and then by [l2] (an error of
    [l1] is the error of the chain); a chain inside a list maps as the
    chain; a nested chain maps as the flat list of its members in order;
    and the empty chain returns the points. *)
Theorem estimate_dstpts_compose (l1 l2 l : list tnode) (src : ndarray) :
  estimate_dstpts (l1 ++ l2) src
    = (d ← estimate_dstpts l1 src; estimate_dstpts l2 d) /\
  estimate_dstpts [Nested l] src = estimate_dstpts l src /\
  estimate_dstpts l src = estimate_dstpts (Leaf <$> flatten l) src /\
  estimate_dstpts [] src = Ok src.
Proof.
  split; [apply estimate_dstpts_app|]. split.
  - rewrite estimate_dstpts_cons.
    change (estimate_dstpts_node (Nested l) src) with (estimate_dstpts l src).
    destruct (estimate_dstpts l src); reflexivity.
  - split; [apply (estimate_dstpts_flat (Nested l))|reflexivity].
Qed.

(** X28: a chain of affine models maps as their concatenation: when
    every member of the (possibly nested) chain is an affine model whose
    matrix has last row [0 0 1], [estimate_dstpts] returns on every N x 2
    array what [tform] of the sequential [concatenate] of the members
    returns. *)
Theorem affine_chain_tform (l : list tnode) (src : ndarray) :
  Forall affine_member (flatten l) ->
  shape1 src = 2%nat ->
  exists q q',
    estimate_dstpts l src = Ok q /\
    AffineModel.tform (concatenate_chain (flatten l)) src = Ok q' /\
    array_eq q q'.
Proof.
  intros Hall Hsrc.
  destruct (affine_chain_maps (Nested l) Hall src Hsrc) as (q & Hq & M0 & M1 & Hm).
  destruct (affine_tform_maps (concatenate_chain (flatten l)) src)
    as (q' & Hq' & M0' & M1' & Hm'); [|exact Hsrc|].
  { apply chain_homogeneous. repeat split. }
  exists q, q'. split; [exact Hq|]. split; [exact Hq'|].
  split; [congruence|]. split; [congruence|].
  intros i j _ Hj. rewrite M1 in Hj.
  destruct (Hm i) as [E0 E1], (Hm' i) as [F0 F1].
  destruct j as [|[|j]]; [rewrite E0, F0|rewrite E1, F1|lia]; reflexivity.
Qed.

Lemma affine_chain_tform_witness :
  exists q q',
    estimate_dstpts [Leaf (OAffineModel AffineModel.default);
                     Nested [Leaf (OAffineModel AffineModel.default)]]
                    three_points = Ok q /\
    AffineModel.tform
      (concatenate_chain
         (flatten [Leaf (OAffineModel AffineModel.default);
                   Nested [Leaf (OAffineModel AffineModel.default)]]))
      three_points = Ok q' /\
    array_eq q q'.
Proof.
  apply (affine_chain_tform
           [Leaf (OAffineModel AffineModel.default);
            Nested [Leaf (OAffineModel AffineModel.default)]] three_points).
  - repeat constructor.
  - reflexivity.
Defined.

(** X29: a chain with a member that has no [tform] (a
    generic [Transform], a [TransformList], a reference or an
    interpolation) cannot be evaluated or collapsed: when the members
    before it map the points, [estimate_dstpts] and [estimate_transformsum]
    raise [AttributeError]. *)
Theorem chain_member_without_tform (np : linalg) (l1 l2 : list tnode) (o : pyobj)
        (src d : ndarray) (order : nat) :
  estimate_dstpts l1 src = Ok d ->
  match o with
  | OTransform _ | OTransformList _ _ | OReferenceTransform _
  | OInterpolatedTransform _ _ _ => True
  | _ => False
  end ->
  estimate_dstpts (l1 ++ Leaf o :: l2) src = Raise AttributeError /\
  estimate_transformsum np (l1 ++ Leaf o :: l2) src order = Raise AttributeError.
Proof.
  intros Hd Ho.
  assert (H : estimate_dstpts (l1 ++ Leaf o :: l2) src = Raise AttributeError).
  { rewrite estimate_dstpts_app, Hd. cbn [mbind result_bind].
    rewrite estimate_dstpts_cons.
    assert (Ht : estimate_dstpts_node (Leaf o) d = Raise AttributeError)
      by (destruct o; try contradiction; reflexivity).
    rewrite Ht. reflexivity. }
  split; [exact H|]. unfold estimate_transformsum. rewrite H. reflexivity.
Qed.

Lemma chain_member_without_tform_witness :
  estimate_dstpts ([] ++ Leaf (OReferenceTransform (JStr "lens")) :: []) three_points
    = Raise AttributeError /\
  estimate_transformsum constant_linalg
    ([] ++ Leaf (OReferenceTransform (JStr "lens")) :: []) three_points 2
    = Raise AttributeError.
Proof.
  apply (chain_member_without_tform constant_linalg [] []
           (OReferenceTransform (JStr "lens")) three_points three_points 2).
  - reflexivity.
  - exact I.
Defined.

(** The chain of the affine model and the identity polynomial maps the
    points by [(x, y) -> (2 x + 1, 2 y + 1)]. *)
Lemma mixed_chain_dstpts (src : ndarray) :
  shape1 src = 2%nat ->
  exists dst,
    estimate_dstpts mixed_chain src = Ok dst /\
    shape0 dst = shape0 src /\ shape1 dst = 2%nat /\
    forall r, item dst r 0 = (2 * item src r 0 + 1)%R /\
              item dst r 1 = (2 * item src r 1 + 1)%R.
Proof.
  intros Hsrc.
  destruct (affine_tform_maps (AffineModel.init 2 0 0 2 1 1 JNull) src)
    as (d1 & Hd1 & S0 & S1 & Hmap); [repeat split|exact Hsrc|].
  destruct (tform_items Polynomial2DTransform.init_identity 1 d1)
    as (d & Hd & T0 & T1 & Hitems); [split; reflexivity|lia|].
  exists d. split.
  - change (estimate_dstpts mixed_chain src)
      with (d1 ← AffineModel.tform (AffineModel.init 2 0 0 2 1 1 JNull) src;
            d ← (d ← Polynomial2DTransform.tform
                       Polynomial2DTransform.init_identity d1; Ok d);
            Ok d).
    rewrite Hd1. cbn [mbind result_bind]. rewrite Hd. reflexivity.
  - split; [congruence|]. split; [congruence|].
    intros r. destruct (Hitems r) as (E0 & E1 & _), (Hmap r) as [M0 M1].
    rewrite E0, E1, !poly_eval_order1, M0, M1. cbn. split; ring.
Qed.

(** The collapse at work: a nested chain of two affine models gives the
    model of their concatenation; a chain with a polynomial member and an
    exact solver gives a polynomial that maps the six points as the chain
    does; with three points and the order 2 it raises. *)
Lemma collapse_chain_witness :
  shape1 three_points = 2%nat /\
  (exists am,
      estimate_transformsum scale_shift_linalg scale_shift_chain three_points 2
      = Ok (OAffineModel am) /\
      AffineModel.M am = mk_mat3 2 0 1 0 2 1 0 0 1) /\
  (exists prm res,
      estimate_transformsum scale_shift_linalg mixed_chain six_points 1
      = Ok (OPolynomial2DTransform (Polynomial2DTransform.init_params prm)) /\
      Polynomial2DTransform.tform (Polynomial2DTransform.init_params prm) six_points
      = Ok res /\
      forall i j, (i < 6)%nat -> (j < 2)%nat ->
        (Rabs (item res i j - (2 * item six_points i j + 1)) <= 1 / 1000)%R) /\
  estimate_transformsum constant_linalg identity_polynomial_chain three_points 2
    = Raise EstimationError.
Proof.
  split; [reflexivity|]. split; [|split].
  - destruct (collapse_chain scale_shift_linalg scale_shift_chain
                three_points 2 eq_refl) as [Haff _].
    assert (Hmem : Forall affine_member (flatten scale_shift_chain))
      by (repeat constructor).
    assert (HM : AffineModel.M (concatenate_chain (flatten scale_shift_chain))
                 = mk_mat3 2 0 1 0 2 1 0 0 1)
      by (apply mat3_eq; cbn; ring).
    destruct Haff as (am & Ham & Hm).
    + exact Hmem.
    + exists 0%nat, 1%nat, 2%nat. cbn. repeat split; try lia. lra.
    + intros dst Hdst.
      destruct (affine_chain_maps (Nested scale_shift_chain) Hmem three_points
                  eq_refl) as (q & Hq & Hmaps).
      change (estimate_dstpts_node (Nested scale_shift_chain) three_points)
        with (estimate_dstpts scale_shift_chain three_points) in Hq.
      rewrite Hdst in Hq. injection Hq as <-.
      change (flatten_node (Nested scale_shift_chain))
        with (flatten scale_shift_chain) in Hmaps.
      rewrite HM in Hmaps.
      eexists. split; [reflexivity|].
      destruct (fit_system_rows three_points dst) as (_ & Hcols & _).
      split; [symmetry; exact Hcols|]. split; [reflexivity|].
      intros theta.
      change (fun c : nat => item _ c 0)
        with (params_of (mk_mat3 2 0 1 0 2 1 0 0 1)).
      rewrite (residual_exact _ three_points dst Hmaps).
      apply residual_nonneg.
    + exists am. split; [exact Ham|]. rewrite Hm. exact HM.
  - destruct (collapse_chain scale_shift_linalg mixed_chain six_points 1
                eq_refl) as [_ Hpoly].
    destruct (mixed_chain_dstpts six_points eq_refl)
      as (dst & Hdst & D0 & D1 & Hitems).
    destruct (fit_null_vector scale_shift_linalg 1 six_points dst 1
                (fun c => nth c [-1; -2; 0; -1; 0; -2; 1]%R 0%R))
      as (prm & res0 & Hfit & _ & _ & Hgood);
      [reflexivity|exact D1|exact D0|cbn; lia|reflexivity|cbn; lra| |].
    { intros r Hr. change (shape0 six_points * 2)%nat with 12%nat in Hr.
      destruct (Nat.lt_ge_cases r 6) as [Hlo|Hhi].
      - destruct (fit_matrix_rows six_points dst 1
                    (fun c => nth c [-1; -2; 0; -1; 0; -2; 1]%R 0%R) r Hlo)
          as [E _].
        cbv zeta in E. rewrite E. destruct (Hitems r) as [-> _]. cbn. ring.
      - destruct (fit_matrix_rows six_points dst 1
                    (fun c => nth c [-1; -2; 0; -1; 0; -2; 1]%R 0%R) (r - 6))
          as [_ E]; [cbn; lia|].
        cbv zeta in E.
        change (shape0 six_points) with 6%nat in E.
        replace (6 + (r - 6))%nat with r in E by lia.
        rewrite E. destruct (Hitems (r - 6)%nat) as [_ ->]. cbn. ring. }
    destruct (Hpoly dst [JStr AffineModel.class_name;
                         JStr Polynomial2DTransform.class_name])
      as (_ & Hret & _); [exact Hdst|reflexivity|reflexivity|].
    destruct (Hret 1%Z prm) as (res & Hr & _ & Hres & Hclose).
    + lia.
    + split; [exact Hfit|]. intros _. apply Hgood. lra.
    + intros j p Hj. lia.
    + intros v Hv. injection Hv as <-. cbn. lra.
    + exists prm, res. split; [exact Hr|]. split; [exact Hres|].
      intros i j Hi Hj. specialize (Hclose i j Hi Hj).
      destruct (Hitems i) as [I0 I1].
      destruct j as [|[|j]]; [rewrite <- I0|rewrite <- I1|lia]; exact Hclose.
  - destruct (collapse_chain constant_linalg identity_polynomial_chain
                three_points 2 eq_refl) as [_ Hpoly].
    destruct (identity_chain_dstpts three_points eq_refl) as (dst & Hdst).
    destruct (Hpoly dst [JStr Polynomial2DTransform.class_name])
      as (_ & _ & _ & Hfew); [exact Hdst|reflexivity|reflexivity|].
    apply Hfew. cbn. lia.
Defined.
